(** * half-light: cross-root style propagation (src/half-light.ts)

    A shallow embedding of the script and the properties of its
    specification.  JavaScript strings are sequences of UTF-16 code units,
    objects used as dictionaries are association lists in the order in which
    their keys are enumerated, [CSSStyleSheet] objects live in a store and
    are passed by reference, and
    the callbacks the script hands to the browser (animation frames, the
    mutation observer, the DOMContentLoaded listener) are run by an explicit
    event loop. *)

From Stdlib Require Import String Ascii NArith.
From stdpp Require Import base option list gmap.

Open Scope N_scope.
Open Scope nat_scope.

(** ** Strings *)

(** A string is the list of its UTF-16 code units. *)
Abbreviation JSString := (list N) (only parsing).

(** Code units of a literal written in ASCII. *)
Definition str (s : string) : JSString :=
  map N_of_ascii (list_ascii_of_string s).
#[global] Arguments str : simpl never.

(** [WhiteSpace] and [LineTerminator] of ECMAScript, the code units that
    [String.prototype.trim] removes. *)
Definition isWhiteSpace (c : N) : bool :=
  ((c =? 0x9) || (c =? 0xA) || (c =? 0xB) || (c =? 0xC) || (c =? 0xD)
   || (c =? 0x20) || (c =? 0xA0) || (c =? 0x1680)
   || ((0x2000 <=? c) && (c <=? 0x200A))
   || (c =? 0x2028) || (c =? 0x2029) || (c =? 0x202F) || (c =? 0x205F)
   || (c =? 0x3000) || (c =? 0xFEFF))%N.

Fixpoint trimStart (s : JSString) : JSString :=
  match s with
  | c :: s' => if isWhiteSpace c then trimStart s' else s
  | [] => []
  end.

Definition trim (s : JSString) : JSString :=
  rev (trimStart (rev (trimStart s))).

(** Truthiness of a string: every string but the empty one. *)
Definition truthy (s : JSString) : bool :=
  match s with [] => false | _ => true end.

(** ** The Marker Parser: [parseMediaQuery] *)

Definition marker : JSString := Eval vm_compute in str "--crossroot".
#[global] Arguments marker : simpl never.
Definition lparen : N := 40%N.
Definition rparen : N := 41%N.

(** [s] starts with [p]: the rest of [s]. *)
Fixpoint stripPrefix (p s : JSString) : option JSString :=
  match p, s with
  | [], _ => Some s
  | a :: p', b :: s' => if (a =? b)%N then stripPrefix p' s' else None
  | _ :: _, [] => None
  end.

(** The longest prefix without a closing parenthesis, which is what the
    capture group (a starred negated class) takes. *)
Fixpoint notRParen (s : JSString) : JSString :=
  match s with
  | c :: s' => if (c =? rparen)%N then [] else c :: notRParen s'
  | [] => []
  end.

(** What follows the literal [--crossroot] in the pattern: one optional
    opening parenthesis (quantifier {0,1}), taken when it is there (the quantifier
    is greedy and the group after it matches anything), then the capture
    group. *)
Definition capture (rest : JSString) : JSString :=
  match rest with
  | c :: rest' => if (c =? lparen)%N then notRParen rest' else notRParen rest
  | [] => []
  end.

(** [condition.match] with the pattern of line 47: the pattern is tried
    at each position from the left; once the literal is found the rest of the
    pattern cannot fail.  The result is the capture group [match[1]] of the
    leftmost match, or [None] for [null]. *)
Fixpoint regexMatch (condition : JSString) : option JSString :=
  match stripPrefix marker condition with
  | Some rest => Some (capture rest)
  | None =>
      match condition with
      | _ :: condition' => regexMatch condition'
      | [] => None
      end
  end.

Record MediaQueryResult := {
  isCrossRoot : bool;
  selector : JSString
}.

Definition star : JSString := Eval vm_compute in str "*".
#[global] Arguments star : simpl never.

(** A match has length 2 (the whole match and one group), so the test
    [match.length === 2] is true for every match. *)
Definition parseMediaQuery (condition : JSString) : MediaQueryResult :=
  let m := regexMatch condition in
  {| isCrossRoot := bool_decide (condition = marker) || bool_decide (is_Some m);
     selector :=
       match m with
       | Some g => if truthy (trim g) then g else star
       | None => star
       end |}.

(** ** Exceptions and state

    The exceptions are those of the script's own expressions (a property
    read on [null] or [undefined], a call of a value that is not a function),
    the refusal of the platform to attach a second shadow root, and the
    exceptions the browser raises in the calls the script makes: [matches]
    on a selector that does not parse, [insertRule] on a rule that the
    stylesheet does not take, and the read of [cssRules] on a stylesheet of
    another origin. *)
Inductive DOMExceptionName :=
| SyntaxError             (* matches, line 91; insertRule, line 17 *)
| HierarchyRequestError   (* insertRule, line 17 *)
| InvalidStateError       (* insertRule, line 17 *)
| SecurityError.          (* sheet.cssRules, lines 60 and 70 *)

Inductive JSError :=
| NullOwnerNode    (* line 56: sheet.ownerNode is null *)
| NotAFunction     (* line 17: updatedStyles[selector].insertRule is not a function *)
| UndefinedRule    (* line 80: cssRules[0] is undefined *)
| NullShadowRoot   (* lines 86 and 92: element.shadowRoot is null *)
| NotAStyleSheet   (* line 92: a list entry that is not a CSSStyleSheet *)
| NullScript       (* line 129: script is null *)
| StackExhausted   (* line 23: runaway recursion *)
| NotSupported     (* the native attachShadow refuses *)
| DOMException (name : DOMExceptionName).

#[global] Instance DOMExceptionName_eq_dec : EqDecision DOMExceptionName.
Proof. solve_decision. Defined.

#[global] Instance JSError_eq_dec : EqDecision JSError.
Proof. solve_decision. Defined.

Inductive Result (A : Type) :=
| Ok (a : A)
| Throw (e : JSError).
Arguments Ok {A} a.
Arguments Throw {A} e.

(** A computation on a state [S]: the state it leaves is kept also when it
    throws, since nothing is rolled back. *)
Definition M (S A : Type) : Type := S -> Result A * S.

Definition ret {S A} (a : A) : M S A := fun s => (Ok a, s).
Definition throw {S A} (e : JSError) : M S A := fun s => (Throw e, s).
Definition bind {S A B} (c : M S A) (k : A -> M S B) : M S B :=
  fun s =>
    match c s with
    | (Ok a, s') => k a s'
    | (Throw e, s') => (Throw e, s')
    end.
Definition gets {S A} (f : S -> A) : M S A := fun s => (Ok (f s), s).
Definition modify {S} (f : S -> S) : M S unit := fun s => (Ok tt, f s).

Notation "'let*' x ':=' c 'in' k" := (bind c (fun x => k))
  (at level 10, x name, c at level 100, k at level 200).
Notation "'do*' c 'in' k" := (bind c (fun _ => k))
  (at level 10, c at level 100, k at level 200).

(** [R.reduce] with a step that has effects. *)
Fixpoint reduceM {S A B} (f : A -> B -> M S A) (acc : A) (l : list B) : M S A :=
  match l with
  | [] => ret acc
  | x :: l' => let* acc' := f acc x in reduceM f acc' l'
  end.

(** [R.forEach]. *)
Fixpoint forEachM {S B} (f : B -> M S unit) (l : list B) : M S unit :=
  match l with
  | [] => ret tt
  | x :: l' => do* f x in forEachM f l'
  end.

(** ** Constructed stylesheets

    A [CSSStyleSheet] made with [new CSSStyleSheet()] is an object: it is
    known by its reference, and its state is the list of the texts of its
    rules, in the order of [cssRules]. *)
Abbreviation SheetRef := nat (only parsing).
Abbreviation Heap := (list (list JSString)) (only parsing).

Definition newCSSStyleSheet : M Heap SheetRef :=
  fun h => (Ok (length h), h ++ [[]]).

(** [sheet.insertRule(text)]: the index defaults to 0, the front of the
    list.  The browser parses the text and may refuse the rule, for what it
    is (an [@import] rule in a constructed stylesheet, a text that is not a
    rule) or for the rules the stylesheet holds (a rule in front of an
    [@namespace] rule); [answer] is its answer for this text, given the
    rules of the stylesheet.  A refused rule leaves the stylesheet as it
    was. *)
Definition insertRule (sheet : SheetRef) (text : JSString)
    (answer : list JSString -> option DOMExceptionName) : M Heap unit :=
  fun h =>
    match answer (default [] (h !! sheet)) with
    | Some name => (Throw (DOMException name), h)
    | None => (Ok tt, alter (cons text) sheet h)
    end.

(** The answer of the browser to a rule that it takes whatever the
    stylesheet holds. *)
Definition noRefusal : list JSString -> option DOMExceptionName :=
  fun _ => None.

(** ** Objects used as dictionaries *)

(** [CrossRootStyles]: the own properties of the object, in the order in
    which JavaScript enumerates them: keys that are array indices in
    ascending numeric order, then the other keys in creation order. *)
Abbreviation CrossRootStyles := (list (JSString * SheetRef)) (only parsing).

Definition createCrossRootStyles : CrossRootStyles := [].

Definition digitVal (c : N) : option N :=
  if ((48 <=? c) && (c <=? 57))%N then Some (c - 48)%N else None.

Fixpoint digitsVal (acc : N) (s : JSString) : option N :=
  match s with
  | [] => Some acc
  | c :: s' =>
      match digitVal c with
      | Some d => digitsVal (10 * acc + d)%N s'
      | None => None
      end
  end.

(** The array index a key denotes: a canonical decimal numeral below
    2^32 - 1. *)
Definition arrayIndex (k : JSString) : option N :=
  match k with
  | [] => None
  | c :: rest =>
      if (c =? 48)%N && truthy rest then None
      else match digitsVal 0 k with
           | Some v => if (v <? 2 ^ 32 - 1)%N then Some v else None
           | None => None
           end
  end.

(** [k] is enumerated before [k']. *)
Definition enumeratedBefore (k k' : JSString) : bool :=
  match arrayIndex k, arrayIndex k' with
  | Some i, Some j => (i <? j)%N
  | Some _, None => true
  | None, _ => false
  end.

Fixpoint getOwn (o : CrossRootStyles) (k : JSString) : option SheetRef :=
  match o with
  | [] => None
  | (k', v) :: o' => if decide (k = k') then Some v else getOwn o' k
  end.

Fixpoint replaceOwn (o : CrossRootStyles) (k : JSString) (v : SheetRef)
  : CrossRootStyles :=
  match o with
  | [] => []
  | (k', v') :: o' =>
      if decide (k = k') then (k, v) :: o' else (k', v') :: replaceOwn o' k v
  end.

Fixpoint createOwn (o : CrossRootStyles) (k : JSString) (v : SheetRef)
  : CrossRootStyles :=
  match o with
  | [] => [(k, v)]
  | (k', v') :: o' =>
      if enumeratedBefore k k' then (k, v) :: o
      else (k', v') :: createOwn o' k v
  end.

(** [o[k] = v]. *)
Definition setProp (o : CrossRootStyles) (k : JSString) (v : SheetRef)
  : CrossRootStyles :=
  match getOwn o k with
  | Some _ => replaceOwn o k v
  | None => createOwn o k v
  end.

(** The properties every object literal inherits from [Object.prototype]. *)
Definition objectPrototypeNames : list JSString :=
  map str
    ["constructor"; "__defineGetter__"; "__defineSetter__"; "hasOwnProperty";
     "__lookupGetter__"; "__lookupSetter__"; "isPrototypeOf";
     "propertyIsEnumerable"; "toString"; "valueOf"; "__proto__";
     "toLocaleString"]%string.

Inductive PropValue :=
| OwnSheet (sheet : SheetRef)
| Inherited
| Undefined.

(** [o[k]]: the own property, else the inherited one, else [undefined]. *)
Definition getProp (o : CrossRootStyles) (k : JSString) : PropValue :=
  match getOwn o k with
  | Some v => OwnSheet v
  | None => if bool_decide (k ∈ objectPrototypeNames) then Inherited else Undefined
  end.

(** [R.keys]: the own enumerable keys. *)
Definition R_keys (o : CrossRootStyles) : list JSString := fst <$> o.

(** [R.clone]: a new plain object with the same keys whose values are the
    clones of the values.  Ramda copies plain objects, arrays, dates, regular
    expressions and typed arrays; a value of any other class, such as a
    [CSSStyleSheet], is returned as it is.  The clone of the map therefore
    has the same own properties as the original, enumerated in the same
    order, and binds every key to the same stylesheet object: as a list of
    bindings to references it is the list of the original. *)
Definition R_clone (o : CrossRootStyles) : CrossRootStyles := o.

(** [R.assoc]: a shallow copy with one property set. *)
Definition R_assoc (k : JSString) (v : SheetRef) (o : CrossRootStyles)
  : CrossRootStyles :=
  setProp o k v.

(** ** The Rule Extractor *)

(** A rule of a stylesheet of the page, as the script reads it. *)
#[local] Set Warnings "-register-all".
Inductive CSSRule := mkCSSRule {
  constructorName : JSString;         (* rule.constructor.name *)
  conditionText : option JSString;    (* undefined on rules without a condition *)
  cssText : JSString;
  cssRules : list CSSRule;            (* the child rules of a grouping rule *)
  refusal : list JSString -> option DOMExceptionName
    (* the answer of the browser to insertRule(cssText) on a constructed
       stylesheet that holds the given rules: the exception it throws, or
       None when it inserts the rule *)
}.

Definition CSSImportRule : JSString := Eval vm_compute in str "CSSImportRule".
#[global] Arguments CSSImportRule : simpl never.

(** The answer of a constructed stylesheet to the text of [rule]: it
    refuses an [@import] rule with a [SyntaxError]; for another rule the
    answer is that of the browser. *)
Definition refusalOf (rule : CSSRule) (texts : list JSString)
  : option DOMExceptionName :=
  if bool_decide (constructorName rule = CSSImportRule) then Some SyntaxError
  else refusal rule texts.

Definition addStyleRule (crossRootStyles : CrossRootStyles)
    (selector : JSString) (rule : CSSRule) : M Heap CrossRootStyles :=
  let updatedStyles := R_clone crossRootStyles in
  match getProp updatedStyles selector with
  | Undefined =>
      let* sheet := newCSSStyleSheet in
      let updatedStyles := setProp updatedStyles selector sheet in
      do* insertRule sheet (cssText rule) (refusalOf rule) in
      ret updatedStyles
  | OwnSheet sheet =>
      do* insertRule sheet (cssText rule) (refusalOf rule) in
      ret updatedStyles
  | Inherited => throw NotAFunction
  end.

Definition processStyleSheet (rules : list CSSRule) (selector : JSString)
    (crossRootStyles : CrossRootStyles) : M Heap CrossRootStyles :=
  reduceM (fun styles rule => addStyleRule styles selector rule)
          crossRootStyles rules.

(** ** The document *)

Abbreviation Element := nat (only parsing).

(** [element] in [isInDarkRoot] is an element or a shadow root; an element
    has at most one shadow root, which is known by its host. *)
Inductive Node :=
| El (e : Element)
| ShadowRootOf (host : Element).

#[global] Instance Node_eq_dec : EqDecision Node.
Proof. solve_decision. Defined.

(** What the script reads of the tree.  [parentElement] is [None] for an
    element whose parent is not an element: the root element, a detached
    element, and an element that is a child of a shadow root. *)
Record DomTree := {
  parentElement : Element -> option Element;
  hasAttribute : Element -> JSString -> bool;
  darkenedProperty : Element -> bool;      (* truthiness of host.darkened *)
  documentElement : option Element;
  matches : Element -> JSString -> bool;
  validSelector : JSString -> bool;        (* the selector parses *)
  treeHeight : nat                         (* no node has more ancestors *)
}.

(** [element.matches(selector)]: a [SyntaxError] when the selector does not
    parse. *)
Definition elementMatches {S} (d : DomTree) (element : Element)
    (selector : JSString) : M S bool :=
  if validSelector d selector then ret (matches d element selector)
  else throw (DOMException SyntaxError).

(** A stylesheet of the page ([document.styleSheets]). *)
Record DocSheet := {
  ownerNode : option Element;
  mediaText : JSString;                    (* sheet.media.mediaText *)
  sheetRules : list CSSRule;               (* sheet.cssRules *)
  crossOrigin : bool   (* loaded from another origin without CORS approval *)
}.

(** [sheet.cssRules]: a [SecurityError] on a stylesheet of another
    origin. *)
Definition readCssRules (sheet : DocSheet) : M Heap (list CSSRule) :=
  if crossOrigin sheet then throw (DOMException SecurityError)
  else ret (sheetRules sheet).

Definition ownerSelector : JSString := Eval vm_compute in str "head > :not([no-half-light])".
#[global] Arguments ownerSelector : simpl never.
Definition CSSMediaRule : JSString := Eval vm_compute in str "CSSMediaRule".
#[global] Arguments CSSMediaRule : simpl never.

(** The body of the [R.forEach] over the rules of a sheet (lines 63-70). *)
Definition scanRule (styles : CrossRootStyles) (rule : CSSRule)
  : M Heap CrossRootStyles :=
  let ruleType := constructorName rule in
  let condition := default [] (conditionText rule) in
  let mediaQueryResult := parseMediaQuery condition in
  if bool_decide (ruleType = CSSMediaRule) && isCrossRoot mediaQueryResult
  then processStyleSheet (cssRules rule) (selector mediaQueryResult) styles
  else ret styles.

(** The step of the [R.reduce] over the sheets (lines 55-73).  The
    selector of line 56 is a literal that parses. *)
Definition scanSheet (d : DomTree) (styles : CrossRootStyles) (sheet : DocSheet)
  : M Heap CrossRootStyles :=
  match ownerNode sheet with
  | None => throw NullOwnerNode
  | Some owner =>
      if negb (matches d owner ownerSelector) then ret styles
      else
        let mediaQueryResult := parseMediaQuery (mediaText sheet) in
        let* styles :=
          (if isCrossRoot mediaQueryResult
           then
             let* rules := readCssRules sheet in
             processStyleSheet rules (selector mediaQueryResult) styles
           else ret styles) in
        let* rules := readCssRules sheet in
        reduceM scanRule styles rules
  end.

Definition refreshCrossRootStyles (d : DomTree) (styleSheets : list DocSheet)
  : M Heap CrossRootStyles :=
  reduceM (scanSheet d) createCrossRootStyles styleSheets.

(** ** The Stylesheet Compiler *)

Definition layerOpen : JSString := Eval vm_compute in str "@layer --crossroot {".
#[global] Arguments layerOpen : simpl never.
Definition layerClose : JSString := Eval vm_compute in str "}".
#[global] Arguments layerClose : simpl never.

(** [crossRootStyles[selector].cssRules[0].cssText]. *)
Definition firstRuleText (crossRootStyles : CrossRootStyles)
    (selector : JSString) : M Heap JSString :=
  fun h =>
    match getOwn crossRootStyles selector with
    | Some acc =>
        match h !! acc with
        | Some (text :: _) => (Ok text, h)
        | _ => (Throw UndefinedRule, h)
        end
    | None => (Throw UndefinedRule, h)
    end.

(** The text given to [insertRule] is a layer block around the text of a
    rule that an accumulator holds, and the stylesheet is new: the browser
    takes it. *)
Definition convertToCSSStyleSheets (crossRootStyles : CrossRootStyles)
  : M Heap CrossRootStyles :=
  reduceM (fun styleSheets selector =>
             let* sheet := newCSSStyleSheet in
             let* text := firstRuleText crossRootStyles selector in
             do* insertRule sheet (layerOpen ++ text ++ layerClose)
                   noRefusal in
             ret (R_assoc selector sheet styleSheets))
          createCrossRootStyles (R_keys crossRootStyles).

(** ** The Dark-Root Detector *)

(** [element.parentElement]: a shadow root has no parent. *)
Definition nodeParentElement (d : DomTree) (element : Node) : option Element :=
  match element with
  | El e => parentElement d e
  | ShadowRootOf _ => None
  end.

Definition instanceofShadowRoot (element : Node) : bool :=
  match element with
  | ShadowRootOf _ => true
  | El _ => false
  end.

Definition darkenedAttr : JSString := Eval vm_compute in str "darkened".
#[global] Arguments darkenedAttr : simpl never.

(** [isInDarkRoot], with the depth of the recursion bounded by [fuel];
    [None] when the bound is reached. *)
Fixpoint isInDarkRoot (d : DomTree) (fuel : nat) (element : Node) : option bool :=
  match fuel with
  | 0 => None
  | S fuel' =>
      match nodeParentElement d element with
      | Some parent => isInDarkRoot d fuel' (El parent)
      | None =>
          match element with
          | ShadowRootOf host =>
              if hasAttribute d host darkenedAttr || darkenedProperty d host
              then Some true
              else isInDarkRoot d fuel' (El host)
          | El e =>
              Some (bool_decide (Some e ≠ documentElement d)
                    && negb (instanceofShadowRoot element))
          end
      end
  end.

(** ** The page: shared state of the script and of the browser *)

Inductive ShadowRootMode := open | closed.

#[global] Instance ShadowRootMode_eq_dec : EqDecision ShadowRootMode.
Proof. solve_decision. Defined.

Record ShadowRoot := {
  mode : ShadowRootMode;
  adoptedStyleSheets : list SheetRef
}.

(** The function stored in [Element.prototype.attachShadow]: the native one,
    or the wrapper of [wrapAttachShadow] with what its closure captured. *)
Inductive AttachShadowImpl :=
| Native
| Wrapped (liveUpdateEnabled : bool) (crossRootStyles : CrossRootStyles)
          (originalAttachShadow : AttachShadowImpl).

(** The callbacks given to [requestAnimationFrame], with what their closures
    captured. *)
Inductive FrameCallback :=
| MainFrame (styleSheets : list nat)                      (* line 172 *)
| AttachedFrame (this : Element) (liveUpdateEnabled : bool)
                (crossRootStyles : CrossRootStyles).      (* line 147 *)

(** A [MutationObserver] made by [observeStyleSheetChanges]: its callback is
    [initCallback], which captured the array [styleSheets]. *)
Record Observer := {
  observing : bool;
  observerStyleSheets : list nat
}.

(** The listener of line 176, which captured [script] and [observer]. *)
Record Listener := {
  listenerScript : option Element;
  listenerObserver : nat
}.

Record World := {
  domTree : DomTree;
  cssom : list DocSheet;             (* the stylesheet objects of the page *)
  document_styleSheets : list nat;   (* document.styleSheets, by reference *)
  currentScript : option Element;    (* document.currentScript *)
  heap : Heap;
  shadowRoots : gmap Element ShadowRoot;
  attachShadow : AttachShadowImpl;   (* Element.prototype.attachShadow *)
  stylableElements : list Element;   (* a Set, in insertion order *)
  initialShadowRootStyles : gmap Element (list SheetRef);
  observers : list Observer;
  frameQueue : list FrameCallback;
  listeners : list Listener;         (* of DOMContentLoaded *)
  console : list JSError             (* uncaught exceptions, oldest first *)
}.

Definition setHeap (h : Heap) (w : World) : World :=
  {| domTree := domTree w; cssom := cssom w;
     document_styleSheets := document_styleSheets w;
     currentScript := currentScript w; heap := h;
     shadowRoots := shadowRoots w; attachShadow := attachShadow w;
     stylableElements := stylableElements w;
     initialShadowRootStyles := initialShadowRootStyles w;
     observers := observers w; frameQueue := frameQueue w;
     listeners := listeners w; console := console w |}.

Definition setShadowRoots (s : gmap Element ShadowRoot) (w : World) : World :=
  {| domTree := domTree w; cssom := cssom w;
     document_styleSheets := document_styleSheets w;
     currentScript := currentScript w; heap := heap w;
     shadowRoots := s; attachShadow := attachShadow w;
     stylableElements := stylableElements w;
     initialShadowRootStyles := initialShadowRootStyles w;
     observers := observers w; frameQueue := frameQueue w;
     listeners := listeners w; console := console w |}.

Definition setAttachShadow (a : AttachShadowImpl) (w : World) : World :=
  {| domTree := domTree w; cssom := cssom w;
     document_styleSheets := document_styleSheets w;
     currentScript := currentScript w; heap := heap w;
     shadowRoots := shadowRoots w; attachShadow := a;
     stylableElements := stylableElements w;
     initialShadowRootStyles := initialShadowRootStyles w;
     observers := observers w; frameQueue := frameQueue w;
     listeners := listeners w; console := console w |}.

Definition setStylableElements (l : list Element) (w : World) : World :=
  {| domTree := domTree w; cssom := cssom w;
     document_styleSheets := document_styleSheets w;
     currentScript := currentScript w; heap := heap w;
     shadowRoots := shadowRoots w; attachShadow := attachShadow w;
     stylableElements := l;
     initialShadowRootStyles := initialShadowRootStyles w;
     observers := observers w; frameQueue := frameQueue w;
     listeners := listeners w; console := console w |}.

Definition setInitialShadowRootStyles (t : gmap Element (list SheetRef))
    (w : World) : World :=
  {| domTree := domTree w; cssom := cssom w;
     document_styleSheets := document_styleSheets w;
     currentScript := currentScript w; heap := heap w;
     shadowRoots := shadowRoots w; attachShadow := attachShadow w;
     stylableElements := stylableElements w;
     initialShadowRootStyles := t;
     observers := observers w; frameQueue := frameQueue w;
     listeners := listeners w; console := console w |}.

Definition setObservers (o : list Observer) (w : World) : World :=
  {| domTree := domTree w; cssom := cssom w;
     document_styleSheets := document_styleSheets w;
     currentScript := currentScript w; heap := heap w;
     shadowRoots := shadowRoots w; attachShadow := attachShadow w;
     stylableElements := stylableElements w;
     initialShadowRootStyles := initialShadowRootStyles w;
     observers := o; frameQueue := frameQueue w;
     listeners := listeners w; console := console w |}.

Definition setFrameQueue (q : list FrameCallback) (w : World) : World :=
  {| domTree := domTree w; cssom := cssom w;
     document_styleSheets := document_styleSheets w;
     currentScript := currentScript w; heap := heap w;
     shadowRoots := shadowRoots w; attachShadow := attachShadow w;
     stylableElements := stylableElements w;
     initialShadowRootStyles := initialShadowRootStyles w;
     observers := observers w; frameQueue := q;
     listeners := listeners w; console := console w |}.

Definition setListeners (l : list Listener) (w : World) : World :=
  {| domTree := domTree w; cssom := cssom w;
     document_styleSheets := document_styleSheets w;
     currentScript := currentScript w; heap := heap w;
     shadowRoots := shadowRoots w; attachShadow := attachShadow w;
     stylableElements := stylableElements w;
     initialShadowRootStyles := initialShadowRootStyles w;
     observers := observers w; frameQueue := frameQueue w;
     listeners := l; console := console w |}.

Definition setConsole (c : list JSError) (w : World) : World :=
  {| domTree := domTree w; cssom := cssom w;
     document_styleSheets := document_styleSheets w;
     currentScript := currentScript w; heap := heap w;
     shadowRoots := shadowRoots w; attachShadow := attachShadow w;
     stylableElements := stylableElements w;
     initialShadowRootStyles := initialShadowRootStyles w;
     observers := observers w; frameQueue := frameQueue w;
     listeners := listeners w; console := c |}.

Definition setCurrentScript (s : option Element) (w : World) : World :=
  {| domTree := domTree w; cssom := cssom w;
     document_styleSheets := document_styleSheets w;
     currentScript := s; heap := heap w;
     shadowRoots := shadowRoots w; attachShadow := attachShadow w;
     stylableElements := stylableElements w;
     initialShadowRootStyles := initialShadowRootStyles w;
     observers := observers w; frameQueue := frameQueue w;
     listeners := listeners w; console := console w |}.

(** What the page changes under [document.head] or elsewhere: the tree and
    the stylesheets, the objects and the list of the attached ones. *)
Definition setDocument (d : DomTree) (sheets : list DocSheet) (attached : list nat)
    (w : World) : World :=
  {| domTree := d; cssom := sheets; document_styleSheets := attached;
     currentScript := currentScript w; heap := heap w;
     shadowRoots := shadowRoots w; attachShadow := attachShadow w;
     stylableElements := stylableElements w;
     initialShadowRootStyles := initialShadowRootStyles w;
     observers := observers w; frameQueue := frameQueue w;
     listeners := listeners w; console := console w |}.

(** A computation on the stylesheet store, run on the page. *)
Definition onHeap {A} (c : M Heap A) : M World A :=
  fun w => let (r, h) := c (heap w) in (r, setHeap h w).

(** ** Apply and Reset *)

(** [element.shadowRoot]: the shadow root when its mode is open, else
    [null]. *)
Definition shadowRootOf (w : World) (element : Element) : option ShadowRoot :=
  match shadowRoots w !! element with
  | Some sr => if decide (mode sr = open) then Some sr else None
  | None => None
  end.

(** [element.shadowRoot!.adoptedStyleSheets = sheets]: the shadow root is
    read first, then the new list is computed from the old one and stored. *)
Definition assignAdopted (element : Element)
    (sheets : list SheetRef -> Result (list SheetRef)) : M World unit :=
  fun w =>
    match shadowRootOf w element with
    | Some sr =>
        match sheets (adoptedStyleSheets sr) with
        | Ok l =>
            (Ok tt,
             setShadowRoots
               (<[element := {| mode := mode sr; adoptedStyleSheets := l |}]>
                  (shadowRoots w)) w)
        | Throw e => (Throw e, w)
        end
    | None => (Throw NullShadowRoot, w)
    end.

Definition clearShadowRootStyles (element : Element)
    (initialStyleSheets : list SheetRef) : M World unit :=
  assignAdopted element (fun _ => Ok initialStyleSheets).

Definition applyCrossRootStyles (element : Element)
    (crossRootStyles : CrossRootStyles) : M World unit :=
  forEachM (fun selector =>
              let* d := gets domTree in
              let* matched := elementMatches d element selector in
              if matched
              then
                assignAdopted element
                  (fun old =>
                     match getOwn crossRootStyles selector with
                     | Some sheet => Ok (old ++ [sheet])
                     | None => Throw NotAStyleSheet
                     end)
              else ret tt)
           (R_keys crossRootStyles).

(** The sheet objects an array of references denotes now; a reference is
    never dangling, and one that were is skipped. *)
Definition sheetObjects (w : World) (styleSheets : list nat) : list DocSheet :=
  omap (fun r => cssom w !! r) styleSheets.

Definition initializeStyles (styleSheets : list nat) : M World unit :=
  let* d := gets domTree in
  let* sheets := gets (fun w => sheetObjects w styleSheets) in
  let* crossRootStyles := onHeap (refreshCrossRootStyles d sheets) in
  let* styleSheetMap := onHeap (convertToCSSStyleSheets crossRootStyles) in
  let* elements := gets stylableElements in
  forEachM (fun element =>
              let* initial :=
                gets (fun w => default [] (initialShadowRootStyles w !! element)) in
              do* clearShadowRootStyles element initial in
              applyCrossRootStyles element styleSheetMap)
           elements.

(** ** The Live Sync Controller and the Shadow Attachment Interceptor *)

Definition requestAnimationFrame (callback : FrameCallback) : M World unit :=
  modify (fun w => setFrameQueue (frameQueue w ++ [callback]) w).

(** [observeStyleSheetChanges(initCallback)]: a new observer of
    [document.head], known by its position among the observers. *)
Definition observeStyleSheetChanges (styleSheets : list nat) : M World nat :=
  fun w =>
    (Ok (length (observers w)),
     setObservers
       (observers w ++ [{| observing := true;
                           observerStyleSheets := styleSheets |}]) w).

Definition disconnect (observer : nat) : M World unit :=
  modify (fun w =>
            setObservers
              (alter (fun o => {| observing := false;
                                  observerStyleSheets := observerStyleSheets o |})
                     observer (observers w)) w).

Definition disableAttr : JSString := Eval vm_compute in str "disable-live-half-light".
#[global] Arguments disableAttr : simpl never.

Definition handleDOMContentLoaded (script : option Element) (observer : nat)
  : M World unit :=
  match script with
  | None => throw NullScript
  | Some script =>
      let* d := gets domTree in
      if hasAttribute d script disableAttr
      then
        do* disconnect observer in
        modify (setStylableElements [])
      else ret tt
  end.

(** The native [attachShadow]: refused on an element that has a shadow
    root; the new shadow root adopts no stylesheet. *)
Definition nativeAttachShadow (this : Element) (init : ShadowRootMode)
  : M World unit :=
  fun w =>
    match shadowRoots w !! this with
    | Some _ => (Throw NotSupported, w)
    | None =>
        (Ok tt,
         setShadowRoots
           (<[this := {| mode := init; adoptedStyleSheets := [] |}]>
              (shadowRoots w)) w)
    end.

(** A call [this.attachShadow(init)]; the shadow root it returns is the one
    of [this]. *)
Fixpoint callAttachShadow (impl : AttachShadowImpl) (this : Element)
    (init : ShadowRootMode) : M World unit :=
  match impl with
  | Native => nativeAttachShadow this init
  | Wrapped liveUpdateEnabled crossRootStyles originalAttachShadow =>
      do* callAttachShadow originalAttachShadow this init in
      if decide (init ≠ open) then ret tt
      else requestAnimationFrame
             (AttachedFrame this liveUpdateEnabled crossRootStyles)
  end.

Definition wrapAttachShadow (liveUpdateEnabled : bool)
    (crossRootStyles : CrossRootStyles) : M World unit :=
  modify (fun w =>
            setAttachShadow
              (Wrapped liveUpdateEnabled crossRootStyles (attachShadow w)) w).

(** [stylableElements.add(element)]. *)
Definition setAdd (element : Element) (l : list Element) : list Element :=
  if decide (element ∈ l) then l else l ++ [element].

Definition runFrameCallback (callback : FrameCallback) : M World unit :=
  match callback with
  | MainFrame styleSheets =>
      do* initializeStyles styleSheets in
      let* observer := observeStyleSheetChanges styleSheets in
      let* script := gets currentScript in
      modify (fun w =>
                setListeners
                  (listeners w ++ [{| listenerScript := script;
                                      listenerObserver := observer |}]) w)
  | AttachedFrame this liveUpdateEnabled crossRootStyles =>
      let* d := gets domTree in
      match isInDarkRoot d (2 + treeHeight d) (ShadowRootOf this) with
      | None => throw StackExhausted
      | Some true => ret tt
      | Some false =>
          do* (if liveUpdateEnabled
               then modify (fun w =>
                              setStylableElements
                                (setAdd this (stylableElements w)) w)
               else ret tt) in
          do* modify (fun w =>
                        setInitialShadowRootStyles
                          (<[this := match shadowRoots w !! this with
                                     | Some sr => adoptedStyleSheets sr
                                     | None => []
                                     end]> (initialShadowRootStyles w)) w) in
          applyCrossRootStyles this crossRootStyles
      end
  end.

Definition main : M World unit :=
  let crossRootStyles := createCrossRootStyles in
  let* styleSheets := gets document_styleSheets in
  do* requestAnimationFrame (MainFrame styleSheets) in
  wrapAttachShadow true crossRootStyles.

(** ** The event loop *)

(** A task of the event loop: an exception that escapes it is reported and
    the state it left stays. *)
Definition task (c : M World unit) (w : World) : World :=
  match c w with
  | (Ok _, w') => w'
  | (Throw e, w') => setConsole (console w' ++ [e]) w'
  end.

(** The page before the script runs. *)
Record Page := {
  pageDom : DomTree;
  pageSheets : list DocSheet;
  pageStyleSheets : list nat;
  pageScript : Element;
  pageHeap : Heap;
  pageShadowRoots : gmap Element ShadowRoot
}.

(** The script runs: [document.currentScript] is its element while [main]
    runs, and [null] when a callback runs later. *)
Definition boot (p : Page) : World :=
  setCurrentScript None
    (task main
       {| domTree := pageDom p; cssom := pageSheets p;
          document_styleSheets := pageStyleSheets p;
          currentScript := Some (pageScript p); heap := pageHeap p;
          shadowRoots := pageShadowRoots p; attachShadow := Native;
          stylableElements := []; initialShadowRootStyles := ∅;
          observers := []; frameQueue := []; listeners := [];
          console := [] |}).

Inductive Event :=
| AttachShadow (element : Element) (init : ShadowRootMode)
| SetAdoptedStyleSheets (element : Element) (sheets : list SheetRef)
| ConstructSheet (rules : list JSString)
| AnimationFrame
| HeadMutation (d : DomTree) (sheets : list DocSheet) (attached : list nat)
| DomMutation (d : DomTree)
| DOMContentLoaded.

(** A mutation under [document.head] is delivered to every observer that
    is still connected; the callback of each is [initCallback]. *)
Definition notifyObservers (w : World) : World :=
  foldl (fun w o =>
           if observing o then task (initializeStyles (observerStyleSheets o)) w
           else w)
        w (observers w).

Definition step (w : World) (e : Event) : World :=
  match e with
  | AttachShadow element init =>
      task (callAttachShadow (attachShadow w) element init) w
  | SetAdoptedStyleSheets element sheets =>
      match shadowRoots w !! element with
      | Some sr =>
          setShadowRoots
            (<[element := {| mode := mode sr; adoptedStyleSheets := sheets |}]>
               (shadowRoots w)) w
      | None => w
      end
  | ConstructSheet rules => setHeap (heap w ++ [rules]) w
  | AnimationFrame =>
      foldl (fun w callback => task (runFrameCallback callback) w)
            (setFrameQueue [] w) (frameQueue w)
  | HeadMutation d sheets attached =>
      notifyObservers (setDocument d sheets attached w)
  | DomMutation d =>
      setDocument d (cssom w) (document_styleSheets w) w
  | DOMContentLoaded =>
      foldl (fun w l =>
               task (handleDOMContentLoaded (listenerScript l)
                       (listenerObserver l)) w)
            w (listeners w)
  end.

Definition run (w : World) (events : list Event) : World := foldl step w events.

(** ** The specification's wording, for comparison *)

(** The marker followed by an argument list in parentheses occurs in [s]. *)
Fixpoint markerWithArguments (s : JSString) : bool :=
  match stripPrefix (marker ++ [lparen]) s with
  | Some rest => bool_decide (rparen ∈ rest)
  | None => false
  end
  || match s with
     | _ :: s' => markerWithArguments s'
     | [] => false
     end.

(** "Exactly a reserved marker token, or contains that marker followed by an
    argument list in parentheses." *)
Definition specIsCrossRoot (condition : JSString) : bool :=
  bool_decide (condition = marker) || markerWithArguments condition.

(** The marker occurs in [condition], and [pre] is what stands before its
    first occurrence and [rest] what stands after it. *)
Definition firstMarker (condition pre rest : JSString) : Prop :=
  condition = pre ++ marker ++ rest
  ∧ regexMatch (pre ++ removelast marker) = None.

(** [arg] is what [rest], the text after the marker, gives as argument: the
    text up to the first closing parenthesis, or to the end when there is
    none, after one opening parenthesis when [rest] starts with one. *)
Definition argumentOf (rest arg : JSString) : Prop :=
  ∃ body,
    ((rest = lparen :: body) ∨ (rest = body ∧ head rest ≠ Some lparen))
    ∧ (rparen ∉ arg)
    ∧ (body = arg ∨ ∃ post, body = arg ++ rparen :: post).

(** ** Invariants of the stylesheet store *)

(** A style map is well formed in a store: its keys are distinct and each
    is bound to a stylesheet of the store that holds a rule. *)
Definition wfStyles (m : CrossRootStyles) (h : Heap) : Prop :=
  NoDup (R_keys m)
  ∧ ∀ sel acc, getOwn m sel = Some acc →
               ∃ text rest, h !! acc = Some (text :: rest).

(** The accumulators of distinct selectors are distinct stylesheets. *)
Definition separated (m : CrossRootStyles) : Prop := NoDup m.*2.

(** The rules the accumulator of [sel] holds, none when [sel] is not a
    key. *)
Definition accumulated (m : CrossRootStyles) (h : Heap) (sel : JSString)
  : list JSString :=
  match getOwn m sel with
  | Some acc => default [] (h !! acc)
  | None => []
  end.

(** The condition of a rule as [scanRule] reads it. *)
Definition ruleCondition (rule : CSSRule) : MediaQueryResult :=
  parseMediaQuery (default [] (conditionText rule)).

(** A top-level rule that [scanRule] extracts: a media rule whose condition
    is cross-root. *)
Definition markedRule (rule : CSSRule) : bool :=
  bool_decide (constructorName rule = CSSMediaRule)
  && isCrossRoot (ruleCondition rule).

(** A rule that a constructed stylesheet takes, whatever it holds. *)
Definition acceptedRule (rule : CSSRule) : Prop :=
  ∀ texts, refusalOf rule texts = None.

(** A sheet that can be scanned without an exception: it has an owner, its
    rules can be read, no selector it gives names a property of
    [Object.prototype], and a constructed stylesheet takes its rules and
    their child rules. *)
Definition scannable (sheet : DocSheet) : Prop :=
  is_Some (ownerNode sheet)
  ∧ crossOrigin sheet = false
  ∧ (selector (parseMediaQuery (mediaText sheet)) ∉ objectPrototypeNames)
  ∧ ∀ rule, rule ∈ sheetRules sheet →
            (selector (ruleCondition rule) ∉ objectPrototypeNames)
            ∧ acceptedRule rule
            ∧ ∀ child, child ∈ cssRules rule → acceptedRule child.

(** The rules a scan inserts, each with the selector of the accumulator it
    goes to, in the order of the insertions: those of a block of rules
    under a condition, *)
Definition blockInsertions (mark : MediaQueryResult) (rules : list CSSRule)
  : list (JSString * JSString) :=
  if isCrossRoot mark then (λ rule, (selector mark, cssText rule)) <$> rules
  else [].

(** of a rule at the top level of a sheet, *)
Definition ruleInsertions (rule : CSSRule) : list (JSString * JSString) :=
  if bool_decide (constructorName rule = CSSMediaRule)
  then blockInsertions (ruleCondition rule) (cssRules rule)
  else [].

(** and of a sheet: none when its owner is not matched, else its rules
    when its own condition is cross-root, then the child rules of the media
    rules at its top level whose condition is cross-root. *)
Definition sheetInsertions (d : DomTree) (sheet : DocSheet)
  : list (JSString * JSString) :=
  match ownerNode sheet with
  | Some owner =>
      if matches d owner ownerSelector
      then blockInsertions (parseMediaQuery (mediaText sheet))
             (sheetRules sheet)
           ++ flat_map ruleInsertions (sheetRules sheet)
      else []
  | None => []
  end.

(** The texts inserted under [sel], the last one first. *)
Definition insertedUnder (sel : JSString) (ins : list (JSString * JSString))
  : list JSString :=
  rev (snd <$> filter (λ p, p.1 = sel) ins).

(** From [(m, h)] the insertions [ins] lead to [(m', h')]: the map stays
    well formed, its keys are those it had and the selectors of the
    insertions, and every accumulator holds the texts inserted under its
    selector in front of those it held. *)
Definition extendedBy (ins : list (JSString * JSString))
    (m : CrossRootStyles) (h : Heap) (m' : CrossRootStyles) (h' : Heap)
  : Prop :=
  wfStyles m' h' ∧ separated m'
  ∧ (∀ k, k ∈ R_keys m' ↔ k ∈ ins.*1 ∨ k ∈ R_keys m)
  ∧ ∀ k, accumulated m' h' k = insertedUnder k ins ++ accumulated m h k.

(** The sheet is scanned: its owner is a child of the head without the
    [no-half-light] attribute. *)
Definition scanned (d : DomTree) (sheet : DocSheet) : Prop :=
  ∃ owner, ownerNode sheet = Some owner ∧ matches d owner ownerSelector = true.

(** The conditional groups of a rule list at any depth and of any kind whose
    condition parses as cross-root, as the specification words the
    extraction. *)
Fixpoint crossRootGroups (rule : CSSRule) : list CSSRule :=
  match rule with
  | mkCSSRule _ _ _ children _ =>
      (if isCrossRoot (ruleCondition rule) then [rule] else [])
      ++ flat_map crossRootGroups children
  end.

(** The accumulator of [sel] holds a rule of text [text], decided. *)
Definition holdsB (m : CrossRootStyles) (h : Heap) (sel text : JSString)
  : bool :=
  match getOwn m sel with
  | Some acc =>
      match h !! acc with
      | Some texts => bool_decide (text ∈ texts)
      | None => false
      end
  | None => false
  end.

(** The extraction as the specification words it, for the outcome [r] of a
    scan: the scan completes, and every rule of every cross-root group of
    the sheet, at any depth and of any kind, is held under the selector of
    its group. *)
Definition specExtracted (r : Result CrossRootStyles * Heap)
    (sheet : DocSheet) : bool :=
  match r with
  | (Ok m, h) =>
      forallb (λ group,
                 forallb (λ child,
                            holdsB m h (selector (ruleCondition group))
                                   (cssText child))
                         (cssRules group))
              (flat_map crossRootGroups (sheetRules sheet))
  | (Throw _, _) => false
  end.

(** ** Example data *)

(** What [parseMediaQuery] gives as selector for the condition
    [--crossroot and (min-width: 10px)]: a text that is not a selector. *)
Definition mediaFeatureKey : JSString :=
  Eval vm_compute in str " and (min-width: 10px".
#[global] Arguments mediaFeatureKey : simpl never.

(** A page: [html] (0) with [head] (1) and [body] (4); in the head a
    [style] element (2) and the script (3), which carries the attribute
    [disable-live-half-light]; in the body a host of class [widget] (5) and
    a host with the attribute [darkened] (7). *)
Definition exampleDom : DomTree := {|
  parentElement := λ e,
    match e with
    | 1 | 4 => Some 0
    | 2 | 3 => Some 1
    | 5 | 7 => Some 4
    | _ => None
    end;
  hasAttribute := λ e a,
    bool_decide (e = 3 ∧ a = disableAttr)
    || bool_decide (e = 7 ∧ a = darkenedAttr);
  darkenedProperty := λ _, false;
  documentElement := Some 0;
  matches := λ e s,
    bool_decide (e = 2 ∧ s = ownerSelector)
    || bool_decide (e = 5 ∧ s = str ".widget");
  validSelector := λ s, negb (bool_decide (s = mediaFeatureKey));
  treeHeight := 3
|}.

Definition redRule : CSSRule := {|
  constructorName := str "CSSStyleRule";
  conditionText := None;
  cssText := str "p { color: red; }";
  cssRules := [];
  refusal := noRefusal
|}.

Definition blueRule : CSSRule := {|
  constructorName := str "CSSStyleRule";
  conditionText := None;
  cssText := str "p { color: blue; }";
  cssRules := [];
  refusal := noRefusal
|}.

(** [@media --crossroot(.widget) { p { color: red; } }]. *)
Definition widgetGroup : CSSRule := {|
  constructorName := CSSMediaRule;
  conditionText := Some (str "--crossroot(.widget)");
  cssText := str "@media --crossroot(.widget) { p { color: red; } }";
  cssRules := [redRule];
  refusal := noRefusal
|}.

Definition widgetSheet : DocSheet := {|
  ownerNode := Some 2;
  mediaText := [];
  sheetRules := [widgetGroup];
  crossOrigin := false
|}.

(** The same group inside [@media screen { ... }]. *)
Definition screenGroup : CSSRule := {|
  constructorName := CSSMediaRule;
  conditionText := Some (str "screen");
  cssText :=
    str "@media screen { @media --crossroot(.widget) { p { color: red; } } }";
  cssRules := [widgetGroup];
  refusal := noRefusal
|}.

Definition nestedSheet : DocSheet := {|
  ownerNode := Some 2;
  mediaText := [];
  sheetRules := [screenGroup];
  crossOrigin := false
|}.

(** A container rule whose condition is the marker. *)
Definition containerGroup : CSSRule := {|
  constructorName := str "CSSContainerRule";
  conditionText := Some (str "--crossroot(.widget)");
  cssText := str "@container --crossroot(.widget) { p { color: red; } }";
  cssRules := [redRule];
  refusal := noRefusal
|}.

Definition containerSheet : DocSheet := {|
  ownerNode := Some 2;
  mediaText := [];
  sheetRules := [containerGroup];
  crossOrigin := false
|}.

(** The text of the rule at index 0 of the accumulator of [k]. *)
Definition firstText (m : CrossRootStyles) (h : Heap) (k : JSString)
  : option JSString :=
  match getOwn m k with
  | Some acc =>
      match h !! acc with
      | Some (text :: _) => Some text
      | _ => None
      end
  | None => None
  end.

(** In the store [h] the compiled map [out] binds [k] to a stylesheet that
    was made after the store had [n] sheets and whose rules are the single
    layer block around [text]. *)
Definition compiledTo (out : CrossRootStyles) (h : Heap) (n : nat)
    (k text : JSString) : Prop :=
  ∃ sheet, getOwn out k = Some sheet ∧ n ≤ sheet
           ∧ h !! sheet = Some [layerOpen ++ text ++ layerClose].

(** The Dark-Root Detector as the specification words it: recurse on the
    parent element when there is one; a shadow root without a parent is
    darkened when its host carries the attribute or the property, and else
    as its host; a node without a parent that is not a shadow root is
    darkened exactly when it is not the root element of the document. *)
Inductive DarkRootSpec (d : DomTree) : Node → bool → Prop :=
| dark_parent element parent b :
    nodeParentElement d element = Some parent →
    DarkRootSpec d (El parent) b →
    DarkRootSpec d element b
| dark_host host :
    nodeParentElement d (ShadowRootOf host) = None →
    hasAttribute d host darkenedAttr || darkenedProperty d host = true →
    DarkRootSpec d (ShadowRootOf host) true
| dark_through host b :
    nodeParentElement d (ShadowRootOf host) = None →
    hasAttribute d host darkenedAttr || darkenedProperty d host = false →
    DarkRootSpec d (El host) b →
    DarkRootSpec d (ShadowRootOf host) b
| dark_top e :
    nodeParentElement d (El e) = None →
    DarkRootSpec d (El e) (bool_decide (Some e ≠ documentElement d)).

(** The ancestry of a tree is finite and without a cycle: the relation of
    an element to its parent element is well founded. *)
Definition acyclic (d : DomTree) : Prop :=
  well_founded (λ parent child, parentElement d child = Some parent).

(** ** Relocation of the stylesheet store

    A pass allocates its stylesheets after those the store already holds.
    The same pass on the empty store gives the same map with every
    reference moved down by the size of the store. *)
Definition shiftStyles (n : nat) (m : CrossRootStyles) : CrossRootStyles :=
  prod_map id (plus n) <$> m.

Definition relocate (H : Heap) (r : Result CrossRootStyles * Heap)
  : Result CrossRootStyles * Heap :=
  match r with
  | (Ok m, h) => (Ok (shiftStyles (length H) m), H ++ h)
  | (Throw e, h) => (Throw e, H ++ h)
  end.

(** The first two steps of [initializeStyles]: extraction, then
    compilation. *)
Definition compilePass (d : DomTree) (sheets : list DocSheet)
  : M Heap CrossRootStyles :=
  let* crossRootStyles := refreshCrossRootStyles d sheets in
  convertToCSSStyleSheets crossRootStyles.

(** ** Reasoning about computations *)

(** From a state that satisfies [P] the computation [c] either returns a
    value [a] in a state that satisfies [Q a], or throws in a state that
    satisfies [E] something other than the [TypeError] of a [null] shadow
    root. *)
Definition hoare {S A} (E P : S → Prop) (c : M S A) (Q : A → S → Prop)
  : Prop :=
  ∀ s, P s →
       match c s with
       | (Ok a, s') => Q a s'
       | (Throw e, s') => E s' ∧ e ≠ NullShadowRoot
       end.

(** Any state of the stylesheet store. *)
Definition anyHeap : Heap → Prop := λ _, True.

(** ** The invariant of the tracked hosts *)

Definition hasOpenShadowRoot (w : World) (element : Element) : Prop :=
  is_Some (shadowRootOf w element).

(** The element whose [attachShadow] call scheduled the callback. *)
Definition callbackHost (callback : FrameCallback) : option Element :=
  match callback with
  | AttachedFrame this _ _ => Some this
  | MainFrame _ => None
  end.

(** Every element of the Stylable-Elements Set, every element for which a
    callback of the interceptor waits, and every element of [keep], has an
    open shadow root and is one of the elements [attached], those on which
    [attachShadow] was called with mode open; and no [TypeError] of a [null]
    shadow root was reported. *)
Definition tracked (attached : Element → Prop) (keep : list Element)
    (w : World) : Prop :=
  (∀ el, el ∈ keep → hasOpenShadowRoot w el ∧ attached el)
  ∧ (∀ el, el ∈ stylableElements w → hasOpenShadowRoot w el ∧ attached el)
  ∧ (∀ callback el,
       callback ∈ frameQueue w → callbackHost callback = Some el →
       hasOpenShadowRoot w el ∧ attached el)
  ∧ Forall (λ e, e ≠ NullShadowRoot) (console w).

(** The elements on which the events called [attachShadow] with mode
    open. *)
Definition attachedOpen (events : list Event) (element : Element) : Prop :=
  AttachShadow element open ∈ events.

(** ** Sync passes *)


(** The adopted stylesheets of the shadow root of a host. *)
Definition adoptedOf (w : World) (element : Element) : list SheetRef :=
  match shadowRoots w !! element with
  | Some sr => adoptedStyleSheets sr
  | None => []
  end.


(** What a list of stylesheets renders: the rules of each. *)
Definition rendered (h : Heap) (sheets : list SheetRef)
  : list (option (list JSString)) :=
  (λ sheet, h !! sheet) <$> sheets.


(** The body of the loop of [initializeStyles] (lines 107-110). *)
Definition resetAndApply (styleSheetMap : CrossRootStyles) (element : Element)
  : M World unit :=
  let* initial :=
    gets (λ w, default [] (initialShadowRootStyles w !! element)) in
  do* clearShadowRootStyles element initial in
  applyCrossRootStyles element styleSheetMap.

(** The key at which [applyCrossRootStyles] stops on an element whose
    [shadowRoot] is [null]: the first one that does not parse as a selector
    or that the element matches. *)
Definition stoppingKey (d : DomTree) (element : Element)
    (m : CrossRootStyles) : option JSString :=
  List.find (λ k, negb (validSelector d k) || matches d element k) (R_keys m).



(** ** What the closures of the script captured *)

(** The functions and callbacks the script has installed, with what each
    captured. *)
Definition wiringOf (w : World) :=
  (attachShadow w, frameQueue w, observers w, listeners w, currentScript w).

(** On the page [p], in every state: the wrapper of [attachShadow] holds
    the map that [main] created, the callback of [main] and the observers
    hold the array of stylesheets that [main] read, and the listeners hold
    the value [document.currentScript] had in the callback of [main]. *)
Definition wired (p : Page) (w : World) : Prop :=
  attachShadow w = Wrapped true createCrossRootStyles Native
  ∧ Forall (λ callback,
              callback = MainFrame (pageStyleSheets p)
              ∨ ∃ this, callback = AttachedFrame this true createCrossRootStyles)
           (frameQueue w)
  ∧ Forall (λ o, observerStyleSheets o = pageStyleSheets p) (observers w)
  ∧ Forall (λ l, listenerScript l = None) (listeners w)
  ∧ currentScript w = None.

(** The computation leaves the wiring as it is. *)
Definition keepsWiring {A} (c : M World A) : Prop :=
  ∀ w, wiringOf (snd (c w)) = wiringOf w.

(** ** Example pages *)

(** The example tree with the stylesheet that has the group
    [--crossroot(.widget)]; the store holds one stylesheet, made by the
    component of the host. *)
Definition examplePage : Page := {|
  pageDom := exampleDom;
  pageSheets := [widgetSheet];
  pageStyleSheets := [0];
  pageScript := 3;
  pageHeap := [[str ":host { display: block; }"]];
  pageShadowRoots := ∅
|}.

(** The same page before any stylesheet is attached. *)
Definition barePage : Page := {|
  pageDom := exampleDom;
  pageSheets := [];
  pageStyleSheets := [];
  pageScript := 3;
  pageHeap := [[str ":host { display: block; }"]];
  pageShadowRoots := ∅
|}.

(** The first frame passes; the host of class [widget] attaches an open
    shadow root and adopts the stylesheet of its component; the next frame
    passes. *)
Definition attachWidget : list Event :=
  [AnimationFrame; AttachShadow 5 open; SetAdoptedStyleSheets 5 [0];
   AnimationFrame].

Definition widgetWorld : World := run (boot examplePage) attachWidget.

(** What extraction and compilation give for the example page on the empty
    store: the accumulator (0) and the compiled stylesheet (1) of
    [.widget]. *)
Definition widgetCompiled : CrossRootStyles := [(str ".widget", 1)].
Definition widgetCompiledHeap : Heap :=
  [[cssText redRule]; [layerOpen ++ cssText redRule ++ layerClose]].

(** On the page without a stylesheet the host attaches its shadow root and
    is tracked; then the page appends to the head the stylesheet with the
    group [--crossroot(.widget)]. *)
Definition lateSheetWorld : World :=
  run (boot barePage)
      [AnimationFrame; AttachShadow 5 open; AnimationFrame;
       HeadMutation exampleDom [widgetSheet] [0]].

(** The stylesheet of the example page after the page has rewritten its
    rule to blue. *)
Definition blueWidgetSheet : DocSheet := {|
  ownerNode := Some 2;
  mediaText := [];
  sheetRules :=
    [{| constructorName := CSSMediaRule;
        conditionText := Some (str "--crossroot(.widget)");
        cssText := str "@media --crossroot(.widget) { p { color: blue; } }";
        cssRules := [blueRule];
        refusal := noRefusal |}];
  crossOrigin := false
|}.

(** The host is tracked; the document is ready, with the attribute
    [disable-live-half-light] on the script; then the page rewrites the rule
    of its stylesheet. *)
Definition afterReadyWorld : World := run widgetWorld [DOMContentLoaded].
Definition afterRewriteWorld : World :=
  run afterReadyWorld [HeadMutation exampleDom [blueWidgetSheet] [0]].

(** [@media --crossroot and (min-width: 10px) { p { color: red; } }]: the
    parser takes the text after the marker, up to the closing parenthesis,
    as the selector. *)
Definition featureGroup : CSSRule := {|
  constructorName := CSSMediaRule;
  conditionText := Some (str "--crossroot and (min-width: 10px)");
  cssText :=
    str "@media --crossroot and (min-width: 10px) { p { color: red; } }";
  cssRules := [redRule];
  refusal := noRefusal
|}.

Definition featureSheet : DocSheet := {|
  ownerNode := Some 2;
  mediaText := [];
  sheetRules := [featureGroup; widgetGroup];
  crossOrigin := false
|}.

(** The host is tracked and a change of the head has given it the
    compiled stylesheet; then the page replaces its stylesheet by the one
    with the two groups. *)
Definition syncedWorld : World :=
  run widgetWorld [HeadMutation exampleDom [widgetSheet] [0]].
Definition featureWorld : World :=
  run syncedWorld [HeadMutation exampleDom [featureSheet] [0]].

(** ** Further notions *)

(** [top] is the topmost ancestor of [e] along [parentElement]: the element
    at which the walk of the detector over elements ends. *)
Inductive topAncestor (d : DomTree) : Element → Element → Prop :=
| top_here e : parentElement d e = None → topAncestor d e e
| top_up e parent top :
    parentElement d e = Some parent → topAncestor d parent top →
    topAncestor d e top.

(** The example tree with two more elements inside the shadow tree of the
    host of class [widget]: an element (6) that is a child of the shadow
    root, and so has no parent element, and its child (8), a host. *)
Definition nestedDom : DomTree := {|
  parentElement := λ e,
    match e with
    | 8 => Some 6
    | _ => parentElement exampleDom e
    end;
  hasAttribute := hasAttribute exampleDom;
  darkenedProperty := darkenedProperty exampleDom;
  documentElement := documentElement exampleDom;
  matches := matches exampleDom;
  validSelector := validSelector exampleDom;
  treeHeight := treeHeight exampleDom
|}.

(** The computation throws only exceptions of [X]. *)
Definition throwsOnly {S A} (X : JSError → Prop) (c : M S A) : Prop :=
  ∀ s e s', c s = (Throw e, s') → X e.

(** What makes the scan of a sheet throw: the sheet has no owner node; its
    rules cannot be read; a selector it gives names a property of
    [Object.prototype]; a constructed stylesheet refuses one of its rules or
    of the child rules of its rules. *)
Definition sheetFailure (sheet : DocSheet) (e : JSError) : Prop :=
  (e = NullOwnerNode ∧ ownerNode sheet = None)
  ∨ (e = DOMException SecurityError ∧ crossOrigin sheet = true)
  ∨ (e = NotAFunction
     ∧ (selector (parseMediaQuery (mediaText sheet)) ∈ objectPrototypeNames
        ∨ ∃ rule, rule ∈ sheetRules sheet
                  ∧ selector (ruleCondition rule) ∈ objectPrototypeNames))
  ∨ (∃ rule texts name,
       (rule ∈ sheetRules sheet
        ∨ ∃ group, group ∈ sheetRules sheet ∧ rule ∈ cssRules group)
       ∧ refusalOf rule texts = Some name ∧ e = DOMException name).

(** The exceptions of extraction over [sheets]. *)
Definition extractionError (sheets : list DocSheet) (e : JSError) : Prop :=
  ∃ sheet, sheet ∈ sheets ∧ sheetFailure sheet e.

(** What makes the insertion of the rules [rules] under [sel] throw. *)
Definition blockFailure (sel : JSString) (rules : list CSSRule) (e : JSError)
  : Prop :=
  (e = NotAFunction ∧ sel ∈ objectPrototypeNames)
  ∨ ∃ rule texts name,
      rule ∈ rules ∧ refusalOf rule texts = Some name
      ∧ e = DOMException name.

(** An [@import] rule: a constructed stylesheet refuses it. *)
Definition importRule : CSSRule := {|
  constructorName := CSSImportRule;
  conditionText := None;
  cssText := str "@import url(theme.css);";
  cssRules := [];
  refusal := λ _, Some SyntaxError
|}.

(** A stylesheet whose own condition is the marker and that imports
    another one. *)
Definition importingSheet : DocSheet := {|
  ownerNode := Some 2;
  mediaText := marker;
  sheetRules := [importRule; redRule];
  crossOrigin := false
|}.

(** A stylesheet of another origin. *)
Definition foreignSheet : DocSheet := {|
  ownerNode := Some 2;
  mediaText := [];
  sheetRules := [];
  crossOrigin := true
|}.

(** The key a marked block gives: its selector, when the block is
    cross-root and has a rule. *)
Definition blockSelectors (mark : MediaQueryResult) (rules : list CSSRule)
  : list JSString :=
  if isCrossRoot mark && bool_decide (rules ≠ []) then [selector mark] else [].

Definition ruleSelectors (rule : CSSRule) : list JSString :=
  if bool_decide (constructorName rule = CSSMediaRule)
  then blockSelectors (ruleCondition rule) (cssRules rule)
  else [].

(** The keys a sheet gives: none when it is not scanned, else that of its
    own condition and those of the media rules at its top level. *)
Definition sheetSelectors (d : DomTree) (sheet : DocSheet) : list JSString :=
  match ownerNode sheet with
  | Some owner =>
      if matches d owner ownerSelector
      then blockSelectors (parseMediaQuery (mediaText sheet)) (sheetRules sheet)
           ++ flat_map ruleSelectors (sheetRules sheet)
      else []
  | None => []
  end.


(** The computation leaves the part [proj] of the page as it is, whether it
    returns or throws. *)
Definition unchanged {T A} (proj : World → T) (c : M World A) : Prop :=
  ∀ w, proj (snd (c w)) = proj w.

(** The set of tracked hosts and the table of their baselines. *)
Definition trackingOf (w : World) :=
  (stylableElements w, initialShadowRootStyles w).

(** The hosts of the set are distinct and each has a recorded baseline. *)
Definition recorded (w : World) : Prop :=
  NoDup (stylableElements w)
  ∧ ∀ el, el ∈ stylableElements w →
          is_Some (initialShadowRootStyles w !! el).


(** After the host of class [widget], the darkened host (7) attaches an
    open shadow root and adopts the stylesheet of the component; a frame
    passes. *)
Definition darkHostWorld : World :=
  run widgetWorld
      [AttachShadow 7 open; SetAdoptedStyleSheets 7 [0]; AnimationFrame].

(** What an episode on other hosts leaves alone of the element [el]: that
    it is not in the set, its shadow root, its baseline, and the tree. *)
Definition untouched (el : Element) (w w' : World) : Prop :=
  (el ∉ stylableElements w')
  ∧ shadowRoots w' !! el = shadowRoots w !! el
  ∧ initialShadowRootStyles w' !! el = initialShadowRootStyles w !! el
  ∧ domTree w' = domTree w.

(** A callback that is not the one of the interceptor for [el]: the
    callback of [main], or that of the interceptor for another host. *)
Definition otherCallback (el : Element) (callback : FrameCallback) : Prop :=
  match callback with
  | MainFrame _ => True
  | AttachedFrame this _ _ => this ≠ el
  end.

(** ** How often live sync starts *)




(** * Properties *)

(** ** The Marker Parser *)

Lemma stripPrefix_Some (p s rest : JSString) :
  stripPrefix p s = Some rest ↔ s = p ++ rest.
Proof.
  revert s. induction p as [|a p IH]; intros s; simpl.
  - split; [intros [= ->]; done | intros ->; done].
  - destruct s as [|b s]; [split; [done | intros [=]]|].
    destruct (N.eqb_spec a b) as [->|Hne].
    + rewrite IH. split; [intros ->; done | intros [= ->]; done].
    + split; [done | intros [= -> _]; done].
Qed.

Lemma stripPrefix_app (p a b : JSString) :
  length p ≤ length a →
  stripPrefix p (a ++ b) = None ↔ stripPrefix p a = None.
Proof.
  revert a. induction p as [|x p IH]; intros a Hlen; simpl in *.
  - done.
  - destruct a as [|y a]; simpl in *; [lia|].
    destruct (x =? y)%N; [apply IH; lia | done].
Qed.

Lemma regexMatch_None_cons (c : N) (s : JSString) :
  regexMatch (c :: s) = None →
  stripPrefix marker (c :: s) = None ∧ regexMatch s = None.
Proof.
  intros H. change (regexMatch (c :: s)) with
    (match stripPrefix marker (c :: s) with
     | Some rest => Some (capture rest)
     | None => regexMatch s
     end) in H.
  destruct (stripPrefix marker (c :: s)); [done | auto].
Qed.

Lemma regexMatch_unfold (s : JSString) :
  regexMatch s =
  match stripPrefix marker s with
  | Some rest => Some (capture rest)
  | None => match s with _ :: s' => regexMatch s' | [] => None end
  end.
Proof. destruct s; reflexivity. Qed.

Lemma regexMatch_first (pre rest : JSString) :
  regexMatch (pre ++ removelast marker) = None →
  regexMatch (pre ++ marker ++ rest) = Some (capture rest).
Proof.
  induction pre as [|c pre IH]; intros Hfirst.
  - rewrite regexMatch_unfold.
    assert (stripPrefix marker ([] ++ marker ++ rest) = Some rest) as ->
      by (apply stripPrefix_Some; done).
    done.
  - apply regexMatch_None_cons in Hfirst as [Hhere Hlater].
    rewrite regexMatch_unfold.
    assert (stripPrefix marker ((c :: pre) ++ marker ++ rest) = None) as ->.
    { change (marker ++ rest) with (removelast marker ++ ([116%N] ++ rest)).
      rewrite app_assoc. apply stripPrefix_app; [|done].
      rewrite length_app. simpl. lia. }
    simpl. auto.
Qed.

Lemma regexMatch_is_Some (condition : JSString) :
  is_Some (regexMatch condition) ↔
  ∃ pre post, condition = pre ++ marker ++ post.
Proof.
  induction condition as [|c s IH]; rewrite regexMatch_unfold.
  - simpl. split; [intros [? [=]]|].
    intros (pre & post & H). destruct pre; discriminate H.
  - destruct (stripPrefix marker (c :: s)) as [rest|] eqn:Hp.
    + split; [|eauto]. intros _. apply stripPrefix_Some in Hp.
      exists [], rest. done.
    + rewrite IH. split.
      * intros (pre & post & ->). exists (c :: pre), post. done.
      * intros (pre & post & H). destruct pre as [|c' pre].
        -- assert (stripPrefix marker (c :: s) = Some post)
             by (apply stripPrefix_Some; exact H).
           congruence.
        -- injection H as -> ->. eauto.
Qed.

Lemma notRParen_app (arg post : JSString) :
  rparen ∉ arg → notRParen (arg ++ rparen :: post) = arg.
Proof.
  induction arg as [|c arg IH]; intros Hnot; simpl.
  - done.
  - destruct (N.eqb_spec c rparen) as [->|Hne].
    + exfalso. apply Hnot. left.
    + f_equal. apply IH. intros Hin. apply Hnot. by right.
Qed.

Lemma notRParen_all (arg : JSString) :
  rparen ∉ arg → notRParen arg = arg.
Proof.
  induction arg as [|c arg IH]; intros Hnot; simpl.
  - done.
  - destruct (N.eqb_spec c rparen) as [->|Hne].
    + exfalso. apply Hnot. left.
    + f_equal. apply IH. intros Hin. apply Hnot. by right.
Qed.

Lemma capture_argumentOf (rest arg : JSString) :
  argumentOf rest arg → capture rest = arg.
Proof.
  intros (body & Hrest & Hnot & Hbody).
  assert (notRParen body = arg) as Hb.
  { destruct Hbody as [->|(post & ->)];
      [by apply notRParen_all | by apply notRParen_app]. }
  destruct Hrest as [->|[-> Hhead]].
  - simpl. done.
  - destruct body as [|c body]; [done|].
    unfold capture. destruct (N.eqb_spec c lparen) as [->|Hne]; [|done].
    exfalso. apply Hhead. done.
Qed.

Lemma parseMediaQuery_isCrossRoot (condition : JSString) :
  isCrossRoot (parseMediaQuery condition) = true ↔
  ∃ pre post, condition = pre ++ marker ++ post.
Proof.
  rewrite <- regexMatch_is_Some. unfold parseMediaQuery. cbn [isCrossRoot].
  rewrite orb_true_iff, !bool_decide_eq_true. split; [|auto].
  intros [->|H]; [|done]. by eexists.
Qed.

(** C3, as the specification states it, fails: a condition in which the
    marker is followed by text that is not in parentheses is neither the
    marker itself nor the marker with an argument list, yet it is reported
    cross-root, and the text is its selector. *)
Lemma parseMediaQuery_marker_without_parentheses :
  specIsCrossRoot (str "--crossroot.card") = false
  ∧ parseMediaQuery (str "--crossroot.card")
    = {| isCrossRoot := true; selector := str ".card" |}.
Proof. split; reflexivity. Qed.

(** C3, amended: a condition is reported cross-root exactly when the marker
    [--crossroot] occurs in it; the selector is then the argument that
    follows the first occurrence (the text up to the next closing
    parenthesis or the end, after one optional opening parenthesis), as
    written, when it is not blank after trimming, and the universal selector
    otherwise.  The four conditions of the specification give the results it
    lists. *)
Theorem parseMediaQuery_marker (condition : JSString) :
  (isCrossRoot (parseMediaQuery condition) = true ↔
   ∃ pre post, condition = pre ++ marker ++ post)
  ∧ (∀ pre rest arg,
       firstMarker condition pre rest → argumentOf rest arg →
       selector (parseMediaQuery condition)
       = if truthy (trim arg) then arg else star)
  ∧ (isCrossRoot (parseMediaQuery condition) = false →
     selector (parseMediaQuery condition) = star)
  ∧ parseMediaQuery (str "--crossroot")
    = {| isCrossRoot := true; selector := str "*" |}
  ∧ parseMediaQuery (str "--crossroot(.card)")
    = {| isCrossRoot := true; selector := str ".card" |}
  ∧ parseMediaQuery (str "--crossroot(  )")
    = {| isCrossRoot := true; selector := str "*" |}
  ∧ isCrossRoot (parseMediaQuery (str "screen and (min-width: 10px)")) = false.
Proof.
  split; [apply parseMediaQuery_isCrossRoot|].
  split; [|split; [|repeat split; reflexivity]].
  - intros pre rest arg [-> Hfirst] Harg.
    unfold parseMediaQuery. cbn [selector].
    rewrite (regexMatch_first _ _ Hfirst).
    rewrite (capture_argumentOf _ _ Harg). done.
  - unfold parseMediaQuery. cbn [selector isCrossRoot].
    destruct (regexMatch condition); [|done].
    rewrite orb_false_iff, !bool_decide_eq_false.
    intros [_ H]. exfalso. apply H. by eexists.
Qed.

(** The selector clause of [parseMediaQuery_marker] at a condition with text
    around the marker and blanks around the argument. *)
Lemma parseMediaQuery_marker_witness :
  selector (parseMediaQuery (str "screen, --crossroot( .b ) and (x)"))
  = str " .b ".
Proof.
  apply (proj1 (proj2 (parseMediaQuery_marker
                         (str "screen, --crossroot( .b ) and (x)")))
           (str "screen, ") (str "( .b ) and (x)") (str " .b ")).
  - split; reflexivity.
  - exists (str " .b ) and (x)"). split; [left; reflexivity|].
    split; [|right; exists (str " and (x)"); reflexivity].
    apply (bool_decide_unpack _). vm_compute. exact I.
Defined.

(** ** Objects used as dictionaries *)

Lemma getOwn_is_Some (o : CrossRootStyles) (k : JSString) :
  is_Some (getOwn o k) ↔ k ∈ R_keys o.
Proof.
  induction o as [|[k' v] o IH]; simpl.
  - split; [intros [? [=]] | intros H; inversion H].
  - rewrite elem_of_cons. destruct (decide (k = k')) as [->|Hne].
    + split; [auto | eauto].
    + rewrite IH. split; [auto | intros [?|?]; done].
Qed.

Lemma getOwn_None (o : CrossRootStyles) (k : JSString) :
  getOwn o k = None ↔ k ∉ R_keys o.
Proof.
  rewrite <- getOwn_is_Some, eq_None_not_Some. done.
Qed.

Lemma getOwn_replaceOwn (o : CrossRootStyles) (k k' : JSString) (v : SheetRef) :
  getOwn (replaceOwn o k v) k' =
  if decide (k' = k) then const v <$> getOwn o k else getOwn o k'.
Proof.
  induction o as [|[k0 v0] o IH]; simpl.
  - by destruct (decide (k' = k)).
  - repeat (case_decide; simplify_eq; simpl; try done).
Qed.

Lemma R_keys_replaceOwn (o : CrossRootStyles) (k : JSString) (v : SheetRef) :
  R_keys (replaceOwn o k v) = R_keys o.
Proof.
  induction o as [|[k0 v0] o IH]; simpl; [done|].
  destruct (decide (k = k0)) as [->|Hne]; simpl; [done|].
  f_equal. apply IH.
Qed.

Lemma getOwn_createOwn (o : CrossRootStyles) (k k' : JSString) (v : SheetRef) :
  getOwn o k = None →
  getOwn (createOwn o k v) k' =
  if decide (k' = k) then Some v else getOwn o k'.
Proof.
  induction o as [|[k0 v0] o IH]; simpl; intros Hnone.
  - done.
  - destruct (decide (k = k0)) as [->|Hne]; [done|].
    destruct (enumeratedBefore k k0); simpl.
    + destruct (decide (k' = k)) as [->|Hne']; [done|]. done.
    + rewrite IH by done.
      destruct (decide (k' = k0)) as [->|Hne']; [|done].
      by rewrite decide_False.
Qed.

Lemma R_keys_createOwn (o : CrossRootStyles) (k : JSString) (v : SheetRef) :
  R_keys (createOwn o k v) ≡ₚ k :: R_keys o.
Proof.
  induction o as [|[k0 v0] o IH]; simpl; [done|].
  destruct (enumeratedBefore k k0); simpl; [done|].
  unfold R_keys in IH. rewrite IH. apply Permutation_swap.
Qed.

Lemma getOwn_setProp (o : CrossRootStyles) (k k' : JSString) (v : SheetRef) :
  getOwn (setProp o k v) k' =
  if decide (k' = k) then Some v else getOwn o k'.
Proof.
  unfold setProp. destruct (getOwn o k) as [v0|] eqn:Hk.
  - rewrite getOwn_replaceOwn, Hk. done.
  - by apply getOwn_createOwn.
Qed.

Lemma elem_of_R_keys_setProp (o : CrossRootStyles) (k k' : JSString)
    (v : SheetRef) :
  k' ∈ R_keys (setProp o k v) ↔ k' = k ∨ k' ∈ R_keys o.
Proof.
  rewrite <- !getOwn_is_Some, getOwn_setProp.
  destruct (decide (k' = k)) as [->|Hne]; [split; eauto|].
  split; [auto | intros [?|?]; done].
Qed.

Lemma NoDup_R_keys_setProp (o : CrossRootStyles) (k : JSString)
    (v : SheetRef) :
  NoDup (R_keys o) → NoDup (R_keys (setProp o k v)).
Proof.
  intros Hnd. unfold setProp. destruct (getOwn o k) as [v0|] eqn:Hk.
  - by rewrite R_keys_replaceOwn.
  - rewrite R_keys_createOwn. apply NoDup_cons. split; [|done].
    by apply getOwn_None.
Qed.

(** ** The Rule Extractor *)

Lemma reduceM_cons {S A B} (f : A → B → M S A) (acc : A) (x : B) (l : list B) :
  reduceM f acc (x :: l) = bind (f acc x) (λ acc', reduceM f acc' l).
Proof. reflexivity. Qed.

Lemma forEachM_cons {S B} (f : B → M S unit) (x : B) (l : list B) :
  forEachM f (x :: l) = bind (f x) (λ _, forEachM f l).
Proof. reflexivity. Qed.

Lemma bind_Ok {S A B} (c : M S A) (k : A → M S B) (s s' : S) (a : A) :
  c s = (Ok a, s') → bind c k s = k a s'.
Proof. unfold bind. by intros ->. Qed.

Lemma bind_Throw {S A B} (c : M S A) (k : A → M S B) (s s' : S) (e : JSError) :
  c s = (Throw e, s') → bind c k s = (Throw e, s').
Proof. unfold bind. by intros ->. Qed.

Lemma insertRule_noRefusal (sheet : nat) (text : JSString) (h : Heap) :
  insertRule sheet text noRefusal h = (Ok tt, alter (cons text) sheet h).
Proof. reflexivity. Qed.

Lemma insertRule_inv (sheet : nat) (text : JSString)
    (answer : list JSString → option DOMExceptionName) (h : Heap)
    (r : Result unit) (h' : Heap) :
  insertRule sheet text answer h = (r, h') →
  (answer (default [] (h !! sheet)) = None
   ∧ r = Ok tt ∧ h' = alter (cons text) sheet h)
  ∨ ∃ name, answer (default [] (h !! sheet)) = Some name
            ∧ r = Throw (DOMException name) ∧ h' = h.
Proof.
  unfold insertRule. destruct (answer _) as [name|]; intros [= <- <-];
    [right; eauto | left; done].
Qed.

Lemma elem_of_getOwn (m : CrossRootStyles) (k : JSString) (v : nat) :
  NoDup (R_keys m) → (k, v) ∈ m → getOwn m k = Some v.
Proof.
  induction m as [|[k0 v0] m IH]; simpl; intros Hnd Hin.
  - inversion Hin.
  - apply NoDup_cons in Hnd as [Hk0 Hnd].
    apply elem_of_cons in Hin as [[= -> ->]|Hin].
    + by rewrite decide_True.
    + rewrite decide_False; [by apply IH|].
      intros ->. apply Hk0. apply list_elem_of_fmap. by exists (k0, v).
Qed.

Lemma getOwn_elem_of (m : CrossRootStyles) (k : JSString) (v : nat) :
  getOwn m k = Some v → (k, v) ∈ m.
Proof.
  induction m as [|[k0 v0] m IH]; simpl; [done|].
  destruct (decide (k = k0)) as [->|Hne].
  - intros [= ->]. left.
  - intros Hget. right. by apply IH.
Qed.

Lemma separated_inj (m : CrossRootStyles) (k k' : JSString) (v : nat) :
  separated m → getOwn m k = Some v → getOwn m k' = Some v → k = k'.
Proof.
  unfold separated. induction m as [|[k0 v0] m IH]; simpl; [done|].
  intros [Hv0 Hnd]%NoDup_cons.
  assert (∀ x, getOwn m x = Some v0 → False) as Hfresh.
  { intros x Hx. apply Hv0. apply list_elem_of_fmap. exists (x, v0).
    split; [done|]. by apply getOwn_elem_of. }
  destruct (decide (k = k0)) as [->|Hk], (decide (k' = k0)) as [->|Hk'].
  - done.
  - intros [= <-] Hget. by destruct (Hfresh k').
  - intros Hget [= <-]. by destruct (Hfresh k).
  - by apply IH.
Qed.

Lemma values_replaceOwn (o : CrossRootStyles) (k : JSString) (v : nat) :
  getOwn o k = Some v → (replaceOwn o k v).*2 = o.*2.
Proof.
  induction o as [|[k0 v0] o IH]; simpl; [done|].
  destruct (decide (k = k0)) as [->|Hne]; simpl.
  - by intros [= ->].
  - intros Hget. f_equal. by apply IH.
Qed.

Lemma values_createOwn (o : CrossRootStyles) (k : JSString) (v : nat) :
  (createOwn o k v).*2 ≡ₚ v :: o.*2.
Proof.
  induction o as [|[k0 v0] o IH]; simpl; [done|].
  destruct (enumeratedBefore k k0); simpl; [done|].
  rewrite IH. apply Permutation_swap.
Qed.

Lemma wfStyles_bound (m : CrossRootStyles) (h : Heap) (v : nat) :
  wfStyles m h → v ∈ m.*2 → v < length h.
Proof.
  intros [Hnd Hacc] ([k v'] & -> & Hin)%list_elem_of_fmap. simpl.
  destruct (Hacc k v' (elem_of_getOwn _ _ _ Hnd Hin)) as (text & rest & Hh).
  by apply lookup_lt_Some in Hh.
Qed.

Lemma accumulated_None (m : CrossRootStyles) (h : Heap) (k : JSString) :
  getOwn m k = None → accumulated m h k = [].
Proof. unfold accumulated. by intros ->. Qed.

(** One [addStyleRule] that returns: the rule is at the front of the
    accumulator of the selector, and the other accumulators are as they
    were. *)
Lemma addStyleRule_inv (m : CrossRootStyles) (sel : JSString) (rule : CSSRule)
    (h : Heap) (m' : CrossRootStyles) (h' : Heap) :
  wfStyles m h →
  addStyleRule m sel rule h = (Ok m', h') →
  wfStyles m' h'
  ∧ (∀ k, k ∈ R_keys m' ↔ k = sel ∨ k ∈ R_keys m)
  ∧ accumulated m' h' sel = cssText rule :: accumulated m h sel
  ∧ (separated m →
     separated m' ∧ ∀ k, k ≠ sel → accumulated m' h' k = accumulated m h k).
Proof.
  intros Hwf. pose proof Hwf as [Hnd Hacc].
  unfold addStyleRule, R_clone, getProp.
  destruct (getOwn m sel) as [acc|] eqn:Hget.
  - unfold bind.
    destruct (insertRule acc (cssText rule) (refusalOf rule) h) as [r h1]
      eqn:Hins.
    apply insertRule_inv in Hins as [(_ & -> & ->)|(name & _ & -> & _)];
      [|done].
    intros [= <- <-].
    destruct (Hacc _ _ Hget) as (text & rest & Hh).
    split; [split; [done|]|split; [|split]].
    + intros s a Hs. destruct (Hacc _ _ Hs) as (t & r & Ha).
      destruct (decide (acc = a)) as [->|Hne].
      * rewrite list_lookup_alter_eq, Ha. by eexists _, _.
      * rewrite list_lookup_alter_ne by done. eauto.
    + intros k. split; [auto|]. intros [->|?]; [|done].
      apply getOwn_is_Some. eauto.
    + unfold accumulated. by rewrite Hget, list_lookup_alter_eq, Hh.
    + intros Hsep. split; [done|]. intros k Hk. unfold accumulated.
      destruct (getOwn m k) as [a|] eqn:Hgk; [|done].
      rewrite list_lookup_alter_ne; [done|].
      intros <-. apply Hk. by eapply separated_inj.
  - case_bool_decide as Hproto; [done|].
    unfold bind, newCSSStyleSheet.
    destruct (insertRule (length h) (cssText rule) (refusalOf rule)
                (h ++ [[]]))
      as [r h1] eqn:Hins.
    apply insertRule_inv in Hins as [(_ & -> & ->)|(name & _ & -> & _)];
      [|done].
    intros [= <- <-].
    rewrite alter_app_r_alt, Nat.sub_diag by done. cbn [alter list_alter].
    split; [split|split; [|split]].
    + by apply NoDup_R_keys_setProp.
    + intros s a. rewrite getOwn_setProp.
      destruct (decide (s = sel)) as [->|Hne].
      * intros [= <-]. exists (cssText rule), [].
        by rewrite lookup_app_r, Nat.sub_diag.
      * intros Hs. destruct (Hacc _ _ Hs) as (t & r & Ha).
        exists t, r. by apply lookup_app_l_Some.
    + intros k. apply elem_of_R_keys_setProp.
    + unfold accumulated. rewrite getOwn_setProp, decide_True, Hget by done.
      by rewrite lookup_app_r, Nat.sub_diag.
    + intros Hsep. split.
      * unfold separated, setProp. rewrite Hget, values_createOwn.
        apply NoDup_cons. split; [|done].
        intros Hin%(wfStyles_bound _ _ _ Hwf). lia.
      * intros k Hk. unfold accumulated.
        rewrite getOwn_setProp, decide_False by done.
        destruct (getOwn m k) as [a|] eqn:Hgk; [|done].
        destruct (Hacc _ _ Hgk) as (t & r & Ha).
        by rewrite (lookup_app_l_Some _ _ _ _ Ha), Ha.
Qed.

(** One [addStyleRule] returns when the selector does not name a property
    of [Object.prototype] and the stylesheet takes the rule. *)
Lemma addStyleRule_Ok (m : CrossRootStyles) (sel : JSString) (rule : CSSRule)
    (h : Heap) :
  sel ∉ objectPrototypeNames → acceptedRule rule →
  ∃ m' h', addStyleRule m sel rule h = (Ok m', h').
Proof.
  intros Hsel Hrule. unfold addStyleRule, R_clone, getProp, bind, insertRule.
  destruct (getOwn m sel) as [acc|].
  - rewrite Hrule. eauto.
  - rewrite bool_decide_eq_false_2 by done. unfold newCSSStyleSheet.
    rewrite Hrule. eauto.
Qed.

Lemma insertedUnder_nil (k : JSString) : insertedUnder k [] = [].
Proof. done. Qed.

Lemma insertedUnder_app (k : JSString) (a b : list (JSString * JSString)) :
  insertedUnder k (a ++ b) = insertedUnder k b ++ insertedUnder k a.
Proof.
  unfold insertedUnder. by rewrite filter_app, fmap_app, rev_app_distr.
Qed.

Lemma insertedUnder_singleton (k sel text : JSString) :
  insertedUnder k [(sel, text)] = if decide (k = sel) then [text] else [].
Proof.
  unfold insertedUnder. rewrite filter_cons. simpl.
  destruct (decide (sel = k)) as [->|Hne].
  - by rewrite decide_True.
  - rewrite decide_False; [done | congruence].
Qed.

Lemma extendedBy_nil (m : CrossRootStyles) (h : Heap) :
  wfStyles m h → separated m → extendedBy [] m h m h.
Proof.
  intros Hwf Hsep. split; [done|]. split; [done|]. split; [|done].
  intros k. simpl. rewrite elem_of_nil. tauto.
Qed.

Lemma extendedBy_trans (i1 i2 : list (JSString * JSString))
    (m m1 m2 : CrossRootStyles) (h h1 h2 : Heap) :
  extendedBy i1 m h m1 h1 → extendedBy i2 m1 h1 m2 h2 →
  extendedBy (i1 ++ i2) m h m2 h2.
Proof.
  intros (_ & _ & Hk1 & Ha1) (Hwf & Hsep & Hk2 & Ha2).
  split; [done|]. split; [done|]. split.
  - intros k. rewrite Hk2, Hk1, fmap_app, elem_of_app. tauto.
  - intros k. by rewrite Ha2, Ha1, insertedUnder_app, app_assoc.
Qed.

Lemma addStyleRule_extendedBy (m : CrossRootStyles) (sel : JSString)
    (rule : CSSRule) (h : Heap) (m' : CrossRootStyles) (h' : Heap) :
  wfStyles m h → separated m →
  addStyleRule m sel rule h = (Ok m', h') →
  extendedBy [(sel, cssText rule)] m h m' h'.
Proof.
  intros Hwf Hsep Hrun.
  destruct (addStyleRule_inv _ _ _ _ _ _ Hwf Hrun)
    as (Hwf' & Hkeys & Hsel & Hrest).
  destruct (Hrest Hsep) as [Hsep' Hother].
  split; [done|]. split; [done|]. split.
  - intros k. rewrite Hkeys. simpl. rewrite list_elem_of_singleton. tauto.
  - intros k. rewrite insertedUnder_singleton.
    destruct (decide (k = sel)) as [->|Hne]; [done | by apply Hother].
Qed.

(** A fold of extraction steps that returns. *)
Lemma reduceM_extendedBy {B}
    (f : CrossRootStyles → B → M Heap CrossRootStyles)
    (contrib : B → list (JSString * JSString)) (l : list B) :
  (∀ a x s a' s',
     wfStyles a s → separated a → f a x s = (Ok a', s') →
     extendedBy (contrib x) a s a' s') →
  ∀ acc s r s',
    wfStyles acc s → separated acc → reduceM f acc l s = (Ok r, s') →
    extendedBy (flat_map contrib l) acc s r s'.
Proof.
  intros Hf. induction l as [|x l IH]; intros acc s r s' Hwf Hsep.
  - intros [= <- <-]. by apply extendedBy_nil.
  - rewrite reduceM_cons. unfold bind.
    destruct (f acc x s) as [[a|e] s1] eqn:Hfx; [|done].
    pose proof (Hf _ _ _ _ _ Hwf Hsep Hfx) as Hstep.
    intros Hrun. simpl. eapply extendedBy_trans; [exact Hstep|].
    destruct Hstep as (Hwf1 & Hsep1 & _). by apply IH.
Qed.

(** A fold of extraction steps returns when each of its steps does. *)
Lemma reduceM_Ok {S A B} (f : A → B → M S A) (l : list B) :
  (∀ x a s, x ∈ l → ∃ a' s', f a x s = (Ok a', s')) →
  ∀ acc s, ∃ r s', reduceM f acc l s = (Ok r, s').
Proof.
  induction l as [|x l IH]; intros Hstep acc s.
  - by exists acc, s.
  - destruct (Hstep x acc s) as (a1 & s1 & Hf); [left|].
    destruct (IH (λ y a s Hy, Hstep y a s (list_elem_of_further _ _ _ Hy))
                a1 s1) as (r & s' & Hr).
    exists r, s'. by rewrite reduceM_cons, (bind_Ok _ _ _ _ _ Hf).
Qed.

Lemma processStyleSheet_extendedBy (rules : list CSSRule) (sel : JSString)
    (m : CrossRootStyles) (h : Heap) (m' : CrossRootStyles) (h' : Heap) :
  wfStyles m h → separated m →
  processStyleSheet rules sel m h = (Ok m', h') →
  extendedBy ((λ rule, (sel, cssText rule)) <$> rules) m h m' h'.
Proof.
  intros Hwf Hsep Hrun.
  assert (flat_map (λ rule, [(sel, cssText rule)]) rules
          = (λ rule, (sel, cssText rule)) <$> rules) as <-.
  { clear. induction rules as [|rule rules IH]; simpl; [done | by f_equal]. }
  apply (reduceM_extendedBy (λ styles rule, addStyleRule styles sel rule)
           (λ rule, [(sel, cssText rule)]) rules); [|done|done|exact Hrun].
  intros a x s a' s'. apply addStyleRule_extendedBy.
Qed.

Lemma processStyleSheet_Ok (rules : list CSSRule) (sel : JSString)
    (m : CrossRootStyles) (h : Heap) :
  sel ∉ objectPrototypeNames → Forall acceptedRule rules →
  ∃ m' h', processStyleSheet rules sel m h = (Ok m', h').
Proof.
  intros Hsel Hrules. apply reduceM_Ok. intros rule a s Hin.
  apply addStyleRule_Ok; [done|]. rewrite Forall_forall in Hrules.
  by apply Hrules.
Qed.

Lemma block_extendedBy (mark : MediaQueryResult) (rules : list CSSRule)
    (m : CrossRootStyles) (h : Heap) (m' : CrossRootStyles) (h' : Heap) :
  wfStyles m h → separated m →
  (if isCrossRoot mark then processStyleSheet rules (selector mark) m
   else ret m) h = (Ok m', h') →
  extendedBy (blockInsertions mark rules) m h m' h'.
Proof.
  intros Hwf Hsep. unfold blockInsertions. destruct (isCrossRoot mark).
  - by apply processStyleSheet_extendedBy.
  - intros [= <- <-]. by apply extendedBy_nil.
Qed.

Lemma scanRule_extendedBy (m : CrossRootStyles) (rule : CSSRule) (h : Heap)
    (m' : CrossRootStyles) (h' : Heap) :
  wfStyles m h → separated m →
  scanRule m rule h = (Ok m', h') →
  extendedBy (ruleInsertions rule) m h m' h'.
Proof.
  intros Hwf Hsep. unfold scanRule, ruleInsertions. fold (ruleCondition rule).
  case_bool_decide as Hctor; cbn [andb].
  - by apply (block_extendedBy (ruleCondition rule)).
  - intros [= <- <-]. by apply extendedBy_nil.
Qed.

Lemma scanRule_Ok (m : CrossRootStyles) (rule : CSSRule) (h : Heap) :
  selector (ruleCondition rule) ∉ objectPrototypeNames →
  Forall acceptedRule (cssRules rule) →
  ∃ m' h', scanRule m rule h = (Ok m', h').
Proof.
  intros Hsel Hrules. unfold scanRule. fold (ruleCondition rule).
  destruct (_ && _); [by apply processStyleSheet_Ok | by exists m, h].
Qed.

(** The scan of a sheet whose owner is matched, when it returns: the
    rules of the sheet were read, the block of the sheet was inserted, then
    the rules were scanned. *)
Lemma scanSheet_Ok_steps (d : DomTree) (m : CrossRootStyles)
    (sheet : DocSheet) (h : Heap) (m' : CrossRootStyles) (h' : Heap)
    (owner : nat) :
  ownerNode sheet = Some owner → matches d owner ownerSelector = true →
  scanSheet d m sheet h = (Ok m', h') →
  crossOrigin sheet = false
  ∧ ∃ m1 h1,
      (if isCrossRoot (parseMediaQuery (mediaText sheet))
       then processStyleSheet (sheetRules sheet)
              (selector (parseMediaQuery (mediaText sheet))) m
       else ret m) h = (Ok m1, h1)
      ∧ reduceM scanRule m1 (sheetRules sheet) h1 = (Ok m', h').
Proof.
  intros Howner Hmatch. unfold scanSheet. rewrite Howner, Hmatch.
  cbn [negb]. unfold readCssRules.
  destruct (crossOrigin sheet).
  { unfold bind at 1. destruct (isCrossRoot _); done. }
  intros Hrun. split; [done|]. revert Hrun. unfold bind at 1.
  destruct (isCrossRoot (parseMediaQuery (mediaText sheet))).
  - unfold bind at 1, ret at 1.
    destruct (processStyleSheet _ _ _ _) as [[m1|e] h1]; [|done].
    intros Hrun. exists m1, h1. split; [done | exact Hrun].
  - intros Hrun. exists m, h. split; [done | exact Hrun].
Qed.

Lemma scanSheet_extendedBy (d : DomTree) (m : CrossRootStyles)
    (sheet : DocSheet) (h : Heap) (m' : CrossRootStyles) (h' : Heap) :
  wfStyles m h → separated m →
  scanSheet d m sheet h = (Ok m', h') →
  extendedBy (sheetInsertions d sheet) m h m' h'.
Proof.
  intros Hwf Hsep. unfold sheetInsertions.
  destruct (ownerNode sheet) as [owner|] eqn:Howner;
    [|unfold scanSheet; by rewrite Howner].
  destruct (matches d owner ownerSelector) eqn:Hmatch.
  2:{ unfold scanSheet. rewrite Howner, Hmatch. intros [= <- <-].
      by apply extendedBy_nil. }
  intros (_ & m1 & h1 & Htop & Hfold)%(scanSheet_Ok_steps _ _ _ _ _ _ owner);
    [|done..].
  pose proof (block_extendedBy _ _ _ _ _ _ Hwf Hsep Htop) as Hstep.
  eapply extendedBy_trans; [exact Hstep|].
  destruct Hstep as (Hwf1 & Hsep1 & _).
  by apply (reduceM_extendedBy scanRule ruleInsertions (sheetRules sheet)
              scanRule_extendedBy).
Qed.

Lemma scanSheet_Ok (d : DomTree) (m : CrossRootStyles) (sheet : DocSheet)
    (h : Heap) :
  scannable sheet → ∃ m' h', scanSheet d m sheet h = (Ok m', h').
Proof.
  intros ([owner Howner] & Horigin & Hsel & Hrules).
  unfold scanSheet, readCssRules. rewrite Howner, Horigin.
  destruct (matches d owner ownerSelector); cbn [negb]; [|by exists m, h].
  assert (∃ m1 h1,
            (if isCrossRoot (parseMediaQuery (mediaText sheet))
             then
               let* rules := ret (sheetRules sheet) in
               processStyleSheet rules
                 (selector (parseMediaQuery (mediaText sheet))) m
             else ret m) h = (Ok m1, h1)) as (m1 & h1 & Htop).
  { destruct (isCrossRoot _); [|by exists m, h].
    apply processStyleSheet_Ok; [done|]. apply Forall_forall.
    intros rule Hrule. by apply Hrules. }
  rewrite (bind_Ok _ _ _ _ _ Htop).
  apply reduceM_Ok. intros rule a s Hrule.
  destruct (Hrules rule Hrule) as (Hs & _ & Hchildren).
  apply scanRule_Ok; [done|]. by apply Forall_forall.
Qed.

Lemma wfStyles_empty (h : Heap) : wfStyles createCrossRootStyles h.
Proof. split; [constructor | intros sel acc [=]]. Qed.

Lemma refreshCrossRootStyles_extendedBy (d : DomTree)
    (styleSheets : list DocSheet) (h : Heap) (m : CrossRootStyles)
    (h' : Heap) :
  refreshCrossRootStyles d styleSheets h = (Ok m, h') →
  extendedBy (flat_map (sheetInsertions d) styleSheets)
             createCrossRootStyles h m h'.
Proof.
  apply (reduceM_extendedBy (scanSheet d) (sheetInsertions d) styleSheets
           (scanSheet_extendedBy d)); [apply wfStyles_empty | constructor].
Qed.

Lemma refreshCrossRootStyles_Ok (d : DomTree) (styleSheets : list DocSheet)
    (h : Heap) :
  Forall scannable styleSheets →
  ∃ styles h', refreshCrossRootStyles d styleSheets h = (Ok styles, h').
Proof.
  intros Hall. apply reduceM_Ok. intros sheet a s Hin.
  apply scanSheet_Ok. rewrite Forall_forall in Hall. by apply Hall.
Qed.

(** C5, as the specification states it, fails: a cross-root media group
    inside another media group, and a container rule whose own condition is
    the marker, are conditional groups of a scanned sheet whose condition
    parses as cross-root and which have a rule; the scan extracts nothing
    from either sheet. *)
Lemma refreshCrossRootStyles_skips_nested_and_other_groups :
  matches exampleDom 2 ownerSelector = true
  ∧ flat_map crossRootGroups (sheetRules nestedSheet) = [widgetGroup]
  ∧ cssRules widgetGroup = [redRule]
  ∧ refreshCrossRootStyles exampleDom [nestedSheet] [] = (Ok [], [])
  ∧ specExtracted (refreshCrossRootStyles exampleDom [nestedSheet] [])
                  nestedSheet = false
  ∧ flat_map crossRootGroups (sheetRules containerSheet) = [containerGroup]
  ∧ cssRules containerGroup = [redRule]
  ∧ refreshCrossRootStyles exampleDom [containerSheet] [] = (Ok [], [])
  ∧ specExtracted (refreshCrossRootStyles exampleDom [containerSheet] [])
                  containerSheet = false.
Proof. repeat split; reflexivity. Qed.

(** The wording of the specification holds of the sheet with the group at
    its top level. *)
Example refreshCrossRootStyles_top_level_group :
  specExtracted (refreshCrossRootStyles exampleDom [widgetSheet] [])
                widgetSheet = true.
Proof. reflexivity. Qed.

Lemma elem_of_flat_map {A B} (f : A → list B) (l : list A) (x : B) :
  x ∈ flat_map f l ↔ ∃ y, y ∈ l ∧ x ∈ f y.
Proof.
  rewrite list_elem_of_In, in_flat_map. split.
  - intros (y & Hy & Hx). exists y. by rewrite !list_elem_of_In.
  - intros (y & Hy & Hx). exists y. by rewrite <- !list_elem_of_In.
Qed.

Lemma insertedUnder_elem_of (sel text : JSString)
    (ins : list (JSString * JSString)) :
  (sel, text) ∈ ins → text ∈ insertedUnder sel ins.
Proof.
  intros Hin. unfold insertedUnder.
  apply list_elem_of_In. apply -> in_rev. apply list_elem_of_In.
  apply list_elem_of_fmap. exists (sel, text). split; [done|].
  by apply list_elem_of_filter.
Qed.

Lemma sheetInsertions_scanned (d : DomTree) (sheet : DocSheet) :
  scanned d sheet →
  sheetInsertions d sheet
  = blockInsertions (parseMediaQuery (mediaText sheet)) (sheetRules sheet)
    ++ flat_map ruleInsertions (sheetRules sheet).
Proof. intros (owner & Ho & Hm). unfold sheetInsertions. by rewrite Ho, Hm. Qed.

(** C5, amended: when the scan completes, the style map holds exactly the
    rules of the marks at the top level of the scanned sheets, and nothing
    else.  Under each selector the accumulator holds, the last one first,
    the rules of the scanned sheets whose own condition is cross-root with
    that selector, and the child rules of the media rules at the top level of
    a scanned sheet whose condition is cross-root with that selector, whether
    or not the condition of the sheet is cross-root; the keys of the map are
    the selectors of these rules.  Groups nested deeper and groups of other
    kinds add nothing: a sheet with no mark at its top level contributes
    nothing, whatever its rules contain.  The scan completes when every
    sheet has an owner and readable rules, no selector names a property of
    [Object.prototype], and a constructed stylesheet takes the rules. *)
Theorem refreshCrossRootStyles_top_level (d : DomTree)
    (styleSheets : list DocSheet) (h : Heap) :
  (Forall scannable styleSheets →
   ∃ styles h', refreshCrossRootStyles d styleSheets h = (Ok styles, h'))
  ∧ (∀ styles h',
       refreshCrossRootStyles d styleSheets h = (Ok styles, h') →
       (∀ sel,
          accumulated styles h' sel
          = insertedUnder sel (flat_map (sheetInsertions d) styleSheets))
       ∧ (∀ sel,
            sel ∈ R_keys styles
            ↔ sel ∈ (flat_map (sheetInsertions d) styleSheets).*1)
       ∧ (∀ sheet rule child,
            sheet ∈ styleSheets → scanned d sheet →
            rule ∈ sheetRules sheet →
            constructorName rule = CSSMediaRule →
            isCrossRoot (ruleCondition rule) = true →
            child ∈ cssRules rule →
            cssText child
            ∈ accumulated styles h' (selector (ruleCondition rule)))
       ∧ (∀ sheet rule,
            sheet ∈ styleSheets → scanned d sheet →
            isCrossRoot (parseMediaQuery (mediaText sheet)) = true →
            rule ∈ sheetRules sheet →
            cssText rule
            ∈ accumulated styles h'
                (selector (parseMediaQuery (mediaText sheet)))))
  ∧ (∀ sheet,
       isCrossRoot (parseMediaQuery (mediaText sheet)) = false →
       (∀ rule, rule ∈ sheetRules sheet → markedRule rule = false) →
       sheetInsertions d sheet = []).
Proof.
  split; [apply refreshCrossRootStyles_Ok|]. split.
  - intros styles h' Hrun.
    destruct (refreshCrossRootStyles_extendedBy _ _ _ _ _ Hrun)
      as (_ & _ & Hkeys & Hacc).
    assert (∀ sel, accumulated styles h' sel
                   = insertedUnder sel
                       (flat_map (sheetInsertions d) styleSheets)) as Hexact.
    { intros sel. rewrite Hacc.
      change (accumulated createCrossRootStyles h sel) with (@nil JSString).
      by rewrite app_nil_r. }
    split; [exact Hexact|]. split.
    { intros sel. rewrite Hkeys. unfold createCrossRootStyles. simpl.
      rewrite elem_of_nil. tauto. }
    split.
    + intros sheet rule child Hsheet Hsc Hrule Hctor Hcr Hchild.
      rewrite Hexact. apply insertedUnder_elem_of.
      apply elem_of_flat_map. exists sheet. split; [done|].
      rewrite (sheetInsertions_scanned _ _ Hsc). apply elem_of_app. right.
      apply elem_of_flat_map. exists rule. split; [done|].
      unfold ruleInsertions, blockInsertions.
      rewrite bool_decide_eq_true_2, Hcr by done.
      apply list_elem_of_fmap. by exists child.
    + intros sheet rule Hsheet Hsc Hcr Hrule.
      rewrite Hexact. apply insertedUnder_elem_of.
      apply elem_of_flat_map. exists sheet. split; [done|].
      rewrite (sheetInsertions_scanned _ _ Hsc). apply elem_of_app. left.
      unfold blockInsertions. rewrite Hcr.
      apply list_elem_of_fmap. by exists rule.
  - intros sheet Htop Hrules. unfold sheetInsertions.
    destruct (ownerNode sheet) as [owner|]; [|done].
    destruct (matches d owner ownerSelector); [|done].
    unfold blockInsertions at 1. rewrite Htop. simpl.
    induction (sheetRules sheet) as [|rule rules IH]; [done|].
    simpl. rewrite IH by (intros r Hr; apply Hrules; by right).
    rewrite app_nil_r. specialize (Hrules rule (list_elem_of_here _ _)).
    unfold markedRule in Hrules. unfold ruleInsertions, blockInsertions.
    case_bool_decide as Hctor; [|done].
    cbn [andb] in Hrules.
    by rewrite Hrules.
Qed.

(** C6: the code does not leave its input unchanged.  The map bound [.card]
    to a stylesheet holding the red rule; after the call that stylesheet,
    which the input map still reaches under [.card], holds the blue rule
    too.  The returned map has the binding of the input: the clone shares
    the stylesheet objects. *)
Theorem addStyleRule_shares_accumulator :
  addStyleRule [(str ".card", 0)] (str ".card") blueRule [[cssText redRule]]
  = (Ok [(str ".card", 0)], [[cssText blueRule; cssText redRule]]).
Proof. reflexivity. Qed.

(** ** The Stylesheet Compiler *)

Lemma firstRuleText_Ok (m : CrossRootStyles) (h0 ext : Heap) (k text : JSString) :
  firstText m h0 k = Some text →
  firstRuleText m k (h0 ++ ext) = (Ok text, h0 ++ ext).
Proof.
  unfold firstText, firstRuleText. destruct (getOwn m k) as [acc|]; [|done].
  destruct (h0 !! acc) as [[|t rest]|] eqn:Hacc; try done.
  intros [= ->]. by rewrite (lookup_app_l_Some _ _ _ _ Hacc).
Qed.

Lemma compiledTo_keep (out : CrossRootStyles) (h ext : Heap) (n : nat)
    (k k' text : JSString) (sheet : nat) (rules : list JSString) :
  k ≠ k' →
  compiledTo out h n k text →
  compiledTo (setProp out k' sheet) (h ++ ext) n k text.
Proof.
  intros Hne (s & Hs & Hn & Hh). exists s.
  rewrite getOwn_setProp, decide_False by done.
  split; [done|]. split; [done|]. by apply lookup_app_l_Some.
Qed.

(** One turn of the loop of [convertToCSSStyleSheets]. *)
Lemma convert_step (m out : CrossRootStyles) (h0 ext : Heap)
    (k text : JSString) :
  firstText m h0 k = Some text →
  (let* sheet := newCSSStyleSheet in
   let* text := firstRuleText m k in
   do* insertRule sheet (layerOpen ++ text ++ layerClose) noRefusal in
   ret (R_assoc k sheet out)) (h0 ++ ext)
  = (Ok (setProp out k (length (h0 ++ ext))),
     h0 ++ ext ++ [[layerOpen ++ text ++ layerClose]]).
Proof.
  intros Htext. unfold bind, newCSSStyleSheet.
  rewrite <- app_assoc, (firstRuleText_Ok _ _ _ _ _ Htext).
  unfold insertRule, modify, ret, R_assoc. f_equal.
  rewrite !app_assoc, alter_app_r_alt, Nat.sub_diag by done. done.
Qed.

(** The loop of [convertToCSSStyleSheets] over a list of keys. *)
Lemma convert_loop (m : CrossRootStyles) (h0 : Heap) (ks : list JSString) :
  (∀ k, k ∈ ks → is_Some (firstText m h0 k)) →
  ∀ (out : CrossRootStyles) (ext : Heap),
    NoDup (R_keys out) →
    ∃ out' ext',
      reduceM (λ styleSheets selector,
                 let* sheet := newCSSStyleSheet in
                 let* text := firstRuleText m selector in
                 do* insertRule sheet (layerOpen ++ text ++ layerClose) noRefusal in
                 ret (R_assoc selector sheet styleSheets))
              out ks (h0 ++ ext)
      = (Ok out', h0 ++ ext ++ ext')
      ∧ NoDup (R_keys out')
      ∧ (∀ k, k ∈ R_keys out' ↔ k ∈ ks ∨ k ∈ R_keys out)
      ∧ (∀ k text, k ∉ ks → compiledTo out (h0 ++ ext) (length h0) k text →
                   compiledTo out' (h0 ++ ext ++ ext') (length h0) k text)
      ∧ (∀ k text, k ∈ ks → firstText m h0 k = Some text →
                   compiledTo out' (h0 ++ ext ++ ext') (length h0) k text).
Proof.
  induction ks as [|k ks IH]; intros Hks out ext Hnd.
  - exists out, []. rewrite !app_nil_r. split; [done|]. split; [done|].
    split; [intros k; rewrite elem_of_nil; tauto|].
    split; [done|]. intros k text Hk. inversion Hk.
  - destruct (Hks k) as [text Htext]; [left|].
    set (sheet := length (h0 ++ ext)).
    set (out1 := setProp out k sheet).
    set (new := [[layerOpen ++ text ++ layerClose]]).
    destruct (IH (λ k' Hk', Hks k' (list_elem_of_further _ _ _ Hk'))
                out1 (ext ++ new))
      as (out' & ext' & Hrun & Hnd' & Hkeys & Hkeep & Hnew).
    { by apply NoDup_R_keys_setProp. }
    assert (compiledTo out1 (h0 ++ ext ++ new) (length h0) k text) as Hk.
    { exists sheet. subst out1 sheet new.
      rewrite getOwn_setProp, decide_True by done.
      split; [done|]. split; [rewrite length_app; lia|].
      rewrite app_assoc, lookup_app_r by done. by rewrite Nat.sub_diag. }
    exists out', (new ++ ext'). rewrite <- !app_assoc in Hrun, Hkeep, Hnew.
    split; [|split; [done|split; [|split]]].
    + rewrite reduceM_cons.
      rewrite (bind_Ok _ _ _ _ _ (convert_step m out h0 ext k text Htext)).
      exact Hrun.
    + intros k'. rewrite Hkeys. subst out1.
      rewrite elem_of_R_keys_setProp, elem_of_cons. tauto.
    + intros k' text' Hk' Hc. apply not_elem_of_cons in Hk' as [Hne Hk'].
      apply Hkeep; [done|]. rewrite app_assoc.
      by apply compiledTo_keep.
    + intros k' text' Hk' Htext'.
      destruct (decide (k' ∈ ks)) as [Hin|Hnin]; [by apply Hnew|].
      apply elem_of_cons in Hk' as [->|?]; [|done].
      apply Hkeep; [done|]. congruence.
Qed.

Lemma addStyleRule_first (m : CrossRootStyles) (sel : JSString)
    (rule : CSSRule) (h : Heap) (m' : CrossRootStyles) (h' : Heap) :
  wfStyles m h →
  addStyleRule m sel rule h = (Ok m', h') →
  firstText m' h' sel = Some (cssText rule).
Proof.
  intros Hwf Hrun.
  destruct (addStyleRule_inv _ _ _ _ _ _ Hwf Hrun) as (_ & _ & Hsel & _).
  revert Hsel. unfold accumulated, firstText.
  destruct (getOwn m' sel) as [acc|]; [|done].
  destruct (h' !! acc) as [[|text rest]|]; simpl; try done. by intros [= ->].
Qed.

(** C9: the compiler gives every key of a well-formed style map exactly one
    compiled stylesheet, a new object whose only rule is the block
    [@layer --crossroot {...}] around the text of the rule at index 0 of the
    accumulator of the key; the rules behind index 0 are left out; and the
    rule at index 0 of an accumulator is the one the last [addStyleRule] for
    its selector inserted. *)
Theorem convertToCSSStyleSheets_first_rule (crossRootStyles : CrossRootStyles)
    (h : Heap) :
  wfStyles crossRootStyles h →
  (∃ styleSheetMap ext,
     convertToCSSStyleSheets crossRootStyles h = (Ok styleSheetMap, h ++ ext)
     ∧ NoDup (R_keys styleSheetMap)
     ∧ (∀ selector,
          selector ∈ R_keys styleSheetMap ↔ selector ∈ R_keys crossRootStyles)
     ∧ ∀ selector acc text rest,
         getOwn crossRootStyles selector = Some acc →
         h !! acc = Some (text :: rest) →
         ∃ sheet,
           getOwn styleSheetMap selector = Some sheet
           ∧ length h ≤ sheet
           ∧ (h ++ ext) !! sheet = Some [layerOpen ++ text ++ layerClose])
  ∧ ∀ selector rule styles h',
      addStyleRule crossRootStyles selector rule h = (Ok styles, h') →
      firstText styles h' selector = Some (cssText rule).
Proof.
  intros Hwf. split; [|intros ????; by apply addStyleRule_first].
  destruct Hwf as [Hnd Hacc].
  destruct (convert_loop crossRootStyles h (R_keys crossRootStyles))
    with (out := createCrossRootStyles) (ext := @nil (list JSString))
    as (out & ext & Hrun & Hnd' & Hkeys & _ & Hnew).
  - intros k Hk. apply getOwn_is_Some in Hk as [acc Hk].
    destruct (Hacc _ _ Hk) as (text & rest & Hh).
    exists text. unfold firstText. by rewrite Hk, Hh.
  - constructor.
  - rewrite !app_nil_r in Hrun. simpl in Hrun, Hnew.
    exists out, ext. split; [exact Hrun|]. split; [done|]. split.
    + intros k. rewrite Hkeys. unfold createCrossRootStyles.
      rewrite elem_of_nil. tauto.
    + intros k acc text rest Hk Hh. apply Hnew.
      * apply getOwn_is_Some. eauto.
      * unfold firstText. by rewrite Hk, Hh.
Qed.

(** [convertToCSSStyleSheets_first_rule] on a map whose accumulator for
    [.widget] holds the blue rule in front of the red one. *)
Lemma convertToCSSStyleSheets_first_rule_witness :
  (∃ styleSheetMap ext,
     convertToCSSStyleSheets [(str ".widget", 0)]
       [[cssText blueRule; cssText redRule]]
     = (Ok styleSheetMap, [[cssText blueRule; cssText redRule]] ++ ext)
     ∧ NoDup (R_keys styleSheetMap)
     ∧ (∀ selector,
          selector ∈ R_keys styleSheetMap
          ↔ selector ∈ R_keys [(str ".widget", 0)])
     ∧ ∀ selector acc text rest,
         getOwn [(str ".widget", 0)] selector = Some acc →
         [[cssText blueRule; cssText redRule]] !! acc = Some (text :: rest) →
         ∃ sheet,
           getOwn styleSheetMap selector = Some sheet
           ∧ length [[cssText blueRule; cssText redRule]] ≤ sheet
           ∧ ([[cssText blueRule; cssText redRule]] ++ ext) !! sheet
             = Some [layerOpen ++ text ++ layerClose])
  ∧ ∀ selector rule styles h',
      addStyleRule [(str ".widget", 0)] selector rule
        [[cssText blueRule; cssText redRule]] = (Ok styles, h') →
      firstText styles h' selector = Some (cssText rule).
Proof.
  apply (convertToCSSStyleSheets_first_rule [(str ".widget", 0)]
           [[cssText blueRule; cssText redRule]]).
  split.
  - apply (bool_decide_unpack _). vm_compute. exact I.
  - intros sel acc. simpl. destruct (decide (sel = str ".widget")); [|done].
    intros [= <-]. eexists _, _. reflexivity.
Defined.

(** [refreshCrossRootStyles_top_level] on the sheet with the group
    [--crossroot(.widget)] at its top level, followed by the sheet with the
    same group inside another group and the sheet with the container
    rule. *)
Lemma refreshCrossRootStyles_top_level_witness :
  refreshCrossRootStyles exampleDom [widgetSheet; nestedSheet; containerSheet]
    []
  = (Ok [(str ".widget", 0)], [[cssText redRule]])
  ∧ (∀ sel,
       accumulated [(str ".widget", 0)] [[cssText redRule]] sel
       = insertedUnder sel
           (flat_map (sheetInsertions exampleDom)
              [widgetSheet; nestedSheet; containerSheet]))
  ∧ flat_map (sheetInsertions exampleDom)
      [widgetSheet; nestedSheet; containerSheet]
    = [(str ".widget", cssText redRule)].
Proof.
  split; [reflexivity|]. split; [|reflexivity].
  apply (refreshCrossRootStyles_top_level exampleDom
           [widgetSheet; nestedSheet; containerSheet] []).
  reflexivity.
Defined.

(** ** The Dark-Root Detector *)

Lemma DarkRootSpec_functional (d : DomTree) (element : Node) (b b' : bool) :
  DarkRootSpec d element b → DarkRootSpec d element b' → b = b'.
Proof.
  intros H. revert b'.
  induction H as [element parent b Hp _ IH|host Hp Hd|host b Hp Hd _ IH|e Hp];
    intros b' H'; inversion H'; subst; try congruence.
  - apply IH. congruence.
  - apply IH. done.
Qed.

Lemma isInDarkRoot_element (d : DomTree) (e : nat) :
  Acc (λ parent child, parentElement d child = Some parent) e →
  ∃ b n,
    (∀ fuel, n ≤ fuel → isInDarkRoot d fuel (El e) = Some b)
    ∧ DarkRootSpec d (El e) b.
Proof.
  induction 1 as [e _ IH].
  destruct (parentElement d e) as [parent|] eqn:Hp.
  - destruct (IH parent eq_refl) as (b & n & Hrun & Hspec).
    exists b, (S n). split; [|by eapply dark_parent].
    intros [|fuel] Hfuel; [lia|]. simpl. rewrite Hp. apply Hrun. lia.
  - exists (bool_decide (Some e ≠ documentElement d)), 1.
    split; [|by apply dark_top].
    intros [|fuel] Hfuel; [lia|]. simpl. rewrite Hp.
    by rewrite andb_true_r.
Qed.

(** C7: on a tree whose ancestry is finite and acyclic the detector
    returns, once the bound on the depth of the recursion is large enough,
    and what it returns is what the three cases of the specification
    determine. *)
Theorem isInDarkRoot_returns (d : DomTree) (element : Node) :
  acyclic d →
  ∃ b n,
    (∀ fuel, n ≤ fuel → isInDarkRoot d fuel element = Some b)
    ∧ DarkRootSpec d element b
    ∧ ∀ b', DarkRootSpec d element b' → b' = b.
Proof.
  intros Hwf.
  assert (∃ b n,
            (∀ fuel, n ≤ fuel → isInDarkRoot d fuel element = Some b)
            ∧ DarkRootSpec d element b) as (b & n & Hrun & Hspec).
  { destruct element as [e|host].
    - apply isInDarkRoot_element, Hwf.
    - destruct (hasAttribute d host darkenedAttr || darkenedProperty d host)
        eqn:Hdark.
      + exists true, 1. split; [|by apply dark_host].
        intros [|fuel] Hfuel; [lia|]. simpl. by rewrite Hdark.
      + destruct (isInDarkRoot_element d host (Hwf host))
          as (b & n & Hrun & Hspec).
        exists b, (S n). split; [|by apply dark_through].
        intros [|fuel] Hfuel; [lia|]. simpl. rewrite Hdark.
        apply Hrun. lia. }
  exists b, n. split; [done|]. split; [done|].
  intros b' Hb'. by eapply DarkRootSpec_functional.
Qed.

Lemma exampleDom_acyclic : acyclic exampleDom.
Proof.
  apply (well_founded_lt_compat _ (λ e, e)).
  intros parent child. simpl.
  repeat (destruct child as [|child]; try done); intros [= <-]; lia.
Qed.

(** [isInDarkRoot_returns] on the shadow root of the host of class
    [widget]. *)
Lemma isInDarkRoot_returns_witness :
  ∃ b n,
    (∀ fuel, n ≤ fuel → isInDarkRoot exampleDom fuel (ShadowRootOf 5) = Some b)
    ∧ DarkRootSpec exampleDom (ShadowRootOf 5) b
    ∧ ∀ b', DarkRootSpec exampleDom (ShadowRootOf 5) b' → b' = b.
Proof.
  apply (isInDarkRoot_returns exampleDom (ShadowRootOf 5)).
  apply exampleDom_acyclic.
Defined.

(** ** Relocation of the stylesheet store *)

Lemma R_keys_shiftStyles (n : nat) (m : CrossRootStyles) :
  R_keys (shiftStyles n m) = R_keys m.
Proof.
  unfold R_keys, shiftStyles. rewrite <- list_fmap_compose.
  apply list_fmap_ext. by intros i [k v] _.
Qed.

Lemma getOwn_shiftStyles (n : nat) (m : CrossRootStyles) (k : JSString) :
  getOwn (shiftStyles n m) k = plus n <$> getOwn m k.
Proof.
  induction m as [|[k' v] m IH]; simpl; [done|].
  by destruct (decide (k = k')).
Qed.

Lemma replaceOwn_shiftStyles (n : nat) (m : CrossRootStyles) (k : JSString)
    (v : nat) :
  replaceOwn (shiftStyles n m) k (n + v) = shiftStyles n (replaceOwn m k v).
Proof.
  induction m as [|[k' v'] m IH]; simpl; [done|].
  destruct (decide (k = k')); simpl; [done|]. f_equal. apply IH.
Qed.

Lemma createOwn_shiftStyles (n : nat) (m : CrossRootStyles) (k : JSString)
    (v : nat) :
  createOwn (shiftStyles n m) k (n + v) = shiftStyles n (createOwn m k v).
Proof.
  induction m as [|[k' v'] m IH]; simpl; [done|].
  destruct (enumeratedBefore k k'); simpl; [done|]. f_equal. apply IH.
Qed.

Lemma setProp_shiftStyles (n : nat) (m : CrossRootStyles) (k : JSString)
    (v : nat) :
  setProp (shiftStyles n m) k (n + v) = shiftStyles n (setProp m k v).
Proof.
  unfold setProp. rewrite getOwn_shiftStyles.
  destruct (getOwn m k); simpl;
    [apply replaceOwn_shiftStyles | apply createOwn_shiftStyles].
Qed.

Lemma insertRule_relocate (H : Heap) (sheet : nat) (text : JSString)
    (answer : list JSString → option DOMExceptionName) (h : Heap) :
  insertRule (length H + sheet) text answer (H ++ h)
  = (fst (insertRule sheet text answer h),
     H ++ snd (insertRule sheet text answer h)).
Proof.
  unfold insertRule.
  rewrite lookup_app_r, Nat.add_comm, Nat.add_sub by lia.
  destruct (answer _); simpl; [done|].
  by rewrite Nat.add_comm, alter_app_r.
Qed.

Lemma addStyleRule_relocate (H : Heap) (m : CrossRootStyles) (sel : JSString)
    (rule : CSSRule) (h : Heap) :
  addStyleRule (shiftStyles (length H) m) sel rule (H ++ h)
  = relocate H (addStyleRule m sel rule h).
Proof.
  unfold addStyleRule, R_clone, getProp. rewrite getOwn_shiftStyles.
  destruct (getOwn m sel) as [acc|]; simpl.
  - unfold bind. rewrite insertRule_relocate.
    by destruct (insertRule acc _ _ h) as [[[]|e] h1].
  - case_bool_decide; [done|].
    unfold bind, newCSSStyleSheet.
    rewrite length_app, <- app_assoc, insertRule_relocate.
    destruct (insertRule (length h) _ _ (h ++ [[]])) as [[[]|e] h1]; simpl;
      [|done].
    by rewrite setProp_shiftStyles.
Qed.

Lemma reduceM_relocate {B}
    (f g : CrossRootStyles → B → M Heap CrossRootStyles)
    (H : Heap) (l : list B) :
  (∀ m x h, f (shiftStyles (length H) m) x (H ++ h) = relocate H (g m x h)) →
  ∀ m h,
    reduceM f (shiftStyles (length H) m) l (H ++ h)
    = relocate H (reduceM g m l h).
Proof.
  intros Hf. induction l as [|x l IH]; intros m h; [done|].
  rewrite !reduceM_cons. unfold bind. rewrite Hf.
  destruct (g m x h) as [[m'|e] h']; simpl; [apply IH | done].
Qed.

Lemma processStyleSheet_relocate (H : Heap) (rules : list CSSRule)
    (sel : JSString) (m : CrossRootStyles) (h : Heap) :
  processStyleSheet rules sel (shiftStyles (length H) m) (H ++ h)
  = relocate H (processStyleSheet rules sel m h).
Proof.
  unfold processStyleSheet. apply reduceM_relocate.
  intros m' rule h'. apply addStyleRule_relocate.
Qed.

Lemma scanRule_relocate (H : Heap) (m : CrossRootStyles) (rule : CSSRule)
    (h : Heap) :
  scanRule (shiftStyles (length H) m) rule (H ++ h)
  = relocate H (scanRule m rule h).
Proof.
  unfold scanRule.
  destruct (bool_decide (constructorName rule = CSSMediaRule)
            && isCrossRoot (parseMediaQuery (default [] (conditionText rule))));
    [apply processStyleSheet_relocate | done].
Qed.

Lemma scanSheet_relocate (d : DomTree) (H : Heap) (m : CrossRootStyles)
    (sheet : DocSheet) (h : Heap) :
  scanSheet d (shiftStyles (length H) m) sheet (H ++ h)
  = relocate H (scanSheet d m sheet h).
Proof.
  unfold scanSheet. destruct (ownerNode sheet) as [owner|]; [|done].
  destruct (negb (matches d owner ownerSelector)); [done|].
  unfold readCssRules. destruct (crossOrigin sheet).
  { unfold bind, throw. by destruct (isCrossRoot _). }
  unfold bind, ret.
  destruct (isCrossRoot (parseMediaQuery (mediaText sheet))).
  - rewrite processStyleSheet_relocate.
    destruct (processStyleSheet _ _ m h) as [[m'|e] h']; simpl; [|done].
    apply reduceM_relocate. intros; apply scanRule_relocate.
  - apply reduceM_relocate. intros; apply scanRule_relocate.
Qed.

Lemma refreshCrossRootStyles_relocate (d : DomTree) (H : Heap)
    (sheets : list DocSheet) (h : Heap) :
  refreshCrossRootStyles d sheets (H ++ h)
  = relocate H (refreshCrossRootStyles d sheets h).
Proof.
  unfold refreshCrossRootStyles.
  apply (reduceM_relocate (scanSheet d) (scanSheet d) H sheets
           (λ m x h, scanSheet_relocate d H m x h) createCrossRootStyles h).
Qed.

Lemma firstRuleText_relocate (H : Heap) (m : CrossRootStyles) (k : JSString)
    (h : Heap) :
  firstRuleText (shiftStyles (length H) m) k (H ++ h)
  = (fst (firstRuleText m k h), H ++ h).
Proof.
  unfold firstRuleText. rewrite getOwn_shiftStyles.
  destruct (getOwn m k) as [acc|]; simpl; [|done].
  rewrite lookup_app_r, Nat.add_comm, Nat.add_sub by lia.
  by destruct (h !! acc) as [[|t r]|].
Qed.

Lemma firstRuleText_state (m : CrossRootStyles) (k : JSString) (h : Heap) :
  snd (firstRuleText m k h) = h.
Proof.
  unfold firstRuleText. destruct (getOwn m k) as [acc|]; [|done].
  by destruct (h !! acc) as [[|t r]|].
Qed.

Lemma convertToCSSStyleSheets_relocate (H : Heap) (m : CrossRootStyles)
    (h : Heap) :
  convertToCSSStyleSheets (shiftStyles (length H) m) (H ++ h)
  = relocate H (convertToCSSStyleSheets m h).
Proof.
  unfold convertToCSSStyleSheets. rewrite R_keys_shiftStyles.
  refine (reduceM_relocate _ _ H (R_keys m) _ createCrossRootStyles h).
  clear h.
  intros out k h. unfold bind, newCSSStyleSheet.
  rewrite <- app_assoc, firstRuleText_relocate.
  pose proof (firstRuleText_state m k (h ++ [[]])) as Hstate.
  destruct (firstRuleText m k (h ++ [[]])) as [[text|e] h']; simpl in *;
    subst h'; [|done].
  unfold insertRule, modify, ret, R_assoc. simpl.
  by rewrite length_app, setProp_shiftStyles, alter_app_r.
Qed.

Lemma compilePass_relocate (d : DomTree) (H : Heap) (sheets : list DocSheet) :
  compilePass d sheets H = relocate H (compilePass d sheets []).
Proof.
  unfold compilePass, bind.
  rewrite <- (app_nil_r H) at 1. rewrite refreshCrossRootStyles_relocate.
  destruct (refreshCrossRootStyles d sheets []) as [[m|e] h]; simpl; [|done].
  apply convertToCSSStyleSheets_relocate.
Qed.

(** ** Rules for computations *)

Lemma hoare_ret {S A} (E P : S → Prop) (a : A) (Q : A → S → Prop) :
  (∀ s, P s → Q a s) → hoare E P (ret a) Q.
Proof. intros H s Hs. by apply H. Qed.

Lemma hoare_throw {S A} (E P : S → Prop) (e : JSError) (Q : A → S → Prop) :
  e ≠ NullShadowRoot → (∀ s, P s → E s) → hoare E P (throw e) Q.
Proof. intros He H s Hs. split; [by apply H | done]. Qed.

Lemma hoare_gets {S A} (E P : S → Prop) (f : S → A) (Q : A → S → Prop) :
  (∀ s, P s → Q (f s) s) → hoare E P (gets f) Q.
Proof. intros H s Hs. by apply H. Qed.

Lemma hoare_modify {S} (E P : S → Prop) (f : S → S) (Q : unit → S → Prop) :
  (∀ s, P s → Q tt (f s)) → hoare E P (modify f) Q.
Proof. intros H s Hs. by apply H. Qed.

Lemma hoare_bind {S A B} (E P : S → Prop) (c : M S A) (k : A → M S B)
    (R : A → S → Prop) (Q : B → S → Prop) :
  hoare E P c R → (∀ a, hoare E (R a) (k a) Q) → hoare E P (bind c k) Q.
Proof.
  intros Hc Hk s Hs. unfold bind. specialize (Hc s Hs).
  destruct (c s) as [[a|e] s']; [by apply Hk | done].
Qed.

Lemma hoare_pre {S A} (E P P' : S → Prop) (c : M S A) (Q : A → S → Prop) :
  (∀ s, P' s → P s) → hoare E P c Q → hoare E P' c Q.
Proof. intros HP Hc s Hs. by apply Hc, HP. Qed.

Lemma hoare_post {S A} (E E' P : S → Prop) (c : M S A)
    (Q Q' : A → S → Prop) :
  (∀ s, E s → E' s) → (∀ a s, Q a s → Q' a s) →
  hoare E P c Q → hoare E' P c Q'.
Proof.
  intros HE HQ Hc s Hs. specialize (Hc s Hs).
  destruct (c s) as [[a|e] s']; [by apply HQ|].
  destruct Hc. split; [by apply HE | done].
Qed.

Lemma hoare_forEachM {S B} (E P : S → Prop) (f : B → M S unit) (l : list B) :
  (∀ x, x ∈ l → hoare E P (f x) (λ _, P)) →
  hoare E P (forEachM f l) (λ _, P).
Proof.
  induction l as [|x l IH]; intros Hf.
  - by apply hoare_ret.
  - rewrite forEachM_cons. eapply hoare_bind; [apply Hf; left|].
    intros u. apply IH. intros y Hy. apply Hf. by right.
Qed.

Lemma hoare_reduceM {S A B} (E P : S → Prop) (f : A → B → M S A) (l : list B)
    (acc : A) :
  (∀ a x, hoare E P (f a x) (λ _, P)) →
  hoare E P (reduceM f acc l) (λ _, P).
Proof.
  intros Hf. revert acc. induction l as [|x l IH]; intros acc.
  - by apply hoare_ret.
  - rewrite reduceM_cons. eapply hoare_bind; [apply Hf|]. apply IH.
Qed.

(** ** The stylesheet store never raises the error of a null shadow root *)

Lemma hoare_heap_any {A} (c : M Heap A) :
  (∀ h, fst (c h) ≠ Throw NullShadowRoot) →
  hoare anyHeap anyHeap c (λ _, anyHeap).
Proof.
  intros H h _. specialize (H h). destruct (c h) as [[a|e] h']; [done|].
  split; [done|]. simpl in H. congruence.
Qed.

Lemma addStyleRule_any (m : CrossRootStyles) (sel : JSString) (rule : CSSRule) :
  hoare anyHeap anyHeap (addStyleRule m sel rule) (λ _, anyHeap).
Proof.
  apply hoare_heap_any. intros h.
  unfold addStyleRule, bind, newCSSStyleSheet, insertRule.
  destruct (getProp (R_clone m) sel); [|done|]; by destruct (refusalOf rule _).
Qed.

Lemma readCssRules_any (sheet : DocSheet) :
  hoare anyHeap anyHeap (readCssRules sheet) (λ _, anyHeap).
Proof.
  apply hoare_heap_any. intros h. unfold readCssRules.
  by destruct (crossOrigin sheet).
Qed.

Lemma processStyleSheet_any (rules : list CSSRule) (sel : JSString)
    (m : CrossRootStyles) :
  hoare anyHeap anyHeap (processStyleSheet rules sel m) (λ _, anyHeap).
Proof.
  apply hoare_reduceM. intros a x. apply addStyleRule_any.
Qed.

Lemma scanRule_any (m : CrossRootStyles) (rule : CSSRule) :
  hoare anyHeap anyHeap (scanRule m rule) (λ _, anyHeap).
Proof.
  unfold scanRule.
  destruct (_ && _); [apply processStyleSheet_any | by apply hoare_ret].
Qed.

Lemma scanSheet_any (d : DomTree) (m : CrossRootStyles) (sheet : DocSheet) :
  hoare anyHeap anyHeap (scanSheet d m sheet) (λ _, anyHeap).
Proof.
  unfold scanSheet. destruct (ownerNode sheet); [|by apply hoare_throw].
  destruct (negb _); [by apply hoare_ret|].
  apply (hoare_bind _ _ _ _ (λ _, anyHeap)).
  - destruct (isCrossRoot _); [|by apply hoare_ret].
    apply (hoare_bind _ _ _ _ (λ _, anyHeap)); [apply readCssRules_any|].
    intros rules. apply processStyleSheet_any.
  - intros a.
    apply (hoare_bind _ _ _ _ (λ _, anyHeap)); [apply readCssRules_any|].
    intros rules. apply hoare_reduceM. intros m' x. apply scanRule_any.
Qed.

Lemma refreshCrossRootStyles_any (d : DomTree) (sheets : list DocSheet) :
  hoare anyHeap anyHeap (refreshCrossRootStyles d sheets) (λ _, anyHeap).
Proof. apply hoare_reduceM. intros a x. apply scanSheet_any. Qed.

Lemma convertToCSSStyleSheets_any (m : CrossRootStyles) :
  hoare anyHeap anyHeap (convertToCSSStyleSheets m) (λ _, anyHeap).
Proof.
  apply hoare_reduceM. intros out k.
  apply (hoare_bind _ _ _ _ (λ _, anyHeap)); [by apply hoare_heap_any|].
  intros sheet. apply (hoare_bind _ _ _ _ (λ _, anyHeap)).
  - apply hoare_heap_any. intros h. unfold firstRuleText.
    destruct (getOwn m k) as [acc|]; [|done].
    by destruct (h !! acc) as [[|??]|].
  - intros text.
    apply (hoare_bind _ _ _ _ (λ _, anyHeap)); [by apply hoare_heap_any|].
    intros u. by apply hoare_ret.
Qed.

(** ** The tracked hosts keep an open shadow root *)

Lemma tracked_mono (att att' : nat → Prop) (keep keep' : list nat)
    (w w' : World) :
  (∀ x, hasOpenShadowRoot w x → hasOpenShadowRoot w' x) →
  (∀ x, att x → att' x) →
  (∀ x, x ∈ keep' → x ∈ keep) →
  (∀ x, x ∈ stylableElements w' → x ∈ stylableElements w ∨ x ∈ keep) →
  (∀ cb el, cb ∈ frameQueue w' → callbackHost cb = Some el →
            cb ∈ frameQueue w ∨ el ∈ keep) →
  console w' = console w →
  tracked att keep w → tracked att' keep' w'.
Proof.
  intros Hopen Hatt Hkeep Hset Hqueue Hcon (Hk & Hs & Hq & Hc).
  assert (∀ x, x ∈ keep → hasOpenShadowRoot w' x ∧ att' x) as Hk'.
  { intros x Hx. destruct (Hk x Hx). auto. }
  split; [auto|]. split; [|split; [|by rewrite Hcon]].
  - intros x Hx. destruct (Hset x Hx) as [Hin|Hin]; [|auto].
    destruct (Hs x Hin). auto.
  - intros cb el Hcb Hel. destruct (Hqueue cb el Hcb Hel) as [Hin|Hin]; [|auto].
    destruct (Hq cb el Hin Hel). auto.
Qed.

Lemma tracked_weaken (att : nat → Prop) (keep keep' : list nat) (w : World) :
  (∀ x, x ∈ keep' → x ∈ keep) → tracked att keep w → tracked att keep' w.
Proof. intros H. apply tracked_mono; auto. Qed.

(** A change that leaves the shadow roots, the set, the queue and the
    console alone. *)
Lemma tracked_frame (att : nat → Prop) (keep : list nat) (w w' : World) :
  shadowRoots w' = shadowRoots w →
  stylableElements w' = stylableElements w →
  frameQueue w' = frameQueue w →
  console w' = console w →
  tracked att keep w → tracked att keep w'.
Proof.
  intros Hsr Hset Hq Hc. apply tracked_mono; auto.
  - intros x. unfold hasOpenShadowRoot, shadowRootOf. by rewrite Hsr.
  - intros x. rewrite Hset. auto.
  - intros cb el. rewrite Hq. auto.
Qed.

Lemma hasOpenShadowRoot_insert (w : World) (el x : nat) (sr : ShadowRoot)
    (l : list nat) :
  shadowRootOf w el = Some sr →
  hasOpenShadowRoot w x →
  hasOpenShadowRoot
    (setShadowRoots
       (<[el := {| mode := mode sr; adoptedStyleSheets := l |}]> (shadowRoots w))
       w) x.
Proof.
  unfold hasOpenShadowRoot, shadowRootOf. simpl. intros Hel Hx.
  destruct (decide (el = x)) as [->|Hne].
  - rewrite lookup_insert_eq. simpl.
    destruct (shadowRoots w !! x) as [sr'|]; [|done].
    destruct (decide (mode sr' = open)); [|done].
    injection Hel as ->. by rewrite decide_True.
  - by rewrite lookup_insert_ne.
Qed.

Lemma assignAdopted_tracked (att : nat → Prop) (keep0 K : list nat)
    (el : nat) (f : list nat → Result (list nat)) :
  (∀ x, x ∈ keep0 → x ∈ K) → el ∈ K →
  (∀ old, f old ≠ Throw NullShadowRoot) →
  hoare (tracked att keep0) (tracked att K) (assignAdopted el f)
        (λ _, tracked att K).
Proof.
  intros Hsub Hel Hf w Hw. unfold assignAdopted.
  destruct (proj1 Hw el Hel) as [[sr Hsr] _]. rewrite Hsr.
  specialize (Hf (adoptedStyleSheets sr)).
  destruct (f (adoptedStyleSheets sr)) as [l|e].
  - revert Hw. apply tracked_mono; auto.
    intros x. by apply hasOpenShadowRoot_insert.
  - split; [by eapply tracked_weaken | congruence].
Qed.

Lemma applyCrossRootStyles_tracked (att : nat → Prop) (keep0 K : list nat)
    (el : nat) (crossRootStyles : CrossRootStyles) :
  (∀ x, x ∈ keep0 → x ∈ K) → el ∈ K →
  hoare (tracked att keep0) (tracked att K)
        (applyCrossRootStyles el crossRootStyles) (λ _, tracked att K).
Proof.
  intros Hsub Hel. apply hoare_forEachM. intros sel _.
  apply (hoare_bind _ _ _ _ (λ _, tracked att K)); [by apply hoare_gets|].
  intros d. apply (hoare_bind _ _ _ _ (λ _, tracked att K)).
  { unfold elementMatches.
    destruct (validSelector d sel); [by apply hoare_ret|].
    apply hoare_throw; [done|]. intros w. by apply tracked_weaken. }
  intros [|]; [|by apply hoare_ret].
  apply assignAdopted_tracked; [done..|].
  intros old. by destruct (getOwn crossRootStyles sel).
Qed.

Lemma onHeap_tracked {A} (att : nat → Prop) (keep0 K : list nat)
    (c : M Heap A) :
  (∀ x, x ∈ keep0 → x ∈ K) →
  hoare anyHeap anyHeap c (λ _, anyHeap) →
  hoare (tracked att keep0) (tracked att K) (onHeap c) (λ _, tracked att K).
Proof.
  intros Hsub Hc w Hw. unfold onHeap. specialize (Hc (heap w) I).
  destruct (c (heap w)) as [[a|e] h].
  - revert Hw. by apply tracked_frame.
  - split; [|apply Hc]. apply (tracked_weaken att K); [done|].
    revert Hw. by apply tracked_frame.
Qed.

Lemma initializeStyles_tracked (att : nat → Prop) (keep : list nat)
    (styleSheets : list nat) :
  hoare (tracked att keep) (tracked att keep) (initializeStyles styleSheets)
        (λ _, tracked att keep).
Proof.
  unfold initializeStyles.
  apply (hoare_bind _ _ _ _ (λ _, tracked att keep)); [by apply hoare_gets|].
  intros d.
  apply (hoare_bind _ _ _ _ (λ _, tracked att keep)); [by apply hoare_gets|].
  intros sheets.
  apply (hoare_bind _ _ _ _ (λ _, tracked att keep)).
  { apply onHeap_tracked; [done | apply refreshCrossRootStyles_any]. }
  intros crossRootStyles.
  apply (hoare_bind _ _ _ _ (λ _, tracked att keep)).
  { apply onHeap_tracked; [done | apply convertToCSSStyleSheets_any]. }
  intros styleSheetMap.
  apply (hoare_bind _ _ _ _ (λ elements, tracked att (elements ++ keep))).
  { apply hoare_gets. intros w Hw. revert Hw. intros (Hk & Hs & Hq).
    split; [|done]. intros x Hx. apply elem_of_app in Hx as [Hx|Hx]; auto. }
  intros elements.
  assert (∀ x, x ∈ keep → x ∈ elements ++ keep) as Hsub.
  { intros x Hx. apply elem_of_app. by right. }
  apply (hoare_post (tracked att keep) _ _ _ (λ _, tracked att (elements ++ keep)));
    [done | intros _ w; by apply tracked_weaken |].
  apply hoare_forEachM. intros el Hel.
  assert (el ∈ elements ++ keep) as Hin by (apply elem_of_app; by left).
  apply (hoare_bind _ _ _ _ (λ _, tracked att (elements ++ keep)));
    [by apply hoare_gets|].
  intros initial.
  apply (hoare_bind _ _ _ _ (λ _, tracked att (elements ++ keep))).
  { by apply assignAdopted_tracked. }
  intros u. by apply applyCrossRootStyles_tracked.
Qed.

Lemma runFrameCallback_tracked (att : nat → Prop) (keep : list nat)
    (callback : FrameCallback) :
  (∀ el, callbackHost callback = Some el → el ∈ keep) →
  hoare (tracked att keep) (tracked att keep) (runFrameCallback callback)
        (λ _, tracked att keep).
Proof.
  intros Hhost.
  destruct callback as [styleSheets|this liveUpdateEnabled crossRootStyles];
    unfold runFrameCallback.
  - apply (hoare_bind _ _ _ _ (λ _, tracked att keep));
      [apply initializeStyles_tracked|]. intros u.
    apply (hoare_bind _ _ _ _ (λ _, tracked att keep)).
    { intros w Hw. revert Hw. by apply tracked_frame. }
    intros observer.
    apply (hoare_bind _ _ _ _ (λ _, tracked att keep));
      [by apply hoare_gets|]. intros script.
    apply hoare_modify. intros w. by apply tracked_frame.
  - assert (this ∈ keep) as Hthis by auto.
    apply (hoare_bind _ _ _ _ (λ _, tracked att keep));
      [by apply hoare_gets|]. intros d.
    destruct (isInDarkRoot d (2 + treeHeight d) (ShadowRootOf this))
      as [[|]|]; [by apply hoare_ret| |by apply hoare_throw].
    apply (hoare_bind _ _ _ _ (λ _, tracked att keep)).
    { destruct liveUpdateEnabled; [|by apply hoare_ret].
      apply hoare_modify. intros w. apply tracked_mono; auto.
      simpl. intros x. unfold setAdd. case_decide; [auto|].
      rewrite elem_of_app, list_elem_of_singleton. intros [?| ->]; auto. }
    intros u.
    apply (hoare_bind _ _ _ _ (λ _, tracked att keep)).
    { apply hoare_modify. intros w. by apply tracked_frame. }
    intros u'. by apply applyCrossRootStyles_tracked.
Qed.

Lemma handleDOMContentLoaded_tracked (att : nat → Prop) (keep : list nat)
    (script : option nat) (observer : nat) :
  hoare (tracked att keep) (tracked att keep)
        (handleDOMContentLoaded script observer) (λ _, tracked att keep).
Proof.
  unfold handleDOMContentLoaded.
  destruct script as [script|]; [|by apply hoare_throw].
  apply (hoare_bind _ _ _ _ (λ _, tracked att keep)); [by apply hoare_gets|].
  intros d. destruct (hasAttribute d script disableAttr);
    [|by apply hoare_ret].
  apply (hoare_bind _ _ _ _ (λ _, tracked att keep)).
  { apply hoare_modify. intros w. by apply tracked_frame. }
  intros u. apply hoare_modify. intros w. apply tracked_mono; auto.
  simpl. intros x Hx. inversion Hx.
Qed.

Lemma tracked_enqueue (att : nat → Prop) (keep : list nat) (w : World)
    (callback : FrameCallback) :
  (∀ el, callbackHost callback = Some el → hasOpenShadowRoot w el ∧ att el) →
  tracked att keep w →
  tracked att keep (setFrameQueue (frameQueue w ++ [callback]) w).
Proof.
  intros Hcb (Hk & Hs & Hq & Hc). split; [done|]. split; [done|].
  split; [|done].
  intros cb el. simpl. rewrite elem_of_app, list_elem_of_singleton.
  intros [Hin| ->] Hel; [by eapply Hq | by apply Hcb].
Qed.

Lemma callAttachShadow_tracked (att : nat → Prop) (keep : list nat)
    (impl : AttachShadowImpl) (this : nat) (init : ShadowRootMode) :
  (init = open → att this) →
  hoare (tracked att keep) (tracked att keep)
        (callAttachShadow impl this init)
        (λ _ w, tracked att keep w
                ∧ (init = open → hasOpenShadowRoot w this)).
Proof.
  intros Hatt.
  induction impl as [|liveUpdateEnabled crossRootStyles original IH]; simpl.
  - intros w Hw. unfold nativeAttachShadow.
    destruct (shadowRoots w !! this) as [sr|] eqn:Hnone; [done|].
    split.
    + revert Hw. apply tracked_mono; auto.
      intros x. unfold hasOpenShadowRoot, shadowRootOf. simpl.
      destruct (decide (this = x)) as [->|Hne];
        [by rewrite Hnone; intros [? [=]] | by rewrite lookup_insert_ne].
    + intros ->. unfold hasOpenShadowRoot, shadowRootOf. simpl.
      rewrite lookup_insert_eq. simpl. by eexists.
  - eapply hoare_bind; [apply IH|]. intros u. simpl.
    destruct (decide (init ≠ open)) as [Hne|Heq].
    + apply hoare_ret. intros w [Hw _]. split; [done|]. done.
    + apply dec_stable in Heq. apply hoare_modify. intros w [Hw Hopen].
      split; [|done]. apply tracked_enqueue; [|done].
      intros el [= <-]. auto.
Qed.

Lemma task_tracked (att : nat → Prop) (keep keep' : list nat)
    (c : M World unit) (w : World) :
  (∀ x, x ∈ keep' → x ∈ keep) →
  hoare (tracked att keep) (tracked att keep) c (λ _, tracked att keep) →
  tracked att keep w → tracked att keep' (task c w).
Proof.
  intros Hsub Hc Hw. unfold task. specialize (Hc w Hw).
  destruct (c w) as [[u|e] w'].
  - by eapply tracked_weaken.
  - destruct Hc as [(Hk & Hs & Hq & Hcon) He].
    apply (tracked_weaken att keep); [done|].
    split; [done|]. split; [done|]. split; [done|]. simpl.
    apply Forall_app. split; [done|]. by constructor.
Qed.

(** The callbacks of an animation frame, run in their order. *)
Lemma frame_tracked (att : nat → Prop) (callbacks : list FrameCallback)
    (w : World) :
  tracked att (omap callbackHost callbacks) w →
  tracked att [] (foldl (λ w callback, task (runFrameCallback callback) w)
                        w callbacks).
Proof.
  revert w. induction callbacks as [|callback callbacks IH]; intros w Hw;
    [done|].
  simpl foldl. apply IH.
  apply (task_tracked att (omap callbackHost (callback :: callbacks)));
    [| |done].
  - intros x Hx. simpl. destruct (callbackHost callback); [by right | done].
  - apply runFrameCallback_tracked. intros el Hel. simpl. rewrite Hel. left.
Qed.

Lemma notifyObservers_tracked (att : nat → Prop) (w : World) :
  tracked att [] w → tracked att [] (notifyObservers w).
Proof.
  unfold notifyObservers. generalize (observers w) as os. intros os.
  revert w. induction os as [|o os IH]; intros w Hw; [done|].
  simpl. apply IH. destruct (observing o); [|done].
  apply (task_tracked att []); [done| |done].
  apply initializeStyles_tracked.
Qed.

Lemma listeners_tracked (att : nat → Prop) (ls : list Listener) (w : World) :
  tracked att [] w →
  tracked att []
    (foldl (λ w l, task (handleDOMContentLoaded (listenerScript l)
                           (listenerObserver l)) w) w ls).
Proof.
  revert w. induction ls as [|l ls IH]; intros w Hw; [done|].
  simpl. apply IH. apply (task_tracked att []); [done| |done].
  apply handleDOMContentLoaded_tracked.
Qed.

Lemma step_tracked (events : list Event) (w : World) (e : Event) :
  tracked (attachedOpen events) [] w →
  tracked (attachedOpen (events ++ [e])) [] (step w e).
Proof.
  intros Hw.
  assert (∀ x, attachedOpen events x → attachedOpen (events ++ [e]) x)
    as Hatt.
  { intros x Hx. apply elem_of_app. by left. }
  assert (tracked (attachedOpen (events ++ [e])) [] w) as Hw'.
  { revert Hw. apply tracked_mono; auto. }
  clear Hw. destruct e as [el init|el sheets|rules| |d sheets attached|d|].
  - simpl. apply (task_tracked _ []); [done| |done].
    eapply hoare_post; [done| |apply callAttachShadow_tracked].
    + by intros _ w' [? _].
    + intros ->. apply elem_of_app. right. left.
  - simpl. destruct (shadowRoots w !! el) as [sr|] eqn:Hel; [|done].
    revert Hw'. apply tracked_mono; auto.
    intros x. unfold hasOpenShadowRoot, shadowRootOf. simpl.
    destruct (decide (el = x)) as [->|Hne].
    + rewrite Hel, lookup_insert_eq. simpl.
      by destruct (decide (mode sr = open)).
    + by rewrite lookup_insert_ne.
  - simpl. revert Hw'. by apply tracked_frame.
  - simpl. apply frame_tracked.
    destruct Hw' as (Hk & Hs & Hq & Hc).
    split; [|split; [done|split; [|done]]].
    + intros x Hx. apply list_elem_of_omap in Hx as (cb & Hcb & Hx).
      by eapply Hq.
    + simpl. intros cb el Hcb. inversion Hcb.
  - simpl. apply notifyObservers_tracked. revert Hw'. by apply tracked_frame.
  - simpl. revert Hw'. by apply tracked_frame.
  - simpl. by apply listeners_tracked.
Qed.

Lemma boot_tracked (p : Page) : tracked (attachedOpen []) [] (boot p).
Proof.
  split; [intros x Hx; inversion Hx|].
  split; [intros x Hx; inversion Hx|].
  split; [|constructor].
  intros cb el Hcb. simpl in Hcb.
  apply list_elem_of_singleton in Hcb as ->. done.
Qed.

Lemma run_tracked (p : Page) (events : list Event) :
  tracked (attachedOpen events) [] (run (boot p) events).
Proof.
  induction events as [|e events IH] using rev_ind.
  - apply boot_tracked.
  - unfold run. rewrite foldl_app. simpl. by apply step_tracked.
Qed.

(** C10: whatever the page does after the script has run, every element of
    the Stylable-Elements Set is one on which [attachShadow] was called with
    mode open and has an open shadow root, so that [element.shadowRoot] is
    not [null]; a sync pass run then, whatever it scans, does not fail on the
    shadow root of a host, and no such failure was ever reported. *)
Theorem stylableElements_have_open_shadow_root (p : Page)
    (events : list Event) :
  (∀ element,
     element ∈ stylableElements (run (boot p) events) →
     AttachShadow element open ∈ events
     ∧ ∃ shadowRoot,
         shadowRoots (run (boot p) events) !! element = Some shadowRoot
         ∧ mode shadowRoot = open
         ∧ shadowRootOf (run (boot p) events) element = Some shadowRoot)
  ∧ (∀ styleSheets,
       fst (initializeStyles styleSheets (run (boot p) events))
       ≠ Throw NullShadowRoot)
  ∧ Forall (λ e, e ≠ NullShadowRoot) (console (run (boot p) events)).
Proof.
  pose proof (run_tracked p events) as Hw.
  split; [|split].
  - intros el Hel. destruct Hw as (_ & Hs & _).
    destruct (Hs el Hel) as [[sr Hsr] Hatt]. split; [done|].
    exists sr. unfold shadowRootOf in *.
    destruct (shadowRoots (run (boot p) events) !! el) as [sr'|]; [|done].
    destruct (decide (mode sr' = open)); [|done].
    by injection Hsr as ->.
  - intros styleSheets.
    pose proof (initializeStyles_tracked _ _ styleSheets _ Hw) as H.
    destruct (initializeStyles styleSheets (run (boot p) events))
      as [[u|e] w']; [done|].
    simpl. destruct H as [_ He]. congruence.
  - by destruct Hw as (_ & _ & _ & Hc).
Qed.

(** ** Sync passes *)

Lemma initializeStyles_unfold (styleSheets : list nat) (w : World) :
  initializeStyles styleSheets w =
  match compilePass (domTree w) (sheetObjects w styleSheets) (heap w) with
  | (Ok styleSheetMap, h) =>
      forEachM (resetAndApply styleSheetMap) (stylableElements w) (setHeap h w)
  | (Throw e, h) => (Throw e, setHeap h w)
  end.
Proof.
  unfold initializeStyles, compilePass, bind, gets, onHeap. simpl.
  destruct (refreshCrossRootStyles _ _ (heap w)) as [[crs|e] h1]; [|done].
  simpl. by destruct (convertToCSSStyleSheets crs h1) as [[m|e] h2].
Qed.
















(** A key that is not a selector stops the pass: the stylesheet with the
    group [--crossroot and (min-width: 10px)] in front of the group
    [--crossroot(.widget)] is extracted and compiled, with the keys in this
    order; the host is reset, [matches] throws on the first key, and the
    host, which matches [.widget], is left with its baseline. *)
Example sync_pass_stops_at_invalid_selector :
  selector (ruleCondition featureGroup) = mediaFeatureKey
  ∧ validSelector exampleDom mediaFeatureKey = false
  ∧ fst (compilePass exampleDom [featureSheet] [])
    = Ok [(mediaFeatureKey, 2); (str ".widget", 3)]
  ∧ console featureWorld = [DOMException SyntaxError]
  ∧ stylableElements featureWorld = [5]
  ∧ adoptedOf syncedWorld 5 = [0; 4]
  ∧ adoptedOf featureWorld 5 = [0].
Proof. repeat split; vm_compute; reflexivity. Qed.

(** ** What the closures of the script captured *)

Lemma keepsWiring_ret {A} (a : A) : keepsWiring (ret a).
Proof. done. Qed.

Lemma keepsWiring_throw {A} (e : JSError) : keepsWiring (@throw World A e).
Proof. done. Qed.

Lemma keepsWiring_gets {A} (f : World → A) : keepsWiring (gets f).
Proof. done. Qed.

Lemma keepsWiring_bind {A B} (c : M World A) (k : A → M World B) :
  keepsWiring c → (∀ a, keepsWiring (k a)) → keepsWiring (bind c k).
Proof.
  intros Hc Hk w. unfold bind. specialize (Hc w).
  destruct (c w) as [[a|e] w']; simpl in *; [|done].
  by rewrite Hk.
Qed.

Lemma keepsWiring_forEachM {B} (f : B → M World unit) (l : list B) :
  (∀ x, keepsWiring (f x)) → keepsWiring (forEachM f l).
Proof.
  intros Hf. induction l as [|x l IH]; [done|].
  rewrite forEachM_cons. apply keepsWiring_bind; [apply Hf | by intros _].
Qed.

Lemma keepsWiring_onHeap {A} (c : M Heap A) : keepsWiring (onHeap c).
Proof. intros w. unfold onHeap. by destruct (c (heap w)). Qed.

Lemma keepsWiring_assignAdopted (el : nat)
    (f : list nat → Result (list nat)) :
  keepsWiring (assignAdopted el f).
Proof.
  intros w. unfold assignAdopted. destruct (shadowRootOf w el); [|done].
  by destruct (f _).
Qed.

Lemma keepsWiring_applyCrossRootStyles (el : nat) (m : CrossRootStyles) :
  keepsWiring (applyCrossRootStyles el m).
Proof.
  apply keepsWiring_forEachM. intros sel.
  apply keepsWiring_bind; [apply keepsWiring_gets|]. intros d.
  apply keepsWiring_bind.
  { unfold elementMatches.
    destruct (validSelector d sel);
      [apply keepsWiring_ret | apply keepsWiring_throw]. }
  intros [|]; [apply keepsWiring_assignAdopted | apply keepsWiring_ret].
Qed.

Lemma keepsWiring_initializeStyles (styleSheets : list nat) :
  keepsWiring (initializeStyles styleSheets).
Proof.
  unfold initializeStyles.
  repeat (apply keepsWiring_bind;
          [first [apply keepsWiring_gets | apply keepsWiring_onHeap]|];
          intros ?).
  apply keepsWiring_forEachM. intros el.
  apply keepsWiring_bind; [apply keepsWiring_gets|]. intros initial.
  apply keepsWiring_bind; [apply keepsWiring_assignAdopted|]. intros _.
  apply keepsWiring_applyCrossRootStyles.
Qed.

Lemma keepsWiring_attached (this : nat) (liveUpdateEnabled : bool)
    (m : CrossRootStyles) :
  keepsWiring (runFrameCallback (AttachedFrame this liveUpdateEnabled m)).
Proof.
  unfold runFrameCallback.
  apply keepsWiring_bind; [apply keepsWiring_gets|]. intros d.
  destruct (isInDarkRoot d (2 + treeHeight d) (ShadowRootOf this))
    as [[|]|]; [apply keepsWiring_ret| |apply keepsWiring_throw].
  apply keepsWiring_bind; [by destruct liveUpdateEnabled|]. intros _.
  apply keepsWiring_bind; [done|]. intros _.
  apply keepsWiring_applyCrossRootStyles.
Qed.

Lemma wired_wiring (p : Page) (w w' : World) :
  wiringOf w' = wiringOf w → wired p w → wired p w'.
Proof. unfold wiringOf, wired. intros [= -> -> -> -> ->]. done. Qed.

Lemma task_keepsWiring (p : Page) (c : M World unit) (w : World) :
  keepsWiring c → wired p w → wired p (task c w).
Proof.
  intros Hc. apply wired_wiring. unfold task. specialize (Hc w).
  by destruct (c w) as [[u|e] w'].
Qed.

(** The callback of [main]: when the first pass completes, the observer it
    makes holds the array the callback captured, and the listener holds
    [document.currentScript] as it is then. *)
Lemma task_mainFrame_wired (p : Page) (w : World) :
  wired p w →
  wired p (task (runFrameCallback (MainFrame (pageStyleSheets p))) w).
Proof.
  intros Hw. unfold task, runFrameCallback, bind.
  pose proof (keepsWiring_initializeStyles (pageStyleSheets p) w) as Hinit.
  destruct (initializeStyles (pageStyleSheets p) w) as [[u|e] w1];
    simpl in Hinit.
  - apply (wired_wiring p _ _ Hinit) in Hw.
    destruct Hw as (Ha & Hq & Ho & Hl & Hc).
    unfold observeStyleSheetChanges, gets, modify. simpl.
    split; [done|]. split; [done|]. split; [|split; [|done]].
    + apply Forall_app. split; [done|]. by constructor.
    + apply Forall_app. split; [done|]. by constructor.
  - revert Hw. by apply wired_wiring.
Qed.

Lemma frame_wired (p : Page) (callbacks : list FrameCallback) (w : World) :
  Forall (λ callback,
            callback = MainFrame (pageStyleSheets p)
            ∨ ∃ this, callback = AttachedFrame this true createCrossRootStyles)
         callbacks →
  wired p w →
  wired p (foldl (λ w callback, task (runFrameCallback callback) w)
                 w callbacks).
Proof.
  intros Hcbs. revert w.
  induction Hcbs as [|callback callbacks Hcb _ IH]; intros w Hw; [done|].
  simpl. apply IH. destruct Hcb as [->|[this ->]].
  - by apply task_mainFrame_wired.
  - apply task_keepsWiring; [apply keepsWiring_attached | done].
Qed.

Lemma step_wired (p : Page) (w : World) (e : Event) :
  wired p w → wired p (step w e).
Proof.
  intros Hw. destruct e as [el init|el sheets|rules| |d sheets attached|d|];
    simpl.
  - destruct Hw as (Ha & Hq & Ho & Hl & Hc). rewrite Ha.
    unfold task, callAttachShadow, bind, nativeAttachShadow.
    destruct (shadowRoots w !! el); [done|].
    destruct (decide (init ≠ open)); [done|].
    unfold requestAnimationFrame, modify. simpl.
    split; [done|]. split; [|done].
    apply Forall_app. split; [done|]. constructor; [|done]. right. by eexists.
  - by destruct (shadowRoots w !! el).
  - done.
  - apply frame_wired; [apply Hw|].
    destruct Hw as (Ha & Hq & Ho & Hl & Hc). split; [done|]. split; [|done].
    constructor.
  - unfold notifyObservers.
    assert (wired p (setDocument d sheets attached w)) as Hw' by done.
    revert Hw'. generalize (setDocument d sheets attached w) at 1 2.
    generalize (observers (setDocument d sheets attached w)).
    intros os. induction os as [|o os IH]; intros w0 Hw0; [done|].
    simpl. apply IH. destruct (observing o); [|done].
    apply task_keepsWiring; [apply keepsWiring_initializeStyles | done].
  - done.
  - assert (Forall (λ l, listenerScript l = None) (listeners w)) as Hls
      by apply Hw.
    revert Hw. generalize w at 1 2.
    induction Hls as [|l ls Hl _ IH]; intros w0 Hw0; [done|].
    simpl. apply IH. rewrite Hl.
    apply task_keepsWiring; [apply keepsWiring_throw | done].
Qed.

Lemma boot_wired (p : Page) : wired p (boot p).
Proof.
  split; [done|]. split; [|done].
  constructor; [by left | constructor].
Qed.

Lemma run_wired (p : Page) (events : list Event) :
  wired p (run (boot p) events).
Proof.
  induction events as [|e events IH] using rev_ind.
  - apply boot_wired.
  - unfold run. rewrite foldl_app. simpl. by apply step_wired.
Qed.

(** C1: the code does not apply the compiled stylesheets at attachment.
    The wrapper of [attachShadow] captured the map that [main] created,
    which stays empty: every callback of the interceptor, in every state the
    page can reach, carries the empty map, and run with it leaves every
    shadow root as it was.  In the end-to-end scenario the host matches
    [.widget], is not in a darkened subtree and is registered, the compiled
    map of that moment has a stylesheet for [.widget], and after the frame
    the shadow root adopts only the stylesheet it had. *)
Theorem interceptor_applies_empty_map (p : Page) (events : list Event) :
  (∀ this liveUpdateEnabled crossRootStyles,
     AttachedFrame this liveUpdateEnabled crossRootStyles
     ∈ frameQueue (run (boot p) events) →
     crossRootStyles = createCrossRootStyles)
  ∧ (∀ this liveUpdateEnabled w,
       shadowRoots
         (snd (runFrameCallback
                 (AttachedFrame this liveUpdateEnabled createCrossRootStyles) w))
       = shadowRoots w)
  ∧ isInDarkRoot exampleDom (2 + treeHeight exampleDom) (ShadowRootOf 5)
    = Some false
  ∧ matches exampleDom 5 (str ".widget") = true
  ∧ compilePass exampleDom [widgetSheet] [] = (Ok widgetCompiled, widgetCompiledHeap)
  ∧ stylableElements widgetWorld = [5]
  ∧ adoptedOf widgetWorld 5 = [0]
  ∧ console widgetWorld = [].
Proof.
  split; [|split; [|repeat split; vm_compute; reflexivity]].
  - intros this live crs Hin.
    destruct (run_wired p events) as (_ & Hq & _).
    rewrite Forall_forall in Hq. destruct (Hq _ Hin) as [[=]|[? [=]]].
    congruence.
  - intros this live w. unfold runFrameCallback, bind, gets.
    destruct (isInDarkRoot _ _ _) as [[|]|]; [done| |done].
    by destruct live.
Qed.

(** C2: the code scans a stale snapshot.  In every state the page can
    reach, the callback of every observer holds the array of stylesheets
    that [main] read when the script ran.  On the page that had no
    stylesheet then, the stylesheet with the group [--crossroot(.widget)],
    attached later, triggers a pass that scans nothing: the tracked host,
    which matches [.widget], adopts no stylesheet, where a pass over the
    stylesheets of that moment gives it the compiled one. *)
Theorem sync_pass_scans_startup_snapshot (p : Page) (events : list Event) :
  Forall (λ o, observerStyleSheets o = pageStyleSheets p)
         (observers (run (boot p) events))
  ∧ document_styleSheets lateSheetWorld = [0]
  ∧ cssom lateSheetWorld = [widgetSheet]
  ∧ observers lateSheetWorld
    = [{| observing := true; observerStyleSheets := [] |}]
  ∧ stylableElements lateSheetWorld = [5]
  ∧ adoptedOf lateSheetWorld 5 = []
  ∧ console lateSheetWorld = []
  ∧ rendered
      (heap (snd (initializeStyles (document_styleSheets lateSheetWorld)
                    lateSheetWorld)))
      (adoptedOf
         (snd (initializeStyles (document_styleSheets lateSheetWorld)
                 lateSheetWorld)) 5)
    = [Some [layerOpen ++ cssText redRule ++ layerClose]].
Proof.
  split; [|repeat split; vm_compute; reflexivity].
  by destruct (run_wired p events) as (_ & _ & Ho & _).
Qed.

Lemma listeners_without_script (ls : list Listener) (w : World) :
  Forall (λ l, listenerScript l = None) ls →
  observers
    (foldl (λ w l, task (handleDOMContentLoaded (listenerScript l)
                           (listenerObserver l)) w) w ls)
  = observers w
  ∧ stylableElements
      (foldl (λ w l, task (handleDOMContentLoaded (listenerScript l)
                             (listenerObserver l)) w) w ls)
    = stylableElements w.
Proof.
  intros Hls. revert w. induction Hls as [|l ls Hl _ IH]; intros w; [done|].
  simpl. rewrite Hl.
  destruct (IH (task (handleDOMContentLoaded None (listenerObserver l)) w))
    as [-> ->].
  done.
Qed.

(** C4: the code does not honour the disable attribute.  The callback of
    [main] reads [document.currentScript] in an animation frame, where it is
    [null]: in every state the page can reach every listener holds [null]
    for the script, so that the event DOMContentLoaded leaves the observers
    and the Stylable-Elements Set as they were (the listener throws on
    [script.hasAttribute]).  [handleDOMContentLoaded] itself, given a script
    with the attribute, empties the set.  On the example page, whose script
    has the attribute: after the event the observer is connected, the host is
    tracked and the [TypeError] is reported; when the page then rewrites its
    rule, the host is given the new compiled stylesheet. *)
Theorem disable_attribute_is_not_read (p : Page) (events : list Event) :
  Forall (λ l, listenerScript l = None) (listeners (run (boot p) events))
  ∧ observers (step (run (boot p) events) DOMContentLoaded)
    = observers (run (boot p) events)
  ∧ stylableElements (step (run (boot p) events) DOMContentLoaded)
    = stylableElements (run (boot p) events)
  ∧ (∀ script observer w,
       hasAttribute (domTree w) script disableAttr = true →
       stylableElements
         (snd (handleDOMContentLoaded (Some script) observer w)) = [])
  ∧ hasAttribute exampleDom (pageScript examplePage) disableAttr = true
  ∧ observers afterReadyWorld
    = [{| observing := true; observerStyleSheets := [0] |}]
  ∧ stylableElements afterReadyWorld = [5]
  ∧ console afterReadyWorld = [NullScript]
  ∧ rendered (heap widgetWorld) (adoptedOf widgetWorld 5)
    = [Some [str ":host { display: block; }"]]
  ∧ rendered (heap afterRewriteWorld) (adoptedOf afterRewriteWorld 5)
    = [Some [str ":host { display: block; }"];
       Some [layerOpen ++ cssText blueRule ++ layerClose]].
Proof.
  assert (Forall (λ l, listenerScript l = None)
                 (listeners (run (boot p) events))) as Hls
    by (by destruct (run_wired p events) as (_ & _ & _ & Hl & _)).
  split; [done|].
  destruct (listeners_without_script _ (run (boot p) events) Hls) as [Ho Hs].
  split; [exact Ho|]. split; [exact Hs|].
  split; [|repeat split; vm_compute; reflexivity].
  intros script observer w Hattr.
  unfold handleDOMContentLoaded, bind, gets. by rewrite Hattr.
Qed.

(** * Further properties of the code *)

(** ** The Dark-Root Detector stops at the first shadow boundary *)

Lemma isInDarkRoot_top (d : DomTree) (e top : nat) :
  topAncestor d e top →
  ∃ n, ∀ fuel, n ≤ fuel →
    isInDarkRoot d fuel (El e)
    = Some (bool_decide (Some top ≠ documentElement d)).
Proof.
  induction 1 as [e Hp|e parent top Hp _ [n IH]].
  - exists 1. intros [|fuel] Hfuel; [lia|]. simpl. rewrite Hp.
    by rewrite andb_true_r.
  - exists (S n). intros [|fuel] Hfuel; [lia|]. simpl. rewrite Hp.
    apply IH. lia.
Qed.

(** X1: for the shadow root of a host whose topmost ancestor element is
    [top], the detector answers from the host alone and from [top]: it
    returns true exactly when the host carries the darkened attribute or
    property, or [top] is not the root element of the document.  The markers
    of the ancestors of the host are not read, and the walk does not cross a
    second shadow boundary: a host inside another shadow tree, whose topmost
    ancestor is a child of that shadow root, is always reported darkened. *)
Theorem isInDarkRoot_one_boundary (d : DomTree) (host top : nat) :
  topAncestor d host top →
  ∃ n, ∀ fuel, n ≤ fuel →
    isInDarkRoot d fuel (ShadowRootOf host)
    = Some (hasAttribute d host darkenedAttr || darkenedProperty d host
            || bool_decide (Some top ≠ documentElement d)).
Proof.
  intros Htop. destruct (isInDarkRoot_top d host top Htop) as [n Hn].
  exists (S n). intros [|fuel] Hfuel; [lia|]. simpl.
  destruct (hasAttribute d host darkenedAttr || darkenedProperty d host);
    [done|].
  simpl. apply Hn. lia.
Qed.

(** [isInDarkRoot_one_boundary] on a host (8) inside the shadow tree of the
    host of class [widget]: its parent (6) is a child of that shadow root
    and has no parent element. *)
Lemma isInDarkRoot_one_boundary_witness :
  ∃ n, ∀ fuel, n ≤ fuel →
    isInDarkRoot nestedDom fuel (ShadowRootOf 8)
    = Some (hasAttribute nestedDom 8 darkenedAttr
            || darkenedProperty nestedDom 8
            || bool_decide (Some 6 ≠ documentElement nestedDom)).
Proof.
  apply (isInDarkRoot_one_boundary nestedDom 8 6).
  apply (top_up nestedDom 8 6 6); [reflexivity|].
  apply top_here. reflexivity.
Defined.

(** ** The selector of the Marker Parser *)

Lemma notRParen_free (s : JSString) : rparen ∉ notRParen s.
Proof.
  induction s as [|c s IH]; simpl; [apply not_elem_of_nil|].
  destruct (N.eqb_spec c rparen) as [->|Hne]; [apply not_elem_of_nil|].
  apply not_elem_of_cons. split; [congruence | done].
Qed.

Lemma capture_free (rest : JSString) : rparen ∉ capture rest.
Proof.
  destruct rest as [|c rest]; [apply not_elem_of_nil|]. unfold capture.
  destruct (c =? lparen)%N; apply notRParen_free.
Qed.

Lemma regexMatch_free (condition g : JSString) :
  regexMatch condition = Some g → rparen ∉ g.
Proof.
  induction condition as [|c s IH]; rewrite regexMatch_unfold.
  - simpl. done.
  - destruct (stripPrefix marker (c :: s)) as [rest|]; [|done].
    intros [= <-]. apply capture_free.
Qed.

(** X2: whatever the condition, the selector the parser returns is usable
    as a key: it is not blank (a blank argument gives the universal
    selector) and it holds no closing parenthesis (the argument stops at the
    first one, also when it closes a parenthesis opened inside the
    argument). *)
Theorem parseMediaQuery_selector_not_blank (condition : JSString) :
  truthy (trim (selector (parseMediaQuery condition))) = true
  ∧ rparen ∉ selector (parseMediaQuery condition).
Proof.
  unfold parseMediaQuery. cbn [selector].
  destruct (regexMatch condition) as [g|] eqn:Hg.
  - destruct (truthy (trim g)) eqn:Hblank.
    + split; [done|]. by eapply regexMatch_free.
    + split; [reflexivity|]. apply (bool_decide_unpack _). vm_compute. exact I.
  - split; [reflexivity|]. apply (bool_decide_unpack _). vm_compute. exact I.
Qed.

(** ** The order in which rules are accumulated *)

(** X3: when [processStyleSheet] returns, it has put the rules of the list
    in front of those the accumulator of the selector already held, in
    reverse order, the last rule of the list first; an empty list leaves the
    accumulator as it is.  Index 0, the only rule the compiler reads, is
    therefore the last rule of the list.  It returns when the selector does
    not name a property of [Object.prototype] and a constructed stylesheet
    takes every rule of the list. *)
Theorem processStyleSheet_reverses (rules : list CSSRule) (sel : JSString)
    (m : CrossRootStyles) (h : Heap) :
  wfStyles m h →
  (sel ∉ objectPrototypeNames → Forall acceptedRule rules →
   ∃ m' h', processStyleSheet rules sel m h = (Ok m', h'))
  ∧ ∀ m' h',
      processStyleSheet rules sel m h = (Ok m', h') →
      accumulated m' h' sel = rev (cssText <$> rules) ++ accumulated m h sel.
Proof.
  intros Hwf. split; [apply processStyleSheet_Ok|].
  unfold processStyleSheet. revert m h Hwf.
  induction rules as [|rule rules IH]; intros m h Hwf m' h'.
  - by intros [= <- <-].
  - rewrite reduceM_cons. unfold bind.
    destruct (addStyleRule m sel rule h) as [[m1|e] h1] eqn:Hadd; [|done].
    destruct (addStyleRule_inv _ _ _ _ _ _ Hwf Hadd) as (Hwf1 & _ & Hacc1 & _).
    intros Hrun. rewrite (IH _ _ Hwf1 _ _ Hrun), Hacc1. simpl.
    by rewrite <- app_assoc.
Qed.

(** [processStyleSheet_reverses] on the red rule then the blue one, added
    to an accumulator that holds a rule. *)
Lemma processStyleSheet_reverses_witness :
  processStyleSheet [redRule; blueRule] (str ".widget")
    [(str ".widget", 0)] [[str "a { }"]]
  = (Ok [(str ".widget", 0)],
     [[cssText blueRule; cssText redRule; str "a { }"]])
  ∧ accumulated [(str ".widget", 0)]
      [[cssText blueRule; cssText redRule; str "a { }"]] (str ".widget")
    = rev (cssText <$> [redRule; blueRule])
      ++ accumulated [(str ".widget", 0)] [[str "a { }"]] (str ".widget").
Proof.
  split; [reflexivity|].
  apply (processStyleSheet_reverses [redRule; blueRule] (str ".widget")
           [(str ".widget", 0)] [[str "a { }"]]); [|reflexivity].
  split.
  - apply (bool_decide_unpack _). vm_compute. exact I.
  - intros sel acc. simpl.
    destruct (decide (sel = str ".widget")); [|done].
    intros [= <-]. eexists _, _. reflexivity.
Defined.

(** ** What extraction yields and how it fails *)

Lemma addStyleRule_Ok_inv (m : CrossRootStyles) (sel : JSString)
    (rule : CSSRule) (h : Heap) (m' : CrossRootStyles) (h' : Heap) :
  wfStyles m h → addStyleRule m sel rule h = (Ok m', h') →
  wfStyles m' h' ∧ ∀ k, k ∈ R_keys m' ↔ k = sel ∨ k ∈ R_keys m.
Proof.
  intros Hwf Hrun.
  by destruct (addStyleRule_inv _ _ _ _ _ _ Hwf Hrun) as (Hwf' & Hk & _).
Qed.

Lemma processStyleSheet_Ok_inv (rules : list CSSRule) (sel : JSString) :
  ∀ (m : CrossRootStyles) (h : Heap) (m' : CrossRootStyles) (h' : Heap),
    wfStyles m h → processStyleSheet rules sel m h = (Ok m', h') →
    wfStyles m' h'
    ∧ ∀ k, k ∈ R_keys m' ↔ (rules ≠ [] ∧ k = sel) ∨ k ∈ R_keys m.
Proof.
  unfold processStyleSheet.
  induction rules as [|rule rules IH]; intros m h m' h' Hwf.
  - intros [= <- <-]. split; [done|]. intros k. split; [auto|].
    by intros [[? _]|?].
  - rewrite reduceM_cons. unfold bind.
    destruct (addStyleRule m sel rule h) as [[m1|e] h1] eqn:Hadd; [|done].
    destruct (addStyleRule_Ok_inv _ _ _ _ _ _ Hwf Hadd) as [Hwf1 Hk1].
    intros Hrun. destruct (IH _ _ _ _ Hwf1 Hrun) as [Hwf' Hk].
    split; [done|]. intros k. rewrite Hk, Hk1. split.
    + intros [[_ ->]|[->|?]]; auto.
    + intros [[_ ->]|?]; auto.
Qed.

Lemma block_Ok_inv (mark : MediaQueryResult) (rules : list CSSRule)
    (m : CrossRootStyles) (h : Heap) (m' : CrossRootStyles) (h' : Heap) :
  wfStyles m h →
  (if isCrossRoot mark then processStyleSheet rules (selector mark) m
   else ret m) h = (Ok m', h') →
  wfStyles m' h'
  ∧ ∀ k, k ∈ R_keys m' ↔ k ∈ blockSelectors mark rules ∨ k ∈ R_keys m.
Proof.
  intros Hwf. unfold blockSelectors. destruct (isCrossRoot mark); simpl.
  - intros Hrun.
    destruct (processStyleSheet_Ok_inv _ _ _ _ _ _ Hwf Hrun) as [Hwf' Hk].
    split; [done|]. intros k. rewrite Hk. case_bool_decide as Hne.
    + rewrite list_elem_of_singleton. tauto.
    + rewrite elem_of_nil. tauto.
  - intros [= <- <-]. split; [done|]. intros k. rewrite elem_of_nil. tauto.
Qed.

Lemma scanRule_Ok_inv (m : CrossRootStyles) (rule : CSSRule) (h : Heap)
    (m' : CrossRootStyles) (h' : Heap) :
  wfStyles m h → scanRule m rule h = (Ok m', h') →
  wfStyles m' h'
  ∧ ∀ k, k ∈ R_keys m' ↔ k ∈ ruleSelectors rule ∨ k ∈ R_keys m.
Proof.
  intros Hwf. unfold scanRule, ruleSelectors. fold (ruleCondition rule).
  case_bool_decide as Hctor; cbn [andb].
  - by apply (block_Ok_inv (ruleCondition rule)).
  - intros [= <- <-]. split; [done|]. intros k. rewrite elem_of_nil. tauto.
Qed.

(** A fold of extraction steps: the keys of the result are those of the
    start and those the steps give. *)
Lemma reduceM_Ok_keys {B} (f : CrossRootStyles → B → M Heap CrossRootStyles)
    (contrib : B → list JSString) (l : list B) :
  (∀ a x s a' s',
     wfStyles a s → f a x s = (Ok a', s') →
     wfStyles a' s' ∧ ∀ k, k ∈ R_keys a' ↔ k ∈ contrib x ∨ k ∈ R_keys a) →
  ∀ acc s r s',
    wfStyles acc s → reduceM f acc l s = (Ok r, s') →
    wfStyles r s'
    ∧ ∀ k, k ∈ R_keys r ↔ k ∈ flat_map contrib l ∨ k ∈ R_keys acc.
Proof.
  intros Hf. induction l as [|x l IH]; intros acc s r s' Hwf.
  - intros [= <- <-]. split; [done|]. intros k. simpl.
    rewrite elem_of_nil. tauto.
  - rewrite reduceM_cons. unfold bind.
    destruct (f acc x s) as [[a|e] s1] eqn:Hfx; [|done].
    destruct (Hf _ _ _ _ _ Hwf Hfx) as [Hwf1 Hk1].
    intros Hrun. destruct (IH _ _ _ _ Hwf1 Hrun) as [Hwf' Hk].
    split; [done|]. intros k. simpl. rewrite Hk, Hk1, elem_of_app. tauto.
Qed.

Lemma scanSheet_Ok_inv (d : DomTree) (m : CrossRootStyles) (sheet : DocSheet)
    (h : Heap) (m' : CrossRootStyles) (h' : Heap) :
  wfStyles m h → scanSheet d m sheet h = (Ok m', h') →
  wfStyles m' h'
  ∧ ∀ k, k ∈ R_keys m' ↔ k ∈ sheetSelectors d sheet ∨ k ∈ R_keys m.
Proof.
  intros Hwf. unfold sheetSelectors.
  destruct (ownerNode sheet) as [owner|] eqn:Howner;
    [|unfold scanSheet; by rewrite Howner].
  destruct (matches d owner ownerSelector) eqn:Hmatch.
  2:{ unfold scanSheet. rewrite Howner, Hmatch. intros [= <- <-].
      split; [done|]. intros k. rewrite elem_of_nil. tauto. }
  intros (_ & m1 & h1 & Htop & Hrun)%(scanSheet_Ok_steps _ _ _ _ _ _ owner);
    [|done..].
  destruct (block_Ok_inv _ _ _ _ _ _ Hwf Htop) as [Hwf1 Hk1].
  destruct (reduceM_Ok_keys scanRule ruleSelectors (sheetRules sheet)
              scanRule_Ok_inv _ _ _ _ Hwf1 Hrun) as [Hwf' Hk].
  split; [done|]. intros k. rewrite Hk, Hk1, elem_of_app. tauto.
Qed.

Lemma refreshCrossRootStyles_Ok_inv (d : DomTree) (sheets : list DocSheet)
    (h : Heap) (m : CrossRootStyles) (h' : Heap) :
  refreshCrossRootStyles d sheets h = (Ok m, h') →
  wfStyles m h' ∧ ∀ k, k ∈ R_keys m ↔ k ∈ flat_map (sheetSelectors d) sheets.
Proof.
  intros Hrun.
  destruct (reduceM_Ok_keys (scanSheet d) (sheetSelectors d) sheets
              (scanSheet_Ok_inv d) _ _ _ _ (wfStyles_empty h) Hrun)
    as [Hwf Hk].
  split; [done|]. intros k. rewrite Hk. unfold createCrossRootStyles.
  simpl. rewrite elem_of_nil. tauto.
Qed.

(** X4: when extraction completes, the keys of the map it returns are
    exactly the selectors of the marks of the scanned sheets that have a
    rule: the condition of a sheet with a rule, the condition of a media rule
    at its top level with a rule.  A mark over an empty rule list makes no
    key, and a sheet whose owner is not matched (it carries [no-half-light],
    or is not a child of the head) gives none. *)
Theorem refreshCrossRootStyles_keys (d : DomTree) (sheets : list DocSheet)
    (h : Heap) (m : CrossRootStyles) (h' : Heap) :
  refreshCrossRootStyles d sheets h = (Ok m, h') →
  ∀ k, k ∈ R_keys m ↔ k ∈ flat_map (sheetSelectors d) sheets.
Proof. intros Hrun. by apply (refreshCrossRootStyles_Ok_inv d sheets h m h'). Qed.

(** [refreshCrossRootStyles_keys] on the example sheet. *)
Lemma refreshCrossRootStyles_keys_witness :
  refreshCrossRootStyles exampleDom [widgetSheet] []
  = (Ok [(str ".widget", 0)], [[cssText redRule]])
  ∧ (str ".widget" ∈ R_keys [(str ".widget", 0)]
     ↔ str ".widget" ∈ flat_map (sheetSelectors exampleDom) [widgetSheet]).
Proof.
  split; [reflexivity|].
  apply (refreshCrossRootStyles_keys exampleDom [widgetSheet] []
           [(str ".widget", 0)] [[cssText redRule]]).
  reflexivity.
Defined.

Lemma throwsOnly_ret {S A} (X : JSError → Prop) (a : A) :
  throwsOnly X (@ret S A a).
Proof. intros s e s' [=]. Qed.

Lemma throwsOnly_throw {S A} (X : JSError → Prop) (e : JSError) :
  X e → throwsOnly X (@throw S A e).
Proof. by intros He s e' s' [= <- _]. Qed.

Lemma throwsOnly_bind {S A B} (X : JSError → Prop) (c : M S A)
    (k : A → M S B) :
  throwsOnly X c → (∀ a, throwsOnly X (k a)) → throwsOnly X (bind c k).
Proof.
  intros Hc Hk s e s'. unfold bind.
  destruct (c s) as [[a|e1] s1] eqn:Hcs.
  - apply Hk.
  - intros [= <- _]. by eapply Hc.
Qed.

Lemma throwsOnly_mono {S A} (X Y : JSError → Prop) (c : M S A) :
  (∀ e, X e → Y e) → throwsOnly X c → throwsOnly Y c.
Proof. intros HXY Hc s e s' Hrun. by eapply HXY, Hc. Qed.

Lemma throwsOnly_reduceM {S A B} (X : JSError → Prop) (f : A → B → M S A)
    (l : list B) (acc : A) :
  (∀ a x, x ∈ l → throwsOnly X (f a x)) → throwsOnly X (reduceM f acc l).
Proof.
  revert acc. induction l as [|x l IH]; intros acc Hf.
  - apply throwsOnly_ret.
  - rewrite reduceM_cons. apply throwsOnly_bind; [apply Hf; left|].
    intros a. apply IH. intros a' y Hy. apply Hf. by right.
Qed.

Lemma processStyleSheet_throwsOnly (rules : list CSSRule) (sel : JSString)
    (m : CrossRootStyles) :
  throwsOnly (blockFailure sel rules) (processStyleSheet rules sel m).
Proof.
  apply throwsOnly_reduceM. intros a rule Hrule h e h'.
  unfold addStyleRule, getProp, R_clone, bind, newCSSStyleSheet.
  destruct (getOwn a sel) as [acc|].
  - destruct (insertRule acc _ _ h) as [[[]|e1] h1] eqn:Hins; [done|].
    apply insertRule_inv in Hins as [(_ & [=] & _)|(name & Hname & [= ->] & _)].
    intros [= <- _]. right. by eexists rule, _, name.
  - case_bool_decide as Hproto; [intros [= <- _]; by left|].
    destruct (insertRule (length h) _ _ (h ++ [[]])) as [[[]|e1] h1] eqn:Hins;
      [done|].
    apply insertRule_inv in Hins as [(_ & [=] & _)|(name & Hname & [= ->] & _)].
    intros [= <- _]. right. by eexists rule, _, name.
Qed.

Lemma throwsOnly_bind_val {S A B} (X : JSError → Prop) (V : A → Prop)
    (c : M S A) (k : A → M S B) :
  throwsOnly X c → (∀ s a s', c s = (Ok a, s') → V a) →
  (∀ a, V a → throwsOnly X (k a)) → throwsOnly X (bind c k).
Proof.
  intros Hc HV Hk s e s'. unfold bind.
  destruct (c s) as [[a|e1] s1] eqn:Hcs.
  - apply Hk. by eapply HV.
  - intros [= <- _]. by eapply Hc.
Qed.

Lemma readCssRules_throwsOnly (sheet : DocSheet) :
  throwsOnly (sheetFailure sheet) (readCssRules sheet).
Proof.
  unfold readCssRules. destruct (crossOrigin sheet) eqn:Horigin;
    [|apply throwsOnly_ret].
  apply throwsOnly_throw. right. by left.
Qed.

Lemma readCssRules_value (sheet : DocSheet) (h : Heap) (rules : list CSSRule)
    (h' : Heap) :
  readCssRules sheet h = (Ok rules, h') → rules = sheetRules sheet.
Proof.
  unfold readCssRules. destruct (crossOrigin sheet); [done|].
  by intros [= <- _].
Qed.

Lemma scanSheet_throwsOnly (d : DomTree) (m : CrossRootStyles)
    (sheet : DocSheet) :
  throwsOnly (sheetFailure sheet) (scanSheet d m sheet).
Proof.
  unfold scanSheet.
  destruct (ownerNode sheet) eqn:Howner;
    [|apply throwsOnly_throw; by left].
  destruct (negb _); [apply throwsOnly_ret|].
  apply throwsOnly_bind.
  - destruct (isCrossRoot _); [|apply throwsOnly_ret].
    apply (throwsOnly_bind_val _ (λ rules, rules = sheetRules sheet));
      [apply readCssRules_throwsOnly | apply readCssRules_value |].
    intros rules ->.
    eapply throwsOnly_mono; [|apply processStyleSheet_throwsOnly].
    intros e [[-> Hsel]|(rule & texts & name & Hrule & Hname & ->)].
    + right. right. left. split; [done|]. by left.
    + right. right. right. exists rule, texts, name. split; [by left|done].
  - intros styles.
    apply (throwsOnly_bind_val _ (λ rules, rules = sheetRules sheet));
      [apply readCssRules_throwsOnly | apply readCssRules_value |].
    intros rules ->. apply throwsOnly_reduceM. intros a group Hgroup.
    unfold scanRule. fold (ruleCondition group).
    destruct (_ && _); [|apply throwsOnly_ret].
    eapply throwsOnly_mono; [|apply processStyleSheet_throwsOnly].
    intros e [[-> Hsel]|(rule & texts & name & Hrule & Hname & ->)].
    + right. right. left. split; [done|]. right. by exists group.
    + right. right. right. exists rule, texts, name.
      split; [right; by exists group | done].
Qed.

Lemma refreshCrossRootStyles_throwsOnly (d : DomTree) (sheets : list DocSheet) :
  throwsOnly (extractionError sheets) (refreshCrossRootStyles d sheets).
Proof.
  apply throwsOnly_reduceM. intros m sheet Hsheet.
  eapply throwsOnly_mono; [|apply scanSheet_throwsOnly].
  intros e He. by exists sheet.
Qed.

Lemma convertToCSSStyleSheets_Ok (m : CrossRootStyles) (h : Heap) :
  wfStyles m h →
  ∃ out ext, convertToCSSStyleSheets m h = (Ok out, h ++ ext).
Proof.
  intros [Hnd Hacc].
  destruct (convert_loop m h (R_keys m)) with (out := createCrossRootStyles)
    (ext := @nil (list JSString)) as (out & ext & Hrun & _).
  - intros k Hk. apply getOwn_is_Some in Hk as [acc Hk].
    destruct (Hacc _ _ Hk) as (text & rest & Hh).
    exists text. unfold firstText. by rewrite Hk, Hh.
  - constructor.
  - rewrite !app_nil_r in Hrun. simpl in Hrun. by exists out, ext.
Qed.

Lemma compilePass_throws (d : DomTree) (sheets : list DocSheet) (h : Heap)
    (e : JSError) (h' : Heap) :
  compilePass d sheets h = (Throw e, h') →
  refreshCrossRootStyles d sheets h = (Throw e, h')
  ∧ extractionError sheets e.
Proof.
  unfold compilePass, bind.
  destruct (refreshCrossRootStyles d sheets h) as [[m|e1] h1] eqn:Hrefresh.
  - destruct (refreshCrossRootStyles_Ok_inv _ _ _ _ _ Hrefresh) as [Hwf _].
    destruct (convertToCSSStyleSheets_Ok m h1 Hwf) as (out & ext & ->).
    done.
  - intros [= <- <-]. split; [done|].
    by eapply refreshCrossRootStyles_throwsOnly.
Qed.

(** X5: when extraction followed by compilation throws, it is extraction
    that threw: the read of [cssRules[0].cssText] in the compiler never
    fails, as every accumulator that extraction makes holds a rule.  And the
    exception has one of four causes in a scanned sheet: the sheet has no
    owner node ([TypeError]); its rules cannot be read ([SecurityError]); a
    selector it gives names a property of [Object.prototype] ([TypeError]);
    a constructed stylesheet refuses one of its rules or of the child rules
    of its rules (the exception of [insertRule]). *)
Theorem compilePass_errors (d : DomTree) (sheets : list DocSheet) (h : Heap)
    (e : JSError) (h' : Heap) :
  compilePass d sheets h = (Throw e, h') →
  refreshCrossRootStyles d sheets h = (Throw e, h')
  ∧ ∃ sheet, sheet ∈ sheets ∧ sheetFailure sheet e.
Proof. apply compilePass_throws. Qed.

(** [compilePass_errors] on the stylesheet that imports another one. *)
Lemma compilePass_errors_witness :
  compilePass exampleDom [widgetSheet; importingSheet] []
  = (Throw (DOMException SyntaxError), [[cssText redRule]; []])
  ∧ refreshCrossRootStyles exampleDom [widgetSheet; importingSheet] []
    = (Throw (DOMException SyntaxError), [[cssText redRule]; []])
  ∧ ∃ sheet, sheet ∈ [widgetSheet; importingSheet]
             ∧ sheetFailure sheet (DOMException SyntaxError).
Proof.
  split; [reflexivity|].
  apply (compilePass_errors exampleDom [widgetSheet; importingSheet] []).
  reflexivity.
Defined.

(** The rules of a stylesheet of another origin cannot be read: the scan
    throws a [SecurityError]. *)
Example refreshCrossRootStyles_foreign_sheet :
  refreshCrossRootStyles exampleDom [foreignSheet; widgetSheet] []
  = (Throw (DOMException SecurityError), []).
Proof. reflexivity. Qed.

Lemma compilePass_appends (d : DomTree) (sheets : list DocSheet) (h : Heap) :
  ∃ ext, snd (compilePass d sheets h) = h ++ ext.
Proof.
  rewrite compilePass_relocate.
  destruct (compilePass d sheets []) as [[m|e] h']; by exists h'.
Qed.

(** ** What a computation leaves alone *)

Lemma unchanged_ret {T A} (proj : World → T) (a : A) : unchanged proj (ret a).
Proof. done. Qed.

Lemma unchanged_throw {T A} (proj : World → T) (e : JSError) :
  unchanged proj (@throw World A e).
Proof. done. Qed.

Lemma unchanged_gets {T A} (proj : World → T) (f : World → A) :
  unchanged proj (gets f).
Proof. done. Qed.

Lemma unchanged_modify {T} (proj : World → T) (f : World → World) :
  (∀ w, proj (f w) = proj w) → unchanged proj (modify f).
Proof. intros Hf w. apply Hf. Qed.

Lemma unchanged_bind {T A B} (proj : World → T) (c : M World A)
    (k : A → M World B) :
  unchanged proj c → (∀ a, unchanged proj (k a)) → unchanged proj (bind c k).
Proof.
  intros Hc Hk w. unfold bind. specialize (Hc w).
  destruct (c w) as [[a|e] w']; simpl in *; [|done].
  by rewrite Hk.
Qed.

Lemma unchanged_forEachM {T B} (proj : World → T) (f : B → M World unit)
    (l : list B) :
  (∀ x, x ∈ l → unchanged proj (f x)) → unchanged proj (forEachM f l).
Proof.
  induction l as [|x l IH]; intros Hf; [done|].
  rewrite forEachM_cons. apply unchanged_bind; [apply Hf; left|].
  intros _. apply IH. intros y Hy. apply Hf. by right.
Qed.

Lemma unchanged_onHeap {T A} (proj : World → T) (c : M Heap A) :
  (∀ h w, proj (setHeap h w) = proj w) → unchanged proj (onHeap c).
Proof. intros Hp w. unfold onHeap. destruct (c (heap w)). apply Hp. Qed.

Lemma unchanged_assignAdopted {T} (proj : World → T) (el : nat)
    (f : list nat → Result (list nat)) :
  (∀ s w, proj (setShadowRoots s w) = proj w) →
  unchanged proj (assignAdopted el f).
Proof.
  intros Hp w. unfold assignAdopted. destruct (shadowRootOf w el); [|done].
  destruct (f _); [apply Hp | done].
Qed.

Lemma unchanged_applyCrossRootStyles {T} (proj : World → T) (el : nat)
    (m : CrossRootStyles) :
  (∀ f, unchanged proj (assignAdopted el f)) →
  unchanged proj (applyCrossRootStyles el m).
Proof.
  intros Hassign. apply unchanged_forEachM. intros sel _.
  apply unchanged_bind; [apply unchanged_gets|]. intros d.
  apply unchanged_bind.
  { unfold elementMatches.
    destruct (validSelector d sel);
      [apply unchanged_ret | apply unchanged_throw]. }
  intros [|]; [apply Hassign | apply unchanged_ret].
Qed.

Lemma unchanged_resetAndApply {T} (proj : World → T) (el : nat)
    (m : CrossRootStyles) :
  (∀ f, unchanged proj (assignAdopted el f)) →
  unchanged proj (resetAndApply m el).
Proof.
  intros Hassign. unfold resetAndApply.
  apply unchanged_bind; [apply unchanged_gets|]. intros initial.
  apply unchanged_bind; [apply Hassign|]. intros _.
  by apply unchanged_applyCrossRootStyles.
Qed.

Lemma unchanged_initializeStyles {T} (proj : World → T)
    (styleSheets : list nat) :
  (∀ h w, proj (setHeap h w) = proj w) →
  (∀ s w, proj (setShadowRoots s w) = proj w) →
  unchanged proj (initializeStyles styleSheets).
Proof.
  intros Hheap Hsr w. rewrite initializeStyles_unfold.
  destruct (compilePass _ _ (heap w)) as [[m|e] h]; [|apply Hheap].
  rewrite (unchanged_forEachM proj (resetAndApply m)); [apply Hheap|].
  intros el _. apply unchanged_resetAndApply. intros f.
  by apply unchanged_assignAdopted.
Qed.

(** X6: a pass leaves the stylesheets of the store as they are and adds its
    own behind them, whether it completes or throws: the stylesheets a
    component made and adopted are never changed by the script. *)
Theorem initializeStyles_appends (styleSheets : list nat) (w : World) :
  ∃ ext, heap (snd (initializeStyles styleSheets w)) = heap w ++ ext.
Proof.
  rewrite initializeStyles_unfold.
  destruct (compilePass_appends (domTree w) (sheetObjects w styleSheets)
              (heap w)) as [ext Hext].
  exists ext.
  destruct (compilePass _ _ (heap w)) as [[m|e] h]; simpl in Hext; subst h;
    [|done].
  rewrite (unchanged_forEachM heap (resetAndApply m)); [done|].
  intros el _. apply unchanged_resetAndApply. intros f.
  by apply unchanged_assignAdopted.
Qed.

(** ** A pass and the hosts outside the set *)

Lemma unchanged_assignAdopted_other (el x : nat)
    (f : list nat → Result (list nat)) :
  x ≠ el → unchanged (λ w, shadowRoots w !! el) (assignAdopted x f).
Proof.
  intros Hne w. unfold assignAdopted. destruct (shadowRootOf w x); [|done].
  destruct (f _); [|done]. simpl. by rewrite lookup_insert_ne.
Qed.

(** X7: a pass, whether it completes or throws, leaves the shadow root of
    every element outside the Stylable-Elements Set as it is: a host that
    was found darkened, or one of a set that was cleared, keeps its adopted
    stylesheets. *)
Theorem initializeStyles_untracked (styleSheets : list nat) (w : World)
    (el : nat) :
  el ∉ stylableElements w →
  shadowRoots (snd (initializeStyles styleSheets w)) !! el
  = shadowRoots w !! el.
Proof.
  intros Hel. rewrite initializeStyles_unfold.
  destruct (compilePass _ _ (heap w)) as [[m|e] h]; [|done].
  rewrite (unchanged_forEachM (λ w, shadowRoots w !! el) (resetAndApply m));
    [done|].
  intros x Hx. apply unchanged_resetAndApply. intros f.
  apply unchanged_assignAdopted_other. intros ->. by apply Hel.
Qed.

(** [initializeStyles_untracked] on the darkened host (7), which has a
    shadow root and is not in the set, while the host of class [widget]
    is. *)
Lemma initializeStyles_untracked_witness :
  shadowRoots (snd (initializeStyles [0] darkHostWorld)) !! 7
  = shadowRoots darkHostWorld !! 7.
Proof.
  apply (initializeStyles_untracked [0] darkHostWorld 7).
  apply (bool_decide_unpack _). vm_compute. exact I.
Defined.

(** ** A stylesheet that lost its owner *)




(** ** Apply and Reset on an element without an open shadow root *)

(** X9: on an element whose [shadowRoot] is [null] (no shadow root, or a
    closed one) Reset throws the [TypeError] of the [null] shadow root.
    Apply goes through the keys of the map up to the first one that does not
    parse as a selector, where [matches] throws a [SyntaxError], or that the
    element matches, where it throws the [TypeError] of the [null] shadow
    root; it returns without effect when there is no such key.  The page is
    left as it was. *)
Theorem applyCrossRootStyles_without_shadowRoot (w : World) (el : nat)
    (m : CrossRootStyles) (initial : list nat) :
  shadowRootOf w el = None →
  clearShadowRootStyles el initial w = (Throw NullShadowRoot, w)
  ∧ applyCrossRootStyles el m w
    = (match stoppingKey (domTree w) el m with
       | None => Ok tt
       | Some k =>
           if validSelector (domTree w) k then Throw NullShadowRoot
           else Throw (DOMException SyntaxError)
       end, w).
Proof.
  intros Hnone. split.
  { unfold clearShadowRootStyles, assignAdopted. by rewrite Hnone. }
  unfold applyCrossRootStyles, stoppingKey.
  induction (R_keys m) as [|k ks IH]; [done|].
  rewrite forEachM_cons. cbn [List.find].
  unfold bind at 1. unfold gets at 1. unfold bind at 1.
  unfold elementMatches at 1.
  destruct (validSelector (domTree w) k) eqn:Hvalid; cbn [negb orb].
  - unfold ret at 1. unfold bind at 1.
    destruct (matches (domTree w) el k) eqn:Hmatch.
    + rewrite Hvalid. unfold assignAdopted at 1. by rewrite Hnone.
    + exact IH.
  - by rewrite Hvalid.
Qed.

(** [applyCrossRootStyles_without_shadowRoot] on the host of class [widget]
    before it attaches its shadow root, with a map whose first key is not a
    selector. *)
Lemma applyCrossRootStyles_without_shadowRoot_witness :
  clearShadowRootStyles 5 [] (boot examplePage)
  = (Throw NullShadowRoot, boot examplePage)
  ∧ applyCrossRootStyles 5 [(mediaFeatureKey, 1); (str ".widget", 2)]
      (boot examplePage)
    = (Throw (DOMException SyntaxError), boot examplePage).
Proof.
  apply (applyCrossRootStyles_without_shadowRoot (boot examplePage) 5
           [(mediaFeatureKey, 1); (str ".widget", 2)] []).
  reflexivity.
Defined.

(** ** The set of tracked hosts and the table of baselines *)

Lemma recorded_tracking (w w' : World) :
  trackingOf w' = trackingOf w → recorded w → recorded w'.
Proof. unfold trackingOf, recorded. by intros [= -> ->]. Qed.

Lemma task_recorded (c : M World unit) (w : World) :
  recorded (snd (c w)) → recorded (task c w).
Proof. unfold task. destruct (c w) as [[u|e] w']; [done|]. by apply recorded_tracking. Qed.

Lemma unchanged_callAttachShadow (impl : AttachShadowImpl) (el : nat)
    (init : ShadowRootMode) :
  unchanged trackingOf (callAttachShadow impl el init).
Proof.
  induction impl as [|live crs original IH]; simpl.
  - intros w. unfold nativeAttachShadow. by destruct (shadowRoots w !! el).
  - apply unchanged_bind; [done|]. intros _.
    destruct (decide (init ≠ open)); [apply unchanged_ret|].
    by apply unchanged_modify.
Qed.

Lemma runFrameCallback_recorded (callback : FrameCallback) (w : World) :
  recorded w → recorded (snd (runFrameCallback callback w)).
Proof.
  intros Hw. destruct callback as [styleSheets|this live crs];
    unfold runFrameCallback.
  - apply (recorded_tracking w); [|done].
    apply (unchanged_bind trackingOf); [by apply unchanged_initializeStyles|].
    intros _. apply unchanged_bind; [done|]. intros observer.
    apply unchanged_bind; [apply unchanged_gets|]. intros script.
    by apply unchanged_modify.
  - unfold bind at 1, gets at 1.
    destruct (isInDarkRoot _ _ _) as [[|]|]; [done| |done].
    set (w1 := if live
               then setStylableElements (setAdd this (stylableElements w)) w
               else w).
    set (w2 := setInitialShadowRootStyles
                 (<[this := match shadowRoots w1 !! this with
                            | Some sr => adoptedStyleSheets sr
                            | None => []
                            end]> (initialShadowRootStyles w1)) w1).
    assert (recorded w2) as Hw2.
    { destruct Hw as [Hnd Hrec]. subst w2 w1. destruct live; simpl.
      - split.
        + unfold setAdd. case_decide; [done|].
          apply NoDup_app. split; [done|]. split; [|apply NoDup_singleton].
          intros x Hx ->%list_elem_of_singleton. done.
        + intros x Hx. simpl in Hx |- *.
          destruct (decide (this = x)) as [->|Hne];
            [by rewrite lookup_insert_eq|].
          rewrite lookup_insert_ne by done. apply Hrec.
          unfold setAdd in Hx. case_decide; [done|].
          apply elem_of_app in Hx as [?|?%list_elem_of_singleton]; [done|].
          congruence.
      - split; [done|]. intros x Hx. simpl in Hx |- *.
        destruct (decide (this = x)) as [->|Hne];
          [by rewrite lookup_insert_eq|].
        rewrite lookup_insert_ne by done. by apply Hrec. }
    assert ((let* _ := (if live
                        then modify (λ w, setStylableElements
                                            (setAdd this (stylableElements w)) w)
                        else ret ()) in
             let* _ := modify (λ w, setInitialShadowRootStyles
                                      (<[this := match shadowRoots w !! this with
                                                 | Some sr => adoptedStyleSheets sr
                                                 | None => []
                                                 end]>
                                         (initialShadowRootStyles w)) w) in
             applyCrossRootStyles this crs) w
            = applyCrossRootStyles this crs w2) as ->.
    { subst w2 w1. by destruct live. }
    apply (recorded_tracking w2); [|done].
    apply (unchanged_applyCrossRootStyles trackingOf). intros f.
    by apply unchanged_assignAdopted.
Qed.

Lemma handleDOMContentLoaded_recorded (script : option nat) (observer : nat)
    (w : World) :
  recorded w → recorded (snd (handleDOMContentLoaded script observer w)).
Proof.
  intros Hw. unfold handleDOMContentLoaded.
  destruct script as [script|]; [|done].
  unfold bind at 1, gets at 1.
  destruct (hasAttribute (domTree w) script disableAttr); [|done].
  split; [constructor|]. intros x Hx. inversion Hx.
Qed.

Lemma step_recorded (w : World) (e : Event) : recorded w → recorded (step w e).
Proof.
  intros Hw. destruct e as [el init|el sheets|rules| |d sheets attached|d|];
    simpl.
  - apply task_recorded. revert Hw. apply recorded_tracking.
    apply unchanged_callAttachShadow.
  - by destruct (shadowRoots w !! el).
  - done.
  - assert (recorded (setFrameQueue [] w)) as Hw0 by done.
    revert Hw0. generalize (setFrameQueue [] w).
    induction (frameQueue w) as [|callback callbacks IH]; intros w0 Hw0;
      [done|].
    simpl. apply IH, task_recorded. by apply runFrameCallback_recorded.
  - unfold notifyObservers.
    assert (recorded (setDocument d sheets attached w)) as Hw' by done.
    revert Hw'. generalize (setDocument d sheets attached w) at 1 2.
    generalize (observers (setDocument d sheets attached w)).
    intros os. induction os as [|o os IH]; intros w0 Hw0; [done|].
    simpl. apply IH. destruct (observing o); [|done].
    apply task_recorded. revert Hw0. apply recorded_tracking.
    by apply unchanged_initializeStyles.
  - done.
  - revert Hw. generalize w at 1 2.
    induction (listeners w) as [|l ls IH]; intros w0 Hw0; [done|].
    simpl. apply IH, task_recorded. by apply handleDOMContentLoaded_recorded.
Qed.

(** X10: in every state the page can reach after the script has run, the
    hosts of the Stylable-Elements Set are distinct and each has a baseline
    in the table of initial styles: a host is registered and its baseline
    recorded in the same callback, and baselines are never removed.  A pass
    therefore never takes the fallback to the empty list for a host of the
    set. *)
Theorem stylableElements_recorded (p : Page) (events : list Event) :
  NoDup (stylableElements (run (boot p) events))
  ∧ ∀ el, el ∈ stylableElements (run (boot p) events) →
          ∃ initial,
            initialShadowRootStyles (run (boot p) events) !! el = Some initial.
Proof.
  assert (recorded (run (boot p) events)) as H; [|exact H].
  induction events as [|e events IH] using rev_ind.
  - split; [constructor|]. intros x Hx. inversion Hx.
  - unfold run. rewrite foldl_app. simpl. by apply step_recorded.
Qed.

(** ** The wrapper of [attachShadow] *)

(** X11: in every state the page can reach, a call of [attachShadow] does to
    the element what the native function does, and reports the exception
    the native function throws; besides, it schedules one callback for the
    next frame when the call succeeds with mode open, and none when the
    native function throws or the mode is closed. *)
Theorem attachShadow_transparent (p : Page) (events : list Event) (el : nat)
    (init : ShadowRootMode) :
  step (run (boot p) events) (AttachShadow el init)
  = if bool_decide (shadowRoots (run (boot p) events) !! el = None
                    ∧ init = open)
    then setFrameQueue
           (frameQueue (task (nativeAttachShadow el init) (run (boot p) events))
            ++ [AttachedFrame el true createCrossRootStyles])
           (task (nativeAttachShadow el init) (run (boot p) events))
    else task (nativeAttachShadow el init) (run (boot p) events).
Proof.
  destruct (run_wired p events) as (Ha & _).
  generalize dependent (run (boot p) events). intros w Ha.
  simpl. rewrite Ha.
  unfold task, callAttachShadow, bind, nativeAttachShadow.
  destruct (shadowRoots w !! el) as [sr|] eqn:Hel.
  - rewrite bool_decide_eq_false_2; [done|]. by intros [? _].
  - destruct init.
    + rewrite bool_decide_eq_true_2 by done. by rewrite decide_False by auto.
    + rewrite bool_decide_eq_false_2 by (by intros [_ ?]).
      by rewrite decide_True.
Qed.

(** ** A darkened host *)

Lemma untouched_refl (el : nat) (w : World) :
  el ∉ stylableElements w → untouched el w w.
Proof. by intros Hel. Qed.

Lemma untouched_trans (el : nat) (w1 w2 w3 : World) :
  untouched el w1 w2 → untouched el w2 w3 → untouched el w1 w3.
Proof.
  intros (_ & Hs & Ht & Hd) (Hn & Hs' & Ht' & Hd').
  split; [done|]. split; [congruence|]. split; congruence.
Qed.

Lemma initializeStyles_untouched (styleSheets : list nat) (w : World)
    (el : nat) :
  el ∉ stylableElements w →
  untouched el w (snd (initializeStyles styleSheets w)).
Proof.
  intros Hel.
  pose proof (unchanged_initializeStyles trackingOf styleSheets
                (λ _ _, eq_refl) (λ _ _, eq_refl) w) as [= Hset Htable].
  pose proof (unchanged_initializeStyles domTree styleSheets
                (λ _ _, eq_refl) (λ _ _, eq_refl) w) as Hdom.
  split; [by rewrite Hset|]. split; [|split; [by rewrite Htable | done]].
  rewrite initializeStyles_unfold.
  destruct (compilePass _ _ (heap w)) as [[m|e] h]; [|done].
  rewrite (unchanged_forEachM (λ w, shadowRoots w !! el) (resetAndApply m));
    [done|].
  intros x Hx. apply unchanged_resetAndApply. intros f.
  apply unchanged_assignAdopted_other. intros ->. by apply Hel.
Qed.

Lemma task_untouched (el : nat) (c : M World unit) (w : World) :
  untouched el w (snd (c w)) → untouched el w (task c w).
Proof. unfold task. by destruct (c w) as [[u|e] w']. Qed.

Lemma otherCallback_untouched (el : nat) (callback : FrameCallback)
    (w : World) :
  otherCallback el callback → el ∉ stylableElements w →
  untouched el w (snd (runFrameCallback callback w)).
Proof.
  intros Hother Hel.
  destruct callback as [styleSheets|this live crs]; unfold runFrameCallback.
  - pose proof (initializeStyles_untouched styleSheets w el Hel) as Hinit.
    unfold bind at 1.
    destruct (initializeStyles styleSheets w) as [[u|e] w1]; [|done].
    exact Hinit.
  - simpl in Hother. unfold bind at 1, gets at 1.
    destruct (isInDarkRoot _ _ _) as [[|]|]; [done| |done].
    set (w1 := if live
               then setStylableElements (setAdd this (stylableElements w)) w
               else w).
    set (w2 := setInitialShadowRootStyles
                 (<[this := match shadowRoots w1 !! this with
                            | Some sr => adoptedStyleSheets sr
                            | None => []
                            end]> (initialShadowRootStyles w1)) w1).
    assert (untouched el w w2) as Hw2.
    { subst w2 w1. destruct live; (split; [|split; [done|split; [|done]]]);
        simpl; try (by rewrite lookup_insert_ne); try done.
      unfold setAdd. case_decide; [done|].
      rewrite elem_of_app, list_elem_of_singleton. by intros [?|?]. }
    assert ((let* _ := (if live
                        then modify (λ w, setStylableElements
                                            (setAdd this (stylableElements w)) w)
                        else ret ()) in
             let* _ := modify (λ w, setInitialShadowRootStyles
                                      (<[this := match shadowRoots w !! this with
                                                 | Some sr => adoptedStyleSheets sr
                                                 | None => []
                                                 end]>
                                         (initialShadowRootStyles w)) w) in
             applyCrossRootStyles this crs) w
            = applyCrossRootStyles this crs w2) as ->.
    { subst w2 w1. by destruct live. }
    apply (untouched_trans el w w2); [done|].
    pose proof (unchanged_applyCrossRootStyles trackingOf this crs
                  (λ f, unchanged_assignAdopted trackingOf this f
                          (λ _ _, eq_refl)) w2) as [= Hset Htable].
    pose proof (unchanged_applyCrossRootStyles domTree this crs
                  (λ f, unchanged_assignAdopted domTree this f
                          (λ _ _, eq_refl)) w2) as Hdom.
    pose proof (unchanged_applyCrossRootStyles (λ w, shadowRoots w !! el)
                  this crs
                  (λ f, unchanged_assignAdopted_other el this f Hother) w2)
      as Hsr.
    destruct Hw2 as (Hn & _). split; [by rewrite Hset|].
    split; [done|]. split; [by rewrite Htable | done].
Qed.

Lemma frame_untouched (el : nat) (callbacks : list FrameCallback) (w : World) :
  Forall (otherCallback el) callbacks → el ∉ stylableElements w →
  untouched el w
    (foldl (λ w callback, task (runFrameCallback callback) w) w callbacks).
Proof.
  intros Hcbs. revert w.
  induction Hcbs as [|callback callbacks Hcb _ IH]; intros w Hel; [done|].
  simpl.
  assert (untouched el w (task (runFrameCallback callback) w)) as Hstep
    by (by apply task_untouched, otherCallback_untouched).
  eapply untouched_trans; [exact Hstep|]. apply IH. apply Hstep.
Qed.

Lemma darkened_callback (this : nat) (live : bool) (crs : CrossRootStyles)
    (w : World) :
  hasAttribute (domTree w) this darkenedAttr
  || darkenedProperty (domTree w) this = true →
  runFrameCallback (AttachedFrame this live crs) w = (Ok tt, w).
Proof.
  intros Hdark. unfold runFrameCallback, bind, gets. simpl.
  by rewrite Hdark.
Qed.

Lemma step_attach_open (w : World) (el : nat) :
  attachShadow w = Wrapped true createCrossRootStyles Native →
  shadowRoots w !! el = None →
  step w (AttachShadow el open)
  = setFrameQueue
      (frameQueue w ++ [AttachedFrame el true createCrossRootStyles])
      (setShadowRoots
         (<[el := {| mode := open; adoptedStyleSheets := [] |}]>
            (shadowRoots w)) w).
Proof.
  intros Ha Hnone. simpl. rewrite Ha.
  unfold task, callAttachShadow, bind, nativeAttachShadow. rewrite Hnone.
  by rewrite decide_False by auto.
Qed.

(** X12: an element that has no shadow root and carries the darkened
    attribute or property attaches an open shadow root, and the next frame
    runs.  Whatever the page did before, the host is then not in the
    Stylable-Elements Set, its shadow root adopts no stylesheet, no baseline
    was recorded for it, and nothing was reported for it: the interceptor
    leaves a darkened host alone. *)
Theorem darkened_host_is_left_alone (p : Page) (events : list Event)
    (el : nat) :
  shadowRoots (run (boot p) events) !! el = None →
  hasAttribute (domTree (run (boot p) events)) el darkenedAttr
  || darkenedProperty (domTree (run (boot p) events)) el = true →
  (el ∉ stylableElements
          (run (run (boot p) events) [AttachShadow el open; AnimationFrame]))
  ∧ shadowRoots
      (run (run (boot p) events) [AttachShadow el open; AnimationFrame]) !! el
    = Some {| mode := open; adoptedStyleSheets := [] |}
  ∧ initialShadowRootStyles
      (run (run (boot p) events) [AttachShadow el open; AnimationFrame]) !! el
    = initialShadowRootStyles (run (boot p) events) !! el.
Proof.
  pose proof (run_tracked p events) as Htracked.
  destruct (run_wired p events) as (Ha & _).
  generalize dependent (run (boot p) events). intros w Htracked Ha Hnone Hdark.
  assert (¬ hasOpenShadowRoot w el) as Hclosed.
  { unfold hasOpenShadowRoot, shadowRootOf. rewrite Hnone. by intros [? [=]]. }
  destruct Htracked as (_ & Hset & Hqueue & _).
  assert (el ∉ stylableElements w) as Hel
    by (intros Hin; by destruct (Hset el Hin)).
  assert (Forall (otherCallback el) (frameQueue w)) as Hothers.
  { apply Forall_forall. intros [s|this live crs] Hin; [done|]. simpl.
    intros ->. by destruct (Hqueue _ el Hin eq_refl). }
  change (run w [AttachShadow el open; AnimationFrame])
    with (step (step w (AttachShadow el open)) AnimationFrame).
  rewrite (step_attach_open w el Ha Hnone).
  set (w' := setShadowRoots _ w).
  set (callback := AttachedFrame el true createCrossRootStyles).
  change (step (setFrameQueue (frameQueue w ++ [callback]) w') AnimationFrame)
    with (foldl (λ w callback, task (runFrameCallback callback) w)
                (setFrameQueue [] w') (frameQueue w ++ [callback])).
  rewrite foldl_app. cbn [foldl].
  set (w1 := foldl _ (setFrameQueue [] w') (frameQueue w)).
  assert (untouched el (setFrameQueue [] w') w1) as (Hn1 & Hs1 & Ht1 & Hd1)
    by (by apply frame_untouched).
  unfold task. subst callback.
  rewrite (darkened_callback el true createCrossRootStyles w1)
    by (by rewrite Hd1).
  split; [done|]. split; [|done].
  rewrite Hs1. subst w'. simpl. by rewrite lookup_insert_eq.
Qed.

(** [darkened_host_is_left_alone] on the darkened host (7) of the example
    page, after the host of class [widget] was registered. *)
Lemma darkened_host_is_left_alone_witness :
  (7 ∉ stylableElements
         (run (run (boot examplePage) attachWidget)
              [AttachShadow 7 open; AnimationFrame]))
  ∧ shadowRoots
      (run (run (boot examplePage) attachWidget)
           [AttachShadow 7 open; AnimationFrame]) !! 7
    = Some {| mode := open; adoptedStyleSheets := [] |}
  ∧ initialShadowRootStyles
      (run (run (boot examplePage) attachWidget)
           [AttachShadow 7 open; AnimationFrame]) !! 7
    = initialShadowRootStyles (run (boot examplePage) attachWidget) !! 7.
Proof.
  apply (darkened_host_is_left_alone examplePage attachWidget 7);
    vm_compute; reflexivity.
Defined.

(** ** Registration of a host *)

Lemma setAdopted_fresh (w : World) (el : nat) (mode0 : ShadowRootMode)
    (old sheets : list nat) :
  shadowRoots w !! el = Some {| mode := mode0; adoptedStyleSheets := old |} →
  step w (SetAdoptedStyleSheets el sheets)
  = setShadowRoots
      (<[el := {| mode := mode0; adoptedStyleSheets := sheets |}]>
         (shadowRoots w)) w.
Proof. intros Hel. simpl. by rewrite Hel. Qed.

(** X13: an element without a shadow root that is not in a darkened
    subtree attaches an open shadow root and adopts stylesheets before the
    next frame runs.  Whatever the page did before, after that frame the
    host is in the Stylable-Elements Set, its recorded baseline is the list
    it had adopted by then, and its shadow root still adopts exactly that
    list: the baseline is read at the frame, not at the call, and the
    interceptor adds nothing to it. *)
Theorem attached_host_is_registered (p : Page) (events : list Event)
    (el : nat) (sheets : list nat) :
  shadowRoots (run (boot p) events) !! el = None →
  isInDarkRoot (domTree (run (boot p) events))
    (2 + treeHeight (domTree (run (boot p) events))) (ShadowRootOf el)
  = Some false →
  el ∈ stylableElements
         (run (run (boot p) events)
              [AttachShadow el open; SetAdoptedStyleSheets el sheets;
               AnimationFrame])
  ∧ initialShadowRootStyles
      (run (run (boot p) events)
           [AttachShadow el open; SetAdoptedStyleSheets el sheets;
            AnimationFrame]) !! el
    = Some sheets
  ∧ shadowRoots
      (run (run (boot p) events)
           [AttachShadow el open; SetAdoptedStyleSheets el sheets;
            AnimationFrame]) !! el
    = Some {| mode := open; adoptedStyleSheets := sheets |}.
Proof.
  pose proof (run_tracked p events) as Htracked.
  destruct (run_wired p events) as (Ha & _).
  generalize dependent (run (boot p) events). intros w Htracked Ha Hnone Hlight.
  assert (¬ hasOpenShadowRoot w el) as Hclosed.
  { unfold hasOpenShadowRoot, shadowRootOf. rewrite Hnone. by intros [? [=]]. }
  destruct Htracked as (_ & Hset & Hqueue & _).
  assert (el ∉ stylableElements w) as Hel
    by (intros Hin; by destruct (Hset el Hin)).
  assert (Forall (otherCallback el) (frameQueue w)) as Hothers.
  { apply Forall_forall. intros [s|this live crs] Hin; [done|]. simpl.
    intros ->. by destruct (Hqueue _ el Hin eq_refl). }
  change (run w [AttachShadow el open; SetAdoptedStyleSheets el sheets;
                 AnimationFrame])
    with (step (step (step w (AttachShadow el open))
                     (SetAdoptedStyleSheets el sheets)) AnimationFrame).
  rewrite (step_attach_open w el Ha Hnone).
  rewrite (setAdopted_fresh _ el open [] sheets)
    by (simpl; by rewrite lookup_insert_eq).
  set (callback := AttachedFrame el true createCrossRootStyles).
  set (w' := setShadowRoots _ (setFrameQueue _ _)).
  change (step w' AnimationFrame)
    with (foldl (λ w callback, task (runFrameCallback callback) w)
                (setFrameQueue [] w') (frameQueue w ++ [callback])).
  rewrite foldl_app. cbn [foldl].
  set (w1 := foldl _ (setFrameQueue [] w') (frameQueue w)).
  assert (untouched el (setFrameQueue [] w') w1) as (Hn1 & Hs1 & Ht1 & Hd1)
    by (by apply frame_untouched).
  assert (shadowRoots w1 !! el
          = Some {| mode := open; adoptedStyleSheets := sheets |}) as Hroot.
  { rewrite Hs1. subst w'. simpl. by rewrite lookup_insert_eq. }
  unfold task. subst callback. unfold runFrameCallback, bind, gets.
  rewrite Hd1. change (domTree (setFrameQueue [] w')) with (domTree w).
  rewrite Hlight. unfold modify, applyCrossRootStyles. simpl.
  rewrite Hroot, lookup_insert_eq. simpl.
  split; [|done]. unfold setAdd. case_decide; [done|].
  apply elem_of_app. right. left.
Qed.

(** [attached_host_is_registered] on the host of class [widget] of the
    example page, before any frame. *)
Lemma attached_host_is_registered_witness :
  5 ∈ stylableElements
        (run (run (boot examplePage) [])
             [AttachShadow 5 open; SetAdoptedStyleSheets 5 [0];
              AnimationFrame])
  ∧ initialShadowRootStyles
      (run (run (boot examplePage) [])
           [AttachShadow 5 open; SetAdoptedStyleSheets 5 [0];
            AnimationFrame]) !! 5
    = Some [0]
  ∧ shadowRoots
      (run (run (boot examplePage) [])
           [AttachShadow 5 open; SetAdoptedStyleSheets 5 [0];
            AnimationFrame]) !! 5
    = Some {| mode := open; adoptedStyleSheets := [0] |}.
Proof.
  apply (attached_host_is_registered examplePage [] 5 [0]);
    vm_compute; reflexivity.
Defined.

(** ** The callback of [main] *)


(** ** How often live sync starts *)







